(** * rootsy: the session / log / log-group store

    A shallow embedding of [src/storage/database.ts] (class [Database]) and
    [src/storage/storageManager.ts] (class [StorageManager]), together with a
    model of the part of the SQLite engine that the two classes drive: the
    three tables made by [createTables], the statements the program issues,
    and BEGIN / COMMIT / ROLLBACK.

    Conventions.
    - JavaScript numbers that hold epoch milliseconds are integers ([Z]).
    - [Date.now()] and [uuidv4()] are read from the environment: the value
      each call returns is an explicit argument ([now], [uuid]) of the
      operation that makes the call.
    - A promise that rejects / a [throw] is a result [Err e]; the state
      reached before the throw is kept, as in JavaScript.
    - An optional field ([service?: string]) of an object is an [Optional]:
      left out or [undefined], [null], or a string. A nullable column of a
      stored row is an [option]: SQL NULL is [None].
    - Engine failures that do not depend on the stored rows (I/O errors, a
      busy file) are outside the model: a statement fails exactly when a
      declared constraint or the transaction state forbids it.
    - Calls do not overlap: a method runs to its end before the next one
      starts. *)

From Stdlib Require Import String Ascii ZArith List Bool Lia.
From Stdlib Require Import Sorting.Sorted Sorting.Permutation.
Import ListNotations.
Local Open Scope string_scope.
Local Open Scope Z_scope.

Set Implicit Arguments.

(** ** Errors and the state-and-exception monad *)

(** [JsError] is an [Error] made by the program's own [throw new Error(...)];
    the other two are errors handed back by the engine. *)
Inductive Error : Type :=
| JsError (message : string)
| SQLITE_CONSTRAINT (message : string)
| SQLITE_ERROR (message : string).

Inductive result (A : Type) : Type :=
| Ok (a : A)
| Err (e : Error).
Arguments Ok {A} a.
Arguments Err {A} e.

(** An asynchronous method over a mutable receiver of type [S]. *)
Definition M (S A : Type) : Type := S -> result A * S.

Definition ret {S A} (a : A) : M S A := fun s => (Ok a, s).

Definition throw {S A} (e : Error) : M S A := fun s => (Err e, s).

Definition bind {S A B} (c : M S A) (k : A -> M S B) : M S B :=
  fun s =>
    match c s with
    | (Ok a, s') => k a s'
    | (Err e, s') => (Err e, s')
    end.

(** [try { c } catch (error) { h error }] *)
Definition try_catch {S A} (c : M S A) (h : Error -> M S A) : M S A :=
  fun s =>
    match c s with
    | (Ok a, s') => (Ok a, s')
    | (Err e, s') => h e s'
    end.

Declare Scope js_scope.
Delimit Scope js_scope with js.
Notation "x <- c ;; k" := (bind c (fun x => k))
  (at level 100, c at next level, right associativity) : js_scope.
Notation "'await' c ;; k" := (bind c (fun _ => k))
  (at level 100, c at next level, right associativity) : js_scope.
Local Open Scope js_scope.

(** [for (const x of xs) { await body x }] *)
Fixpoint for_of {S A} (xs : list A) (body : A -> M S unit) : M S unit :=
  match xs with
  | [] => ret tt
  | x :: rest => await body x ;; for_of rest body
  end.

(** Run a method of a field object: [get] reads the field, [set] writes it
    back. *)
Definition on_field {S T A} (get : S -> T) (set : T -> S -> S) (c : M T A)
  : M S A :=
  fun s => let (r, t') := c (get s) in (r, set t' s).

(** ** Data model ([storageManager.ts], interfaces) *)

Module Session.
Record t : Type := mk {
  id : string;
  name : string;
  createdAt : Z;
  updatedAt : Z;
  cloudProvider : string;
  startTime : Z;
  endTime : Z;
  status : string
}.
End Session.

(** The value of an optional string field of a JavaScript object: the key is
    left out or holds [undefined], it holds [null], or it holds a string. *)
Inductive Optional : Type :=
| undefined
| null
| text (s : string).

Module Log.
Record t : Type := mk {
  id : string;
  sessionId : string;
  logContent : string;
  timestamp : Z;
  service : Optional;
  logLevel : Optional;
  groupId : Optional
}.
End Log.

Module LogGroup.
Record t : Type := mk {
  id : string;
  sessionId : string;
  name : string;
  description : Optional;
  rootCause : Optional;
  suggestedFix : Optional;
  status : string
}.
End LogGroup.

(** [x || null] as the value bound to a nullable column: [undefined], [null]
    and the empty string are falsy and bind NULL, any other string binds
    itself. *)
Definition or_null (x : Optional) : option string :=
  match x with
  | text EmptyString => None
  | text s => Some s
  | undefined | null => None
  end.

(** A nullable column in a row the engine hands back: NULL is [null]. *)
Definition of_column (v : option string) : Optional :=
  match v with
  | Some s => text s
  | None => null
  end.

(** ** The engine: tables, constraints, statements *)

Module Sqlite.

(** Rows of the three tables of [createTables], column by column. *)
Record sessions_row : Type := mk_sessions_row {
  s_id : string;
  s_name : string;
  s_created_at : Z;
  s_updated_at : Z;
  s_cloud_provider : string;
  s_start_time : Z;
  s_end_time : Z;
  s_status : string
}.

Record logs_row : Type := mk_logs_row {
  l_id : string;
  l_session_id : string;
  l_log_content : string;
  l_timestamp : Z;
  l_service : option string;
  l_log_level : option string;
  l_group_id : option string
}.

Record log_groups_row : Type := mk_log_groups_row {
  g_id : string;
  g_session_id : string;
  g_name : string;
  g_description : option string;
  g_root_cause : option string;
  g_suggested_fix : option string;
  g_status : string
}.

(** A table is the list of its rows in rowid (insertion) order. *)
Record Tables : Type := mkTables {
  sessions : list sessions_row;
  logs : list logs_row;
  log_groups : list log_groups_row
}.

Definition empty : Tables := mkTables [] [] [].

(** A connection: the rows every read on it sees, the rows as they were at
    BEGIN while a transaction is open, and [PRAGMA foreign_keys] (the
    program never sets it; both values are covered). *)
Record Connection : Type := mkConnection {
  tables : Tables;
  txn : option Tables;
  foreign_keys : bool
}.

Definition open (file : Tables) (fk : bool) : Connection :=
  mkConnection file None fk.

Definition with_tables (t : Tables) (c : Connection) : Connection :=
  mkConnection t (txn c) (foreign_keys c).

(** The statements the program passes to [run], with their bound
    parameters in the order of the [?] marks. *)
Inductive stmt : Type :=
| BEGIN_TRANSACTION
| COMMIT
| ROLLBACK
| INSERT_INTO_sessions
    (id name : string) (created_at updated_at : Z) (cloud_provider : string)
    (start_time end_time : Z) (status : string)
| UPDATE_sessions
    (name : string) (updated_at : Z) (cloud_provider : string)
    (start_time end_time : Z) (status : string) (id : string)
| DELETE_FROM_logs_WHERE_session_id (id : string)
| DELETE_FROM_log_groups_WHERE_session_id (id : string)
| DELETE_FROM_sessions_WHERE_id (id : string)
| INSERT_INTO_logs
    (id session_id log_content : string) (timestamp : Z)
    (service log_level group_id : option string)
| INSERT_INTO_log_groups
    (id session_id name : string)
    (description root_cause suggested_fix : option string) (status : string)
| UPDATE_log_groups
    (name : string) (description root_cause suggested_fix : option string)
    (status : string) (id : string)
| UPDATE_logs_SET_group_id (group_id id : string).

(** What [run] hands to its callback on success. *)
Record RunResult : Type := mkRunResult { changes : nat }.

Definition has_id {R} (key : R -> string) (i : string) (rows : list R) : bool :=
  existsb (fun r => String.eqb (key r) i) rows.

Definition count_where {R} (p : R -> bool) (rows : list R) : nat :=
  length (filter p rows).

(** [group_id = ?] against a nullable column: NULL matches nothing. *)
Definition opt_eqb (o : option string) (v : string) : bool :=
  match o with
  | Some x => String.eqb x v
  | None => false
  end.

(** FOREIGN KEY (session_id) REFERENCES sessions (id), checked only when
    the pragma is on. *)
Definition parent_ok (c : Connection) (session_id : string) : bool :=
  negb (foreign_keys c) || has_id s_id session_id (sessions (tables c)).

Definition no_child (c : Connection) (i : string) : bool :=
  negb (foreign_keys c)
  || (negb (existsb (fun r => String.eqb (l_session_id r) i) (logs (tables c)))
      && negb (existsb (fun r => String.eqb (g_session_id r) i)
                 (log_groups (tables c)))).

Definition unique_failed (col : string) : Error :=
  SQLITE_CONSTRAINT ("UNIQUE constraint failed: " ++ col).

Definition fk_failed : Error :=
  SQLITE_CONSTRAINT "FOREIGN KEY constraint failed".

Definition done (n : nat) (t : Tables) (c : Connection)
  : result (RunResult * Connection) :=
  Ok (mkRunResult n, with_tables t c).

(** One statement on an open connection. A failing statement leaves the
    rows and the transaction as they were. *)
Definition run (q : stmt) (c : Connection) : result (RunResult * Connection) :=
  let t := tables c in
  match q with
  | BEGIN_TRANSACTION =>
      match txn c with
      | Some _ =>
          Err (SQLITE_ERROR "cannot start a transaction within a transaction")
      | None => Ok (mkRunResult 0, mkConnection t (Some t) (foreign_keys c))
      end
  | COMMIT =>
      match txn c with
      | Some _ => Ok (mkRunResult 0, mkConnection t None (foreign_keys c))
      | None => Err (SQLITE_ERROR "cannot commit - no transaction is active")
      end
  | ROLLBACK =>
      match txn c with
      | Some saved =>
          Ok (mkRunResult 0, mkConnection saved None (foreign_keys c))
      | None => Err (SQLITE_ERROR "cannot rollback - no transaction is active")
      end
  | INSERT_INTO_sessions i n ca ua cp st et stat =>
      if has_id s_id i (sessions t) then Err (unique_failed "sessions.id")
      else done 1 (mkTables
                     (sessions t ++ [mk_sessions_row i n ca ua cp st et stat])
                     (logs t) (log_groups t)) c
  | UPDATE_sessions n ua cp st et stat i =>
      done (count_where (fun r => String.eqb (s_id r) i) (sessions t))
        (mkTables
           (map (fun r =>
                   if String.eqb (s_id r) i
                   then mk_sessions_row (s_id r) n (s_created_at r) ua cp st et stat
                   else r) (sessions t))
           (logs t) (log_groups t)) c
  | DELETE_FROM_logs_WHERE_session_id i =>
      done (count_where (fun r => String.eqb (l_session_id r) i) (logs t))
        (mkTables (sessions t)
           (filter (fun r => negb (String.eqb (l_session_id r) i)) (logs t))
           (log_groups t)) c
  | DELETE_FROM_log_groups_WHERE_session_id i =>
      done (count_where (fun r => String.eqb (g_session_id r) i) (log_groups t))
        (mkTables (sessions t) (logs t)
           (filter (fun r => negb (String.eqb (g_session_id r) i))
              (log_groups t))) c
  | DELETE_FROM_sessions_WHERE_id i =>
      if has_id s_id i (sessions t) && negb (no_child c i) then Err fk_failed
      else done (count_where (fun r => String.eqb (s_id r) i) (sessions t))
             (mkTables
                (filter (fun r => negb (String.eqb (s_id r) i)) (sessions t))
                (logs t) (log_groups t)) c
  | INSERT_INTO_logs i sid content ts svc lvl gid =>
      if has_id l_id i (logs t) then Err (unique_failed "logs.id")
      else if negb (parent_ok c sid) then Err fk_failed
      else done 1 (mkTables (sessions t)
                     (logs t ++ [mk_logs_row i sid content ts svc lvl gid])
                     (log_groups t)) c
  | INSERT_INTO_log_groups i sid n d rc sf stat =>
      if has_id g_id i (log_groups t) then Err (unique_failed "log_groups.id")
      else if negb (parent_ok c sid) then Err fk_failed
      else done 1 (mkTables (sessions t) (logs t)
                     (log_groups t ++ [mk_log_groups_row i sid n d rc sf stat])) c
  | UPDATE_log_groups n d rc sf stat i =>
      done (count_where (fun r => String.eqb (g_id r) i) (log_groups t))
        (mkTables (sessions t) (logs t)
           (map (fun r =>
                   if String.eqb (g_id r) i
                   then mk_log_groups_row (g_id r) (g_session_id r) n d rc sf stat
                   else r) (log_groups t))) c
  | UPDATE_logs_SET_group_id gid i =>
      done (count_where (fun r => String.eqb (l_id r) i) (logs t))
        (mkTables (sessions t)
           (map (fun r =>
                   if String.eqb (l_id r) i
                   then mk_logs_row (l_id r) (l_session_id r) (l_log_content r)
                          (l_timestamp r) (l_service r) (l_log_level r) (Some gid)
                   else r) (logs t))
           (log_groups t)) c
  end.

(** ORDER BY: a stable sort of the scanned rows, [le a b] meaning that [a]
    may come before [b]. *)
Fixpoint insert_by {R} (le : R -> R -> bool) (x : R) (l : list R) : list R :=
  match l with
  | [] => [x]
  | y :: l' => if le x y then x :: l else y :: insert_by le x l'
  end.

Definition order_by {R} (le : R -> R -> bool) (l : list R) : list R :=
  fold_right (insert_by le) [] l.

End Sqlite.

(** The SELECT statements the program passes to [get] and [all]. *)
Module Select.
Import Sqlite.

(** [FROM sessions WHERE id = ?] *)
Definition sessions_WHERE_id (i : string) (t : Tables) : list sessions_row :=
  filter (fun r => String.eqb (s_id r) i) (sessions t).

(** [FROM sessions ORDER BY updated_at DESC] *)
Definition sessions_ORDER_BY_updated_at_DESC (t : Tables) : list sessions_row :=
  order_by (fun a b => s_updated_at b <=? s_updated_at a) (sessions t).

(** [FROM logs WHERE session_id = ? ORDER BY timestamp ASC] *)
Definition logs_WHERE_session_id (i : string) (t : Tables) : list logs_row :=
  order_by (fun a b => l_timestamp a <=? l_timestamp b)
    (filter (fun r => String.eqb (l_session_id r) i) (logs t)).

(** [FROM log_groups WHERE id = ?] *)
Definition log_groups_WHERE_id (i : string) (t : Tables) : list log_groups_row :=
  filter (fun r => String.eqb (g_id r) i) (log_groups t).

(** [FROM log_groups WHERE session_id = ? ORDER BY name ASC]; TEXT is
    compared byte by byte (the BINARY collation). *)
Definition log_groups_WHERE_session_id (i : string) (t : Tables)
  : list log_groups_row :=
  order_by (fun a b => String.leb (g_name a) (g_name b))
    (filter (fun r => String.eqb (g_session_id r) i) (log_groups t)).

(** [FROM logs WHERE group_id = ? ORDER BY timestamp ASC] *)
Definition logs_WHERE_group_id (i : string) (t : Tables) : list logs_row :=
  order_by (fun a b => l_timestamp a <=? l_timestamp b)
    (filter (fun r => opt_eqb (l_group_id r) i) (logs t)).

End Select.

(** ** [class Database] ([database.ts]) *)

Module Database.

(** [private db: sqlite3.Database | null] *)
Record t : Type := mk { db : option Sqlite.Connection }.

(** The constructor leaves [db = null]. *)
Definition new : t := mk None.

Definition not_initialized : Error := JsError "Database not initialized".

(** [initialize()]: opens the file at [dbPath], whose rows are [file] (no
    rows for a file that did not exist); CREATE TABLE IF NOT EXISTS keeps
    the rows that are there. *)
Definition initialize (file : Sqlite.Tables) (fk : bool) : M t unit :=
  fun _ => (Ok tt, mk (Some (Sqlite.open file fk))).

Definition run (sql : Sqlite.stmt) : M t Sqlite.RunResult :=
  fun d =>
    match db d with
    | None => (Err not_initialized, d)
    | Some c =>
        match Sqlite.run sql c with
        | Ok (r, c') => (Ok r, mk (Some c'))
        | Err e => (Err e, d)
        end
    end.

(** [get]: the first row of the result, or [undefined]. *)
Definition get {R} (sql : Sqlite.Tables -> list R) : M t (option R) :=
  fun d =>
    match db d with
    | None => (Err not_initialized, d)
    | Some c => (Ok (hd_error (sql (Sqlite.tables c))), d)
    end.

Definition all {R} (sql : Sqlite.Tables -> list R) : M t (list R) :=
  fun d =>
    match db d with
    | None => (Err not_initialized, d)
    | Some c => (Ok (sql (Sqlite.tables c)), d)
    end.

(** [close()]; [err] is what the engine passes to the callback of its own
    [close]. *)
Definition close (err : option Error) : M t unit :=
  fun d =>
    match db d with
    | None => (Ok tt, d)
    | Some _ =>
        match err with
        | Some e => (Err e, d)
        | None => (Ok tt, mk None)
        end
    end.

End Database.

(** ** Objects held by the caller

    [updateSession] assigns to a field of the object it is given and returns
    that same object, so its argument is a reference into the caller's
    objects. [setCurrentSession] and [getCurrentSession] hand out the very
    object [this.currentSession] points to: [held] is the reference under
    which the caller keeps that object, if the caller has it. The manager's
    [currentSession] field below is the content of that object. *)
Module Heap.
Definition ref : Type := nat.
Record t : Type := mk {
  cells : ref -> option Session.t;
  held : option ref
}.

Definition empty : t := mk (fun _ => None) None.
Definition get (r : ref) (h : t) : option Session.t := cells h r.
Definition set (r : ref) (s : Session.t) (h : t) : t :=
  mk (fun r' => if Nat.eqb r' r then Some s else cells h r') (held h).

(** The caller keeps under [r] the object that [getCurrentSession] or
    [setCurrentSession] returned, whose content is [s]. *)
Definition hold (r : ref) (s : Session.t) (h : t) : t :=
  mk (fun r' => if Nat.eqb r' r then Some s else cells h r') (Some r).

(** [r] is the object [this.currentSession] points to. *)
Definition is_held (r : ref) (h : t) : bool :=
  match held h with
  | Some r' => Nat.eqb r' r
  | None => false
  end.
End Heap.

(** ** [class StorageManager] ([storageManager.ts]) *)

Module StorageManager.
Import Sqlite.

Record t : Type := mk {
  db : Database.t;
  currentSession : option Session.t
}.

Definition new : t := mk Database.new None.

Definition this_db {A} (c : M Database.t A) : M t A :=
  on_field db (fun d m => mk d (currentSession m)) c.

(** The column aliases of the SELECT lists ([created_at as createdAt], ...)
    followed by the cast [row as Session]. *)
Definition as_Session (r : sessions_row) : Session.t :=
  Session.mk (s_id r) (s_name r) (s_created_at r) (s_updated_at r)
    (s_cloud_provider r) (s_start_time r) (s_end_time r) (s_status r).

Definition as_Log (r : logs_row) : Log.t :=
  Log.mk (l_id r) (l_session_id r) (l_log_content r) (l_timestamp r)
    (of_column (l_service r)) (of_column (l_log_level r))
    (of_column (l_group_id r)).

Definition as_LogGroup (r : log_groups_row) : LogGroup.t :=
  LogGroup.mk (g_id r) (g_session_id r) (g_name r)
    (of_column (g_description r)) (of_column (g_root_cause r))
    (of_column (g_suggested_fix r)) (g_status r).

Definition getCurrentSession (m : t) : option Session.t := currentSession m.

Definition initialize (file : Tables) (fk : bool) : M t unit :=
  this_db (Database.initialize file fk).

Definition createSession (now : Z) (uuid : string)
    (name cloudProvider : string) (startTime endTime : Z) : M t Session.t :=
  let session :=
    Session.mk uuid name now now cloudProvider startTime endTime "new" in
  await this_db (Database.run
    (INSERT_INTO_sessions (Session.id session) (Session.name session)
       (Session.createdAt session) (Session.updatedAt session)
       (Session.cloudProvider session) (Session.startTime session)
       (Session.endTime session) (Session.status session))) ;;
  ret session.

Definition getSession (id : string) : M t (option Session.t) :=
  row <- this_db (Database.get (Select.sessions_WHERE_id id)) ;;
  ret (option_map as_Session row).

Definition getAllSessions : M t (list Session.t) :=
  rows <- this_db (Database.all Select.sessions_ORDER_BY_updated_at_DESC) ;;
  ret (map as_Session rows).

(** [if (session) { this.currentSession = session; return session; }
    return null;] *)
Definition setCurrentSession (sessionId : string) : M t (option Session.t) :=
  session <- getSession sessionId ;;
  match session with
  | Some s => fun m => (Ok (Some s), mk (db m) (Some s))
  | None => ret None
  end.

Definition type_error : Error :=
  JsError "Cannot set properties of undefined (setting 'updatedAt')".

(** What a write of [s'] to the caller's object [session] does to the
    manager: when the object is the one [this.currentSession] points to, the
    manager sees the write; otherwise it sees nothing. *)
Definition through_pointer (session : Heap.ref) (h : Heap.t) (s' : Session.t)
    (m : t) : t :=
  if Heap.is_held session h then mk (db m) (Some s') else m.

(** [session.updatedAt = Date.now()] on the caller's object. *)
Definition refresh_updatedAt (now : Z) (session : Heap.ref)
  : M (Heap.t * t) Session.t :=
  fun w =>
    match Heap.get session (fst w) with
    | None => (Err type_error, w)
    | Some s =>
        let s' := Session.mk (Session.id s) (Session.name s)
                    (Session.createdAt s) now (Session.cloudProvider s)
                    (Session.startTime s) (Session.endTime s)
                    (Session.status s) in
        (Ok s',
         (Heap.set session s' (fst w),
          through_pointer session (fst w) s' (snd w)))
    end.

Definition this {A} (c : M t A) : M (Heap.t * t) A :=
  on_field snd (fun m w => (fst w, m)) c.

Definition updateSession (now : Z) (session : Heap.ref)
  : M (Heap.t * t) Heap.ref :=
  s <- refresh_updatedAt now session ;;
  await this (this_db (Database.run
    (UPDATE_sessions (Session.name s) (Session.updatedAt s)
       (Session.cloudProvider s) (Session.startTime s) (Session.endTime s)
       (Session.status s) (Session.id s)))) ;;
  ret session.

(** The body of [deleteSession], with [run] standing for [this.db.run]. *)
Definition deleteSession_on {S} (run : stmt -> M S RunResult) (id : string)
  : M S unit :=
  await run (DELETE_FROM_logs_WHERE_session_id id) ;;
  await run (DELETE_FROM_log_groups_WHERE_session_id id) ;;
  await run (DELETE_FROM_sessions_WHERE_id id) ;;
  ret tt.

Definition deleteSession (id : string) : M t unit :=
  deleteSession_on (fun sql => this_db (Database.run sql)) id.

Definition saveLogs (logs : list Log.t) : M t unit :=
  await this_db (Database.run BEGIN_TRANSACTION) ;;
  try_catch
    (await for_of logs (fun log =>
       await this_db (Database.run
         (INSERT_INTO_logs (Log.id log) (Log.sessionId log)
            (Log.logContent log) (Log.timestamp log)
            (or_null (Log.service log)) (or_null (Log.logLevel log))
            (or_null (Log.groupId log)))) ;;
       ret tt) ;;
     await this_db (Database.run COMMIT) ;;
     ret tt)
    (fun error =>
       await this_db (Database.run ROLLBACK) ;;
       throw error).

Definition getSessionLogs (sessionId : string) : M t (list Log.t) :=
  rows <- this_db (Database.all (Select.logs_WHERE_session_id sessionId)) ;;
  ret (map as_Log rows).

Definition createLogGroup (uuid : string) (sessionId name : string)
    (description : Optional) : M t LogGroup.t :=
  let logGroup :=
    LogGroup.mk uuid sessionId name description undefined undefined "new" in
  await this_db (Database.run
    (INSERT_INTO_log_groups (LogGroup.id logGroup) (LogGroup.sessionId logGroup)
       (LogGroup.name logGroup) (or_null (LogGroup.description logGroup))
       (or_null (LogGroup.rootCause logGroup))
       (or_null (LogGroup.suggestedFix logGroup))
       (LogGroup.status logGroup))) ;;
  ret logGroup.

Definition getLogGroup (id : string) : M t (option LogGroup.t) :=
  row <- this_db (Database.get (Select.log_groups_WHERE_id id)) ;;
  ret (option_map as_LogGroup row).

Definition getSessionLogGroups (sessionId : string) : M t (list LogGroup.t) :=
  rows <- this_db (Database.all (Select.log_groups_WHERE_session_id sessionId)) ;;
  ret (map as_LogGroup rows).

Definition updateLogGroup (logGroup : LogGroup.t) : M t LogGroup.t :=
  await this_db (Database.run
    (UPDATE_log_groups (LogGroup.name logGroup)
       (or_null (LogGroup.description logGroup))
       (or_null (LogGroup.rootCause logGroup))
       (or_null (LogGroup.suggestedFix logGroup))
       (LogGroup.status logGroup) (LogGroup.id logGroup))) ;;
  ret logGroup.

Definition assignLogsToGroup (groupId : string) (logIds : list string)
  : M t unit :=
  await this_db (Database.run BEGIN_TRANSACTION) ;;
  try_catch
    (await for_of logIds (fun logId =>
       await this_db (Database.run (UPDATE_logs_SET_group_id groupId logId)) ;;
       ret tt) ;;
     await this_db (Database.run COMMIT) ;;
     ret tt)
    (fun error =>
       await this_db (Database.run ROLLBACK) ;;
       throw error).

Definition getGroupLogs (groupId : string) : M t (list Log.t) :=
  rows <- this_db (Database.all (Select.logs_WHERE_group_id groupId)) ;;
  ret (map as_Log rows).

Definition close (err : option Error) : M t unit :=
  this_db (Database.close err).

End StorageManager.

(** ** Vocabulary of the statements below *)

Import Sqlite.

(** The connection a manager holds, if its store is open. *)
Definition conn (m : StorageManager.t) : option Connection :=
  Database.db (StorageManager.db m).

(** The manager [m] with its connection replaced by [c]. *)
Definition with_conn (c : Connection) (m : StorageManager.t) : StorageManager.t :=
  StorageManager.mk (Database.mk (Some c)) (StorageManager.currentSession m).

(** [this.db.run], with every statement it is given noted down in the order
    of the calls. *)
Definition recorded_run (sql : stmt)
  : M (list stmt * StorageManager.t) RunResult :=
  fun w =>
    let (r, m') := StorageManager.this_db (Database.run sql) (snd w) in
    (r, ((fst w ++ [sql])%list, m')).

(** PRIMARY KEY on the [id] column of each table. *)
Definition keys_unique (t : Tables) : Prop :=
  NoDup (map s_id (sessions t))
  /\ NoDup (map l_id (logs t))
  /\ NoDup (map g_id (log_groups t)).

Definition wf_conn (c : Connection) : Prop :=
  keys_unique (tables c)
  /\ match txn c with Some saved => keys_unique saved | None => True end.

(** The row [saveLogs] binds for one log. *)
Definition row_of_Log (log : Log.t) : logs_row :=
  mk_logs_row (Log.id log) (Log.sessionId log) (Log.logContent log)
    (Log.timestamp log) (or_null (Log.service log)) (or_null (Log.logLevel log))
    (or_null (Log.groupId log)).

Definition insert_of_Log (log : Log.t) : stmt :=
  INSERT_INTO_logs (Log.id log) (Log.sessionId log) (Log.logContent log)
    (Log.timestamp log) (or_null (Log.service log)) (or_null (Log.logLevel log))
    (or_null (Log.groupId log)).

(** The connection inside [saveLogs] after BEGIN and the inserts of [done]. *)
Definition in_batch (c : Connection) (done : list Log.t) : Connection :=
  mkConnection
    (mkTables (sessions (tables c))
       (logs (tables c) ++ map row_of_Log done)
       (log_groups (tables c)))
    (Some (tables c)) (foreign_keys c).

(** The loop of [saveLogs]. *)
Definition insert_each (logs : list Log.t) : M StorageManager.t unit :=
  for_of logs
    (fun log =>
       await StorageManager.this_db
               (Database.run
                  (INSERT_INTO_logs (Log.id log) (Log.sessionId log)
                     (Log.logContent log) (Log.timestamp log)
                     (or_null (Log.service log)) (or_null (Log.logLevel log))
                     (or_null (Log.groupId log)))) ;;
       ret tt).

(** [UPDATE logs SET group_id = ?] on one row. *)
Definition set_group_id (gid : string) (r : logs_row) : logs_row :=
  mk_logs_row (l_id r) (l_session_id r) (l_log_content r) (l_timestamp r)
    (l_service r) (l_log_level r) (Some gid).

(** The logs table after every id of [ids] was assigned to [gid]. *)
Definition assigned (gid : string) (ids : list string) (rows : list logs_row)
  : list logs_row :=
  map (fun r => if existsb (String.eqb (l_id r)) ids then set_group_id gid r else r)
    rows.

(** How often a log with identifier [i] occurs in a result. *)
Definition occurrences (i : string) (result : list Log.t) : nat :=
  length (filter (fun l => String.eqb (Log.id l) i) result).

(** A [Session] object with its [updatedAt] replaced. *)
Definition with_updatedAt (now : Z) (s : Session.t) : Session.t :=
  Session.mk (Session.id s) (Session.name s) (Session.createdAt s) now
    (Session.cloudProvider s) (Session.startTime s) (Session.endTime s)
    (Session.status s).

(** What [UPDATE sessions ... WHERE id = ?] does to one row. *)
Definition update_session_row (s : Session.t) (r : sessions_row) : sessions_row :=
  if String.eqb (s_id r) (Session.id s)
  then mk_sessions_row (s_id r) (Session.name s) (s_created_at r)
         (Session.updatedAt s) (Session.cloudProvider s) (Session.startTime s)
         (Session.endTime s) (Session.status s)
  else r.

(** What holds of the connection of every manager between two calls: the
    keys are unique and no transaction is left open. *)
Definition consistent (m : StorageManager.t) : Prop :=
  forall c, conn m = Some c -> wf_conn c /\ txn c = None.

(** [c] run on a manager keeps [P]. *)
Definition preserves {A} (P : StorageManager.t -> Prop)
    (c : M StorageManager.t A) : Prop :=
  forall m, P m -> P (snd (c m)).

(** [P] holds of the connection, if there is one. *)
Definition on_conn (P : Connection -> Prop) (m : StorageManager.t) : Prop :=
  forall c, conn m = Some c -> P c.

(** The statements other than BEGIN, COMMIT and ROLLBACK. *)
Definition is_dml (q : stmt) : bool :=
  match q with
  | BEGIN_TRANSACTION | COMMIT | ROLLBACK => false
  | _ => true
  end.

(** The managers a program can reach through the public methods, starting
    from the constructor; a file that is opened holds rows with unique keys. *)
Inductive reachable : StorageManager.t -> Prop :=
| reach_new : reachable StorageManager.new
| reach_initialize file fk m :
    reachable m -> keys_unique file ->
    reachable (snd (StorageManager.initialize file fk m))
| reach_close err m :
    reachable m -> reachable (snd (StorageManager.close err m))
| reach_setCurrentSession i m :
    reachable m -> reachable (snd (StorageManager.setCurrentSession i m))
| reach_createSession now uuid n p st et m :
    reachable m ->
    reachable (snd (StorageManager.createSession now uuid n p st et m))
| reach_updateSession now r h m :
    reachable m ->
    reachable (snd (snd (StorageManager.updateSession now r (h, m))))
| reach_deleteSession i m :
    reachable m -> reachable (snd (StorageManager.deleteSession i m))
| reach_saveLogs logs m :
    reachable m -> reachable (snd (StorageManager.saveLogs logs m))
| reach_createLogGroup uuid i n d m :
    reachable m -> reachable (snd (StorageManager.createLogGroup uuid i n d m))
| reach_updateLogGroup g m :
    reachable m -> reachable (snd (StorageManager.updateLogGroup g m))
| reach_assignLogsToGroup g ids m :
    reachable m -> reachable (snd (StorageManager.assignLogsToGroup g ids m)).

(** *** A small run, used to instantiate the statements *)

Module Demo.
Import StorageManager.

Definition opened : t := snd (initialize Sqlite.empty false new).

Definition outage : t :=
  snd (createSession 1000 "s-1" "Outage-42" "aws" 0 1000 opened).



Definition L1 : Log.t :=
  Log.mk "L1" "s-1" "Error in service A" 20 (text "ServiceA") (text "error")
    undefined.
Definition L2 : Log.t :=
  Log.mk "L2" "s-1" "Warning in service B" 10 (text "ServiceB") (text "warn")
    undefined.

Definition with_logs : t := snd (saveLogs [L1; L2] outage).

Definition with_groups : t :=
  snd (createLogGroup "g-B" "s-1" "Service B" undefined
         (snd (createLogGroup "g-A" "s-1" "Service A errors" undefined
                 with_logs))).

Definition grouped : t := snd (assignLogsToGroup "g-A" ["L1"] with_groups).

Definition L3 : Log.t :=
  Log.mk "L3" "s-1" "Timeout in service C" 30 undefined (text "error")
    undefined.

(** The caller's copy of the session, edited and about to be written back. *)
Definition edited : Session.t :=
  Session.mk "s-1" "Outage-42" 1000 1000 "aws" 0 1000 "in_progress".

Definition caller_heap : Heap.t := Heap.set 0%nat edited Heap.empty.

(** A session object and a log group that were never stored. *)
Definition stranger : Session.t :=
  Session.mk "s-9" "Elsewhere" 1 1 "gcp" 0 1 "new".

Definition stranger_heap : Heap.t := Heap.set 0%nat stranger Heap.empty.

(** The caller selected [stranger] earlier and still holds that object. *)
Definition holding_stranger : Heap.t := Heap.hold 0%nat stranger Heap.empty.

Definition stray_group : LogGroup.t :=
  LogGroup.mk "g-9" "s-1" "Stray" undefined (text "cause") undefined
    "analyzed".

(** [stranger] was created, selected and then deleted: the manager still
    points to it. *)
Definition stale : t :=
  snd (deleteSession "s-9"
         (snd (setCurrentSession "s-9"
                 (snd (createSession 1 "s-9" "Elsewhere" "gcp" 0 1 grouped))))).

Definition the_conn (m : t) : Connection :=
  match conn m with
  | Some c => c
  | None => Sqlite.open Sqlite.empty false
  end.

End Demo.

(** ** [utils/helpers.ts] *)

Module Helpers.

Definition possible : string :=
  "ABCDEFGHIJKLMNOPQRSTUVWXYZabcdefghijklmnopqrstuvwxyz0123456789".

(** [s.charAt(k)]: the character at [k], or the empty string out of range. *)
Definition charAt (s : string) (k : nat) : string :=
  match String.get k s with
  | Some ch => String ch EmptyString
  | None => EmptyString
  end.

(** [getNonce()]; [random_index i] is the value of
    [Math.floor(Math.random() * possible.length)] in iteration [i]. *)
Definition getNonce (random_index : nat -> nat) : string :=
  fold_left (fun text i => text ++ charAt possible (random_index i))
    (seq 0 32) "".

(** Letters and digits. *)
Definition alphanumeric (ch : ascii) : bool :=
  let n := nat_of_ascii ch in
  ((65 <=? n) && (n <=? 90) || (97 <=? n) && (n <=? 122)
   || (48 <=? n) && (n <=? 57))%nat.

Fixpoint all_chars (p : ascii -> bool) (s : string) : bool :=
  match s with
  | EmptyString => true
  | String ch rest => p ch && all_chars p rest
  end.

End Helpers.

(** ** [extension.ts]: mock logs and shutdown *)

Module Extension.

(** What the random sources return in iteration [i] of the loop of
    [generateMockLogs]: [Math.random() < 0.3], the two
    [Math.floor(Math.random() * 4)] indices, the
    [Math.floor(Math.random() * 86400000)] offset, and [uuidv4()]. *)
Record Random : Type := mkRandom {
  isError : nat -> bool;
  levelIndex : nat -> nat;
  serviceIndex : nat -> nat;
  offset : nat -> Z;
  uuid : nat -> string
}.

Definition services : list string := ["lambda"; "api-gateway"; "dynamodb"; "s3"].
Definition logLevels : list string := ["INFO"; "WARN"; "ERROR"; "DEBUG"].

(** What an array read [xs[i]] gives as a field value: the element, or
    [undefined] past the end. *)
Definition element (v : option string) : Optional :=
  match v with
  | Some s => text s
  | None => undefined
  end.

(** [logLevel === x] on a value that may be undefined. *)
Definition is_level (x : string) (logLevel : option string) : bool :=
  match logLevel with
  | Some s => String.eqb s x
  | None => false
  end.

(** A value interpolated into a template string. *)
Definition interpolate (v : option string) : string :=
  match v with
  | Some s => s
  | None => "undefined"
  end.

(** The body of the loop: the log pushed in iteration [i], or nothing when
    the iteration ends at [continue]. *)
Definition mockLog (rnd : Random) (now : Z) (sessionId : string)
    (errorLogsOnly : bool) (i : nat) : option Log.t :=
  let logLevel :=
    if isError rnd i then Some "ERROR"
    else nth_error logLevels (levelIndex rnd i) in
  if errorLogsOnly && negb (is_level "ERROR" logLevel) then None
  else
    let service := nth_error services (serviceIndex rnd i) in
    let timestamp := now - offset rnd i in
    let logContent :=
      if is_level "ERROR" logLevel then
        "[" ++ interpolate logLevel
        ++ "] Error processing request: Connection timeout or resource not found"
      else if is_level "WARN" logLevel then
        "[" ++ interpolate logLevel
        ++ "] Slow response time detected for request"
      else
        "[" ++ interpolate logLevel ++ "] Request processed successfully" in
    Some (Log.mk (uuid rnd i) sessionId logContent timestamp (element service)
            (element logLevel) undefined).

(** [generateMockLogs(sessionId, errorLogsOnly)], with [now] the reading of
    [Date.now()]; [logs.sort] is stable. *)
Definition generateMockLogs (rnd : Random) (now : Z) (sessionId : string)
    (errorLogsOnly : bool) : list Log.t :=
  let logs :=
    fold_left
      (fun (logs : list Log.t) i =>
         match mockLog rnd now sessionId errorLogsOnly i with
         | Some log => (logs ++ [log])%list
         | None => logs
         end)
      (seq 0 20) [] in
  Sqlite.order_by (fun a b => Log.timestamp a <=? Log.timestamp b) logs.

(** The module-level [storageManager] and what was written to the console. *)
Inductive ConsoleLine : Type :=
| console_log (message : string)
| console_error (message : string) (error : Error).

Record Globals : Type := mkGlobals {
  storageManager : option StorageManager.t;
  console : list ConsoleLine
}.

Definition write (line : ConsoleLine) : M Globals unit :=
  fun g => (Ok tt, mkGlobals (storageManager g) (console g ++ [line])).

(** A method of the manager held in [storageManager]. *)
Definition on_storageManager {A} (m : StorageManager.t)
    (c : M StorageManager.t A) : M Globals A :=
  fun g => let (r, m') := c m in (r, mkGlobals (Some m') (console g)).

(** [deactivate()]; [err] is what the engine reports when asked to close. *)
Definition deactivate (err : option Error) : M Globals unit :=
  fun g =>
    match storageManager g with
    | Some m =>
        try_catch
          (await on_storageManager m (StorageManager.close err) ;;
           write (console_log "Storage manager closed successfully"))
          (fun error =>
             write (console_error "Error closing storage manager:" error)) g
    | None => (Ok tt, g)
    end.

End Extension.

(** ** [ui/webviewProvider.ts]: what the view is built from *)

Module Webview.

(** The values [_getHtmlForWebview] reads before it fills the template. *)
Record ViewData : Type := mkViewData {
  currentSession : option Session.t;
  sessions : list Session.t;
  logGroups : list LogGroup.t;
  logs : list Log.t
}.

Definition loadViewData : M StorageManager.t ViewData :=
  fun this =>
    let currentSession := StorageManager.getCurrentSession this in
    (sessions <- StorageManager.getAllSessions ;;
     match currentSession with
     | Some s =>
         logGroups <- StorageManager.getSessionLogGroups (Session.id s) ;;
         logs <- StorageManager.getSessionLogs (Session.id s) ;;
         ret (mkViewData currentSession sessions logGroups logs)
     | None => ret (mkViewData currentSession sessions [] [])
     end) this.

(** [logs.slice(0, 10)], the logs listed under "Recent Logs". *)
Definition shownLogs (logs : list Log.t) : list Log.t := firstn 10 logs.

(** [logs.length > 10 ? logs.length - 10 : nothing], the "+ n more logs"
    line. *)
Definition moreLogs (logs : list Log.t) : option nat :=
  if (10 <? length logs)%nat then Some (length logs - 10)%nat else None.

End Webview.

(** *** More vocabulary *)

(** What the engine requires of a batch given to [saveLogs]: identifiers
    distinct within the batch and not stored yet, and, with foreign keys
    enforced, sessions that exist. *)
Definition accepted (c : Connection) (batch : list Log.t) : Prop :=
  NoDup (map Log.id batch)
  /\ forall l, In l batch ->
       has_id l_id (Log.id l) (Sqlite.logs (tables c)) = false
       /\ parent_ok c (Log.sessionId l) = true.

(** An optional field that is read back as it was written: [null] or a
    non-empty string. *)
Definition reads_back_same (x : Optional) : bool :=
  match x with
  | null => true
  | text (String _ _) => true
  | text EmptyString | undefined => false
  end.

(** A log with its group left out. *)
Definition ungrouped (l : Log.t) : Log.t :=
  Log.mk (Log.id l) (Log.sessionId l) (Log.logContent l) (Log.timestamp l)
    (Log.service l) (Log.logLevel l) undefined.

(** ** Basic facts: the monad, [run] through the manager *)

Lemma with_conn_same (m : StorageManager.t) (c : Connection) :
  conn m = Some c -> with_conn c m = m.
Proof.
  destruct m as [[d] cur]; unfold conn, with_conn; simpl.
  intros ->; reflexivity.
Qed.

Lemma conn_with_conn (m : StorageManager.t) (c : Connection) :
  conn (with_conn c m) = Some c.
Proof. reflexivity. Qed.

Lemma with_conn_twice (m : StorageManager.t) (c c' : Connection) :
  with_conn c' (with_conn c m) = with_conn c' m.
Proof. reflexivity. Qed.

Lemma this_db_run_ok (q : stmt) (m : StorageManager.t) (c c' : Connection)
    (r : RunResult) :
  conn m = Some c -> Sqlite.run q c = Ok (r, c') ->
  StorageManager.this_db (Database.run q) m = (Ok r, with_conn c' m).
Proof.
  unfold conn, StorageManager.this_db, on_field, Database.run.
  intros Hc Hrun; rewrite Hc, Hrun; reflexivity.
Qed.

Lemma this_db_run_err (q : stmt) (m : StorageManager.t) (c : Connection)
    (e : Error) :
  conn m = Some c -> Sqlite.run q c = Err e ->
  StorageManager.this_db (Database.run q) m = (Err e, m).
Proof.
  unfold conn, StorageManager.this_db, on_field, Database.run.
  intros Hc Hrun; rewrite Hc, Hrun.
  destruct m as [d cur]; reflexivity.
Qed.

Lemma this_db_run_closed (q : stmt) (m : StorageManager.t) :
  conn m = None ->
  StorageManager.this_db (Database.run q) m = (Err Database.not_initialized, m).
Proof.
  unfold conn, StorageManager.this_db, on_field, Database.run.
  intros Hc; rewrite Hc. destruct m as [d cur]; reflexivity.
Qed.

Lemma this_db_get_open {R} (sql : Tables -> list R) (m : StorageManager.t)
    (c : Connection) :
  conn m = Some c ->
  StorageManager.this_db (Database.get sql) m = (Ok (hd_error (sql (tables c))), m).
Proof.
  unfold conn, StorageManager.this_db, on_field, Database.get.
  intros Hc; rewrite Hc. destruct m as [d cur]; reflexivity.
Qed.

Lemma this_db_get_closed {R} (sql : Tables -> list R) (m : StorageManager.t) :
  conn m = None ->
  StorageManager.this_db (Database.get sql) m = (Err Database.not_initialized, m).
Proof.
  unfold conn, StorageManager.this_db, on_field, Database.get.
  intros Hc; rewrite Hc. destruct m as [d cur]; reflexivity.
Qed.

Lemma this_db_all_open {R} (sql : Tables -> list R) (m : StorageManager.t)
    (c : Connection) :
  conn m = Some c ->
  StorageManager.this_db (Database.all sql) m = (Ok (sql (tables c)), m).
Proof.
  unfold conn, StorageManager.this_db, on_field, Database.all.
  intros Hc; rewrite Hc. destruct m as [d cur]; reflexivity.
Qed.

Lemma this_db_all_closed {R} (sql : Tables -> list R) (m : StorageManager.t) :
  conn m = None ->
  StorageManager.this_db (Database.all sql) m = (Err Database.not_initialized, m).
Proof.
  unfold conn, StorageManager.this_db, on_field, Database.all.
  intros Hc; rewrite Hc. destruct m as [d cur]; reflexivity.
Qed.

Lemma heap_get_set (r : Heap.ref) (s : Session.t) (h : Heap.t) :
  Heap.get r (Heap.set r s h) = Some s.
Proof. unfold Heap.get, Heap.set; simpl. rewrite Nat.eqb_refl. reflexivity. Qed.

Lemma heap_get_set_other (r r' : Heap.ref) (s : Session.t) (h : Heap.t) :
  r' <> r -> Heap.get r' (Heap.set r s h) = Heap.get r' h.
Proof.
  intros Hr. unfold Heap.get, Heap.set; simpl.
  apply Nat.eqb_neq in Hr. rewrite Hr. reflexivity.
Qed.

Lemma conn_through_pointer (r : Heap.ref) (h : Heap.t) (s : Session.t)
    (m : StorageManager.t) :
  conn (StorageManager.through_pointer r h s m) = conn m.
Proof.
  unfold StorageManager.through_pointer. destruct (Heap.is_held r h); reflexivity.
Qed.

Lemma bind_ok {S A B} (c : M S A) (k : A -> M S B) (s s' : S) (a : A) :
  c s = (Ok a, s') -> bind c k s = k a s'.
Proof. unfold bind; intros ->; reflexivity. Qed.

Lemma bind_err {S A B} (c : M S A) (k : A -> M S B) (s s' : S) (e : Error) :
  c s = (Err e, s') -> bind c k s = (Err e, s').
Proof. unfold bind; intros ->; reflexivity. Qed.

(** The read methods, on an open and on a closed store. *)

Lemma getSession_open (i : string) (m : StorageManager.t) (c : Connection) :
  conn m = Some c ->
  StorageManager.getSession i m =
    (Ok (option_map StorageManager.as_Session
           (hd_error (Select.sessions_WHERE_id i (tables c)))), m).
Proof.
  intros Hc. unfold StorageManager.getSession.
  erewrite bind_ok by (apply this_db_get_open; eassumption). reflexivity.
Qed.

Lemma getLogGroup_open (i : string) (m : StorageManager.t) (c : Connection) :
  conn m = Some c ->
  StorageManager.getLogGroup i m =
    (Ok (option_map StorageManager.as_LogGroup
           (hd_error (Select.log_groups_WHERE_id i (tables c)))), m).
Proof.
  intros Hc. unfold StorageManager.getLogGroup.
  erewrite bind_ok by (apply this_db_get_open; eassumption). reflexivity.
Qed.

Lemma getAllSessions_open (m : StorageManager.t) (c : Connection) :
  conn m = Some c ->
  StorageManager.getAllSessions m =
    (Ok (map StorageManager.as_Session
           (Select.sessions_ORDER_BY_updated_at_DESC (tables c))), m).
Proof.
  intros Hc. unfold StorageManager.getAllSessions.
  erewrite bind_ok by (apply this_db_all_open; eassumption). reflexivity.
Qed.

Lemma getSessionLogs_open (i : string) (m : StorageManager.t) (c : Connection) :
  conn m = Some c ->
  StorageManager.getSessionLogs i m =
    (Ok (map StorageManager.as_Log (Select.logs_WHERE_session_id i (tables c))), m).
Proof.
  intros Hc. unfold StorageManager.getSessionLogs.
  erewrite bind_ok by (apply this_db_all_open; eassumption). reflexivity.
Qed.

Lemma getSessionLogGroups_open (i : string) (m : StorageManager.t)
    (c : Connection) :
  conn m = Some c ->
  StorageManager.getSessionLogGroups i m =
    (Ok (map StorageManager.as_LogGroup
           (Select.log_groups_WHERE_session_id i (tables c))), m).
Proof.
  intros Hc. unfold StorageManager.getSessionLogGroups.
  erewrite bind_ok by (apply this_db_all_open; eassumption). reflexivity.
Qed.

Lemma getGroupLogs_open (g : string) (m : StorageManager.t) (c : Connection) :
  conn m = Some c ->
  StorageManager.getGroupLogs g m =
    (Ok (map StorageManager.as_Log (Select.logs_WHERE_group_id g (tables c))), m).
Proof.
  intros Hc. unfold StorageManager.getGroupLogs.
  erewrite bind_ok by (apply this_db_all_open; eassumption). reflexivity.
Qed.

(** ** ORDER BY *)

Section OrderBy.
Context {R : Type}.
Variable le : R -> R -> bool.

Lemma insert_by_perm (x : R) (l : list R) :
  Permutation (insert_by le x l) (x :: l).
Proof.
  induction l as [|y l IH]; simpl.
  - apply Permutation_refl.
  - destruct (le x y).
    + apply Permutation_refl.
    + eapply perm_trans; [apply perm_skip, IH | apply perm_swap].
Qed.

Lemma order_by_perm (l : list R) : Permutation (order_by le l) l.
Proof.
  induction l as [|x l IH]; simpl.
  - constructor.
  - eapply perm_trans; [apply insert_by_perm | apply perm_skip, IH].
Qed.

Lemma order_by_In (x : R) (l : list R) : In x (order_by le l) <-> In x l.
Proof.
  split; apply Permutation_in;
    [apply order_by_perm | apply Permutation_sym, order_by_perm].
Qed.

Lemma order_by_nil : order_by le [] = [].
Proof. reflexivity. Qed.

Hypothesis le_total : forall a b, le a b = true \/ le b a = true.
Hypothesis le_trans : forall a b c, le a b = true -> le b c = true -> le a c = true.

Lemma insert_by_sorted (x : R) (l : list R) :
  StronglySorted (fun a b => le a b = true) l ->
  StronglySorted (fun a b => le a b = true) (insert_by le x l).
Proof.
  induction 1 as [|y l Hl IH Hy]; simpl.
  - constructor; constructor.
  - destruct (le x y) eqn:Hxy.
    + constructor.
      * constructor; assumption.
      * constructor; [assumption|].
        eapply Forall_impl; [|exact Hy]. intros z Hz. eauto.
    + constructor; [assumption|].
      eapply Permutation_Forall;
        [apply Permutation_sym, insert_by_perm|].
      constructor; [|assumption].
      destruct (le_total x y) as [H|H]; congruence.
Qed.

Lemma order_by_sorted (l : list R) :
  StronglySorted (fun a b => le a b = true) (order_by le l).
Proof.
  induction l as [|x l IH]; simpl.
  - constructor.
  - apply insert_by_sorted, IH.
Qed.

End OrderBy.

Lemma StronglySorted_map {A B} (f : A -> B) (P : B -> B -> Prop) (l : list A) :
  StronglySorted (fun a b => P (f a) (f b)) l -> StronglySorted P (map f l).
Proof.
  induction 1 as [|x l Hl IH Hx]; simpl; constructor; auto.
  rewrite Forall_forall in *. intros y Hy.
  apply in_map_iff in Hy as (a & <- & Ha). auto.
Qed.

Lemma StronglySorted_weaken {A} (P Q : A -> A -> Prop) (l : list A) :
  (forall a b, P a b -> Q a b) -> StronglySorted P l -> StronglySorted Q l.
Proof.
  intros HPQ. induction 1 as [|x l Hl IH Hx]; constructor; auto.
  eapply Forall_impl; [|exact Hx]. auto.
Qed.

(** The byte-wise order on TEXT is transitive. *)
Lemma string_compare_trans (a b c : string) :
  String.compare a b <> Gt -> String.compare b c <> Gt ->
  String.compare a c <> Gt.
Proof.
  revert b c; induction a as [|x a IH]; intros [|y b] [|z c]; simpl;
    try congruence.
  unfold Ascii.compare.
  destruct (N.compare_spec (N_of_ascii x) (N_of_ascii y)) as [Hxy|Hxy|Hxy];
    try congruence;
    destruct (N.compare_spec (N_of_ascii y) (N_of_ascii z)) as [Hyz|Hyz|Hyz];
    try congruence; intros H1 H2.
  - rewrite Hxy, Hyz, N.compare_refl. eauto.
  - rewrite Hxy. apply N.compare_lt_iff in Hyz. rewrite Hyz. discriminate.
  - rewrite <- Hyz. apply N.compare_lt_iff in Hxy. rewrite Hxy. discriminate.
  - assert (H : (N_of_ascii x < N_of_ascii z)%N) by (eapply N.lt_trans; eauto).
    apply N.compare_lt_iff in H. rewrite H. discriminate.
Qed.

Lemma string_leb_trans (a b c : string) :
  String.leb a b = true -> String.leb b c = true -> String.leb a c = true.
Proof.
  unfold String.leb. intros H1 H2.
  assert (H : String.compare a c <> Gt).
  { apply string_compare_trans with b.
    - destruct (String.compare a b); congruence.
    - destruct (String.compare b c); congruence. }
  destruct (String.compare a c); congruence.
Qed.

(** ** Ordered reads *)

(** C7. On an open store, [getAllSessions] returns every stored session, most
    recently updated first; [getSessionLogs] returns the logs of the session
    by ascending timestamp; [getSessionLogGroups] returns the groups of the
    session by ascending name. Each result is the stored rows (of that
    session) rearranged, none lost or added. *)
Theorem query_results_ordered (m : StorageManager.t) (c : Connection)
    (sessionId : string) :
  conn m = Some c ->
  (exists all,
      StorageManager.getAllSessions m = (Ok all, m)
      /\ StronglySorted
           (fun a b => Session.updatedAt b <= Session.updatedAt a) all
      /\ Permutation all (map StorageManager.as_Session (sessions (tables c))))
  /\ (exists ls,
      StorageManager.getSessionLogs sessionId m = (Ok ls, m)
      /\ StronglySorted (fun a b => Log.timestamp a <= Log.timestamp b) ls
      /\ Permutation ls
           (map StorageManager.as_Log
              (filter (fun r => String.eqb (l_session_id r) sessionId)
                 (logs (tables c)))))
  /\ (exists gs,
      StorageManager.getSessionLogGroups sessionId m = (Ok gs, m)
      /\ StronglySorted
           (fun a b => String.leb (LogGroup.name a) (LogGroup.name b) = true) gs
      /\ Permutation gs
           (map StorageManager.as_LogGroup
              (filter (fun r => String.eqb (g_session_id r) sessionId)
                 (log_groups (tables c))))).
Proof.
  intros Hc. repeat split.
  - eexists; split; [apply getAllSessions_open, Hc|]. split.
    + apply StronglySorted_map. simpl.
      eapply StronglySorted_weaken;
        [|apply order_by_sorted
            with (le := fun a b => s_updated_at b <=? s_updated_at a)].
      * intros a b H. apply Z.leb_le, H.
      * intros a b. rewrite !Z.leb_le. lia.
      * intros a b d. rewrite !Z.leb_le. lia.
    + apply Permutation_map, order_by_perm.
  - eexists; split; [apply getSessionLogs_open, Hc|]. split.
    + apply StronglySorted_map. simpl.
      eapply StronglySorted_weaken;
        [|apply order_by_sorted
            with (le := fun a b => l_timestamp a <=? l_timestamp b)].
      * intros a b H. apply Z.leb_le, H.
      * intros a b. rewrite !Z.leb_le. lia.
      * intros a b d. rewrite !Z.leb_le. lia.
    + apply Permutation_map, order_by_perm.
  - eexists; split; [apply getSessionLogGroups_open, Hc|]. split.
    + apply StronglySorted_map. simpl.
      apply order_by_sorted
        with (le := fun a b => String.leb (g_name a) (g_name b)).
      * intros a b. apply String.leb_total.
      * intros a b d. apply string_leb_trans.
    + apply Permutation_map, order_by_perm.
Qed.

Lemma query_results_ordered_witness :
  conn Demo.with_groups = Some (Demo.the_conn Demo.with_groups)
  /\ StorageManager.getSessionLogs "s-1" Demo.with_groups
     = (Ok [StorageManager.as_Log (row_of_Log Demo.L2);
            StorageManager.as_Log (row_of_Log Demo.L1)], Demo.with_groups)
  /\ exists ls,
      StorageManager.getSessionLogs "s-1" Demo.with_groups
      = (Ok ls, Demo.with_groups)
      /\ StronglySorted (fun a b => Log.timestamp a <= Log.timestamp b) ls.
Proof.
  split; [reflexivity|]. split; [reflexivity|].
  destruct (@query_results_ordered Demo.with_groups
              (Demo.the_conn Demo.with_groups) "s-1" eq_refl)
    as (_ & (ls & Hls & Hsorted & _) & _).
  exists ls. split; assumption.
Defined.

(** ** The current session *)

Lemma setCurrentSession_found_or_not (i : string) (m : StorageManager.t) :
  StorageManager.setCurrentSession i m = (Ok None, m)
  \/ (exists s,
        StorageManager.setCurrentSession i m
        = (Ok (Some s), StorageManager.mk (StorageManager.db m) (Some s)))
  \/ StorageManager.setCurrentSession i m = (Err Database.not_initialized, m).
Proof.
  unfold StorageManager.setCurrentSession.
  destruct (conn m) as [c|] eqn:Hc.
  - erewrite bind_ok by (apply getSession_open, Hc).
    destruct (hd_error (Select.sessions_WHERE_id i (tables c))); simpl;
      [right; left; eexists|left]; reflexivity.
  - right; right. erewrite bind_err; [reflexivity|].
    unfold StorageManager.getSession.
    erewrite bind_err by (apply this_db_get_closed, Hc). reflexivity.
Qed.

Lemma filter_all_false {R} (p : R -> bool) (rows : list R) :
  (forall z, In z rows -> p z = false) -> filter p rows = [].
Proof.
  induction rows as [|y rows IH]; simpl; intros H; [reflexivity|].
  rewrite (H y (or_introl eq_refl)). apply IH. intros z Hz. apply H. right. exact Hz.
Qed.

Lemma filter_unique_key {R} (key : R -> string) (rows : list R) (x : R) :
  NoDup (map key rows) -> In x rows ->
  filter (fun r => String.eqb (key r) (key x)) rows = [x].
Proof.
  induction rows as [|y rows IH]; simpl; intros Hnd Hin; [contradiction|].
  inversion Hnd as [|? ? Hnotin Hnd']; subst.
  destruct Hin as [->|Hin].
  - rewrite String.eqb_refl. f_equal.
    apply filter_all_false. intros z Hz.
    destruct (String.eqb (key z) (key x)) eqn:E; [|reflexivity].
    apply String.eqb_eq in E. exfalso. apply Hnotin.
    rewrite <- E. apply in_map, Hz.
  - destruct (String.eqb (key y) (key x)) eqn:E.
    + apply String.eqb_eq in E. exfalso. apply Hnotin.
      rewrite E. apply in_map, Hin.
    + apply IH; assumption.
Qed.

(** C6. [setCurrentSession] looks the session up in the store. On an open
    store whose session identifiers are distinct, when a session row with the
    identifier is stored, [getSession] finds it, the pointer is replaced by it
    and it is returned. When no stored session has the identifier, the result
    is null and the manager is left as it was, so [getCurrentSession] returns
    what it returned before. When the store is not open the lookup throws,
    the error is passed on and the manager is again unchanged.
    [getCurrentSession] reads the pointer only: its result does not depend on
    the store the manager holds, and it has no state to change. *)
Theorem setCurrentSession_spec (sessionId : string) (m : StorageManager.t) :
  (forall c row,
      conn m = Some c ->
      NoDup (map s_id (sessions (tables c))) ->
      In row (sessions (tables c)) -> s_id row = sessionId ->
      StorageManager.getSession sessionId m
      = (Ok (Some (StorageManager.as_Session row)), m)
      /\ StorageManager.setCurrentSession sessionId m
         = (Ok (Some (StorageManager.as_Session row)),
            StorageManager.mk (StorageManager.db m)
              (Some (StorageManager.as_Session row)))
      /\ StorageManager.getCurrentSession
           (snd (StorageManager.setCurrentSession sessionId m))
         = Some (StorageManager.as_Session row))
  /\ (forall c,
        conn m = Some c ->
        has_id s_id sessionId (sessions (tables c)) = false ->
        StorageManager.getSession sessionId m = (Ok None, m)
        /\ StorageManager.setCurrentSession sessionId m = (Ok None, m)
        /\ StorageManager.getCurrentSession
             (snd (StorageManager.setCurrentSession sessionId m))
           = StorageManager.getCurrentSession m)
  /\ (conn m = None ->
      StorageManager.getSession sessionId m = (Err Database.not_initialized, m)
      /\ StorageManager.setCurrentSession sessionId m
         = (Err Database.not_initialized, m))
  /\ (forall d : Database.t,
         StorageManager.getCurrentSession
           (StorageManager.mk d (StorageManager.currentSession m))
         = StorageManager.getCurrentSession m).
Proof.
  split; [|split; [|split; [|reflexivity]]].
  - intros c row Hc Hnd Hrow Hid.
    assert (Hget : StorageManager.getSession sessionId m
                   = (Ok (Some (StorageManager.as_Session row)), m)).
    { rewrite (getSession_open sessionId _ Hc).
      unfold Select.sessions_WHERE_id. rewrite <- Hid.
      rewrite (filter_unique_key s_id _ _ Hnd Hrow). reflexivity. }
    split; [exact Hget|].
    unfold StorageManager.setCurrentSession.
    erewrite bind_ok by exact Hget. split; reflexivity.
  - intros c Hc Habsent.
    assert (Hget : StorageManager.getSession sessionId m = (Ok None, m)).
    { rewrite (getSession_open sessionId _ Hc).
      unfold Select.sessions_WHERE_id.
      rewrite filter_all_false; [reflexivity|].
      intros z Hz.
      destruct (String.eqb (s_id z) sessionId) eqn:E; [|reflexivity].
      exfalso. unfold has_id in Habsent.
      assert (Hex : existsb (fun r => String.eqb (s_id r) sessionId)
                      (sessions (tables c)) = true)
        by (apply existsb_exists; exists z; split; assumption).
      congruence. }
    split; [exact Hget|].
    unfold StorageManager.setCurrentSession.
    erewrite bind_ok by exact Hget. split; reflexivity.
  - intros Hc.
    assert (Hget : StorageManager.getSession sessionId m
                   = (Err Database.not_initialized, m)).
    { unfold StorageManager.getSession.
      erewrite bind_err by (apply this_db_get_closed, Hc). reflexivity. }
    split; [exact Hget|].
    unfold StorageManager.setCurrentSession.
    erewrite bind_err by exact Hget. reflexivity.
Qed.

Lemma setCurrentSession_spec_witness :
  conn Demo.grouped = Some (Demo.the_conn Demo.grouped)
  /\ NoDup (map s_id (sessions (tables (Demo.the_conn Demo.grouped))))
  /\ In (mk_sessions_row "s-1" "Outage-42" 1000 1000 "aws" 0 1000 "new")
       (sessions (tables (Demo.the_conn Demo.grouped)))
  /\ StorageManager.getCurrentSession Demo.grouped = None
  /\ StorageManager.setCurrentSession "s-1" Demo.grouped
     = (Ok (Some (Session.mk "s-1" "Outage-42" 1000 1000 "aws" 0 1000 "new")),
        StorageManager.mk (StorageManager.db Demo.grouped)
          (Some (Session.mk "s-1" "Outage-42" 1000 1000 "aws" 0 1000 "new")))
  /\ StorageManager.setCurrentSession "unknown" Demo.grouped
     = (Ok None, Demo.grouped).
Proof.
  assert (Hnd : NoDup (map s_id (sessions (tables (Demo.the_conn Demo.grouped)))))
    by (simpl; repeat constructor; simpl; tauto).
  split; [reflexivity|]. split; [exact Hnd|].
  split; [left; reflexivity|]. split; [reflexivity|].
  destruct (@setCurrentSession_spec "s-1" Demo.grouped) as (Hfound & _).
  destruct (@setCurrentSession_spec "unknown" Demo.grouped) as (_ & Hmissing & _).
  split.
  - apply (Hfound (Demo.the_conn Demo.grouped)
             (mk_sessions_row "s-1" "Outage-42" 1000 1000 "aws" 0 1000 "new")
             eq_refl Hnd (or_introl eq_refl) eq_refl).
  - apply (Hmissing (Demo.the_conn Demo.grouped) eq_refl eq_refl).
Defined.

(** The failed switch of the spec, run: with session s-1 selected, asking for
    an unknown identifier returns null and s-1 stays selected. *)
Example failed_switch_keeps_selection :
  let m1 := snd (StorageManager.setCurrentSession "s-1" Demo.outage) in
  option_map Session.id (StorageManager.getCurrentSession m1) = Some "s-1"
  /\ StorageManager.setCurrentSession "unknown" m1 = (Ok None, m1)
  /\ StorageManager.getCurrentSession
       (snd (StorageManager.setCurrentSession "unknown" m1))
     = StorageManager.getCurrentSession m1.
Proof. repeat split. Qed.

(** ** A store that is not open *)

Lemma close_ok_closed (err : option Error) (m0 m : StorageManager.t) :
  StorageManager.close err m0 = (Ok tt, m) -> conn m = None.
Proof.
  unfold StorageManager.close, StorageManager.this_db, on_field, Database.close,
    conn.
  destruct m0 as [[[c|]] cur]; simpl.
  - destruct err; intros H; inversion H; reflexivity.
  - intros H; inversion H; reflexivity.
Qed.

Ltac fails_closed Hc :=
  repeat first
    [ reflexivity
    | erewrite bind_err by (first [ apply this_db_run_closed, Hc
                                  | apply this_db_get_closed, Hc
                                  | apply this_db_all_closed, Hc ]) ].

(** C8. On a manager whose [Database] was never initialized, or whose
    [close()] has resolved, [run], [get] and [all] throw "Database not
    initialized", and so does every method of the manager that reaches the
    database; the store stays closed. *)
Theorem closed_store_not_initialized (err : option Error)
    (m0 m : StorageManager.t) :
  m = StorageManager.new \/ StorageManager.close err m0 = (Ok tt, m) ->
  let d := StorageManager.db m in
  let failed {A} : result A * StorageManager.t :=
    (Err Database.not_initialized, m) in
  Database.db d = None
  /\ (forall sql, Database.run sql d = (Err Database.not_initialized, d))
  /\ (forall R (sql : Tables -> list R),
         Database.get sql d = (Err Database.not_initialized, d))
  /\ (forall R (sql : Tables -> list R),
         Database.all sql d = (Err Database.not_initialized, d))
  /\ (forall now uuid name provider startTime endTime,
         StorageManager.createSession now uuid name provider startTime endTime m
         = failed)
  /\ (forall i, StorageManager.getSession i m = failed)
  /\ StorageManager.getAllSessions m = failed
  /\ (forall now r h s,
         Heap.get r h = Some s ->
         StorageManager.updateSession now r (h, m)
         = (Err Database.not_initialized,
            (Heap.set r (with_updatedAt now s) h,
             StorageManager.through_pointer r h (with_updatedAt now s) m)))
  /\ (forall i, StorageManager.deleteSession i m = failed)
  /\ (forall logs, StorageManager.saveLogs logs m = failed)
  /\ (forall i, StorageManager.getSessionLogs i m = failed)
  /\ (forall uuid i name description,
         StorageManager.createLogGroup uuid i name description m = failed)
  /\ (forall i, StorageManager.getLogGroup i m = failed)
  /\ (forall i, StorageManager.getSessionLogGroups i m = failed)
  /\ (forall g, StorageManager.updateLogGroup g m = failed)
  /\ (forall g ids, StorageManager.assignLogsToGroup g ids m = failed)
  /\ (forall g, StorageManager.getGroupLogs g m = failed)
  /\ (forall i, StorageManager.setCurrentSession i m = failed).
Proof.
  intros Hm d failed.
  assert (Hc : conn m = None).
  { destruct Hm as [->|Hm]; [reflexivity | eapply close_ok_closed, Hm]. }
  assert (Hd : Database.db d = None) by exact Hc.
  subst failed.
  split; [exact Hd|].
  split; [intros; unfold Database.run; rewrite Hd; reflexivity|].
  split; [intros; unfold Database.get; rewrite Hd; reflexivity|].
  split; [intros; unfold Database.all; rewrite Hd; reflexivity|].
  repeat match goal with |- _ /\ _ => split end; intros.
  - unfold StorageManager.createSession. fails_closed Hc.
  - unfold StorageManager.getSession. fails_closed Hc.
  - unfold StorageManager.getAllSessions. fails_closed Hc.
  - unfold StorageManager.updateSession, StorageManager.refresh_updatedAt,
      StorageManager.this, on_field, bind. simpl.
    rewrite H.
    rewrite this_db_run_closed
      by (cbn [snd]; rewrite conn_through_pointer; exact Hc).
    reflexivity.
  - unfold StorageManager.deleteSession, StorageManager.deleteSession_on.
    fails_closed Hc.
  - unfold StorageManager.saveLogs. fails_closed Hc.
  - unfold StorageManager.getSessionLogs. fails_closed Hc.
  - unfold StorageManager.createLogGroup. fails_closed Hc.
  - unfold StorageManager.getLogGroup. fails_closed Hc.
  - unfold StorageManager.getSessionLogGroups. fails_closed Hc.
  - unfold StorageManager.updateLogGroup. fails_closed Hc.
  - unfold StorageManager.assignLogsToGroup. fails_closed Hc.
  - unfold StorageManager.getGroupLogs. fails_closed Hc.
  - unfold StorageManager.setCurrentSession.
    erewrite bind_err; [reflexivity|].
    unfold StorageManager.getSession. fails_closed Hc.
Qed.

Lemma closed_store_not_initialized_witness :
  StorageManager.close None Demo.grouped
  = (Ok tt, StorageManager.mk Database.new None)
  /\ StorageManager.saveLogs [Demo.L1] (StorageManager.mk Database.new None)
     = (Err Database.not_initialized, StorageManager.mk Database.new None)
  /\ StorageManager.getSession "s-1" (StorageManager.mk Database.new None)
     = (Err Database.not_initialized, StorageManager.mk Database.new None).
Proof.
  split; [reflexivity|].
  pose proof (@closed_store_not_initialized None Demo.grouped
                (StorageManager.mk Database.new None) (or_intror eq_refl)) as H.
  simpl in H. split; apply H.
Defined.

(** ** Rows and filters *)

Lemma filter_none {A} (p : A -> bool) (l : list A) :
  filter p (filter (fun r => negb (p r)) l) = [].
Proof.
  induction l as [|x l IH]; simpl; [reflexivity|].
  destruct (p x) eqn:Hp; simpl; [|rewrite Hp]; exact IH.
Qed.

Lemma existsb_none {A} (p : A -> bool) (l : list A) :
  existsb p (filter (fun r => negb (p r)) l) = false.
Proof.
  induction l as [|x l IH]; simpl; [reflexivity|].
  destruct (p x) eqn:Hp; simpl; [|rewrite Hp]; exact IH.
Qed.

Lemma filter_absent {A} (p : A -> bool) (l : list A) :
  existsb p l = false -> filter p l = [].
Proof.
  induction l as [|x l IH]; simpl; [reflexivity|].
  destruct (p x); simpl; [discriminate | exact IH].
Qed.

Lemma hd_error_map {A B} (f : A -> B) (l : list A) :
  hd_error (map f l) = option_map f (hd_error l).
Proof. destruct l; reflexivity. Qed.

Lemma with_tables_same (c : Connection) : with_tables (tables c) c = c.
Proof. destruct c; reflexivity. Qed.

Lemma Tables_eta (t : Tables) : mkTables (sessions t) (logs t) (log_groups t) = t.
Proof. destruct t; reflexivity. Qed.

(** ** Deleting a session *)

Lemma recorded_run_ok (q : stmt) (issued : list stmt) (m : StorageManager.t)
    (c c' : Connection) (r : RunResult) :
  conn m = Some c -> Sqlite.run q c = Ok (r, c') ->
  recorded_run q (issued, m) = (Ok r, ((issued ++ [q])%list, with_conn c' m)).
Proof.
  intros Hc Hrun. unfold recorded_run; simpl.
  rewrite (this_db_run_ok q m Hc Hrun). reflexivity.
Qed.

(** C2. On an open store the statements [deleteSession id] hands to
    [this.db.run] are, in the order of the calls, the DELETE of the logs of
    the session, the DELETE of its log groups and the DELETE of the session
    row, and nothing else; each succeeds. After the first the groups and
    sessions are untouched, after the second the sessions are. Afterwards
    [getSessionLogs id] and [getSessionLogGroups id] return the empty list and
    [getSession id] returns undefined. *)
Theorem deleteSession_cascade (id : string) (m : StorageManager.t)
    (c : Connection) :
  conn m = Some c ->
  exists (r1 r2 r3 : RunResult) (c1 c2 c3 : Connection),
    (forall issued,
        StorageManager.deleteSession_on recorded_run id (issued, m)
        = (Ok tt,
           ((issued ++ [DELETE_FROM_logs_WHERE_session_id id;
                        DELETE_FROM_log_groups_WHERE_session_id id;
                        DELETE_FROM_sessions_WHERE_id id])%list,
            with_conn c3 m)))
    /\ Sqlite.run (DELETE_FROM_logs_WHERE_session_id id) c = Ok (r1, c1)
    /\ sessions (tables c1) = sessions (tables c)
    /\ log_groups (tables c1) = log_groups (tables c)
    /\ Select.logs_WHERE_session_id id (tables c1) = []
    /\ Sqlite.run (DELETE_FROM_log_groups_WHERE_session_id id) c1 = Ok (r2, c2)
    /\ sessions (tables c2) = sessions (tables c)
    /\ Select.log_groups_WHERE_session_id id (tables c2) = []
    /\ Sqlite.run (DELETE_FROM_sessions_WHERE_id id) c2 = Ok (r3, c3)
    /\ StorageManager.deleteSession id m = (Ok tt, with_conn c3 m)
    /\ StorageManager.getSessionLogs id (with_conn c3 m) = (Ok [], with_conn c3 m)
    /\ StorageManager.getSessionLogGroups id (with_conn c3 m)
       = (Ok [], with_conn c3 m)
    /\ StorageManager.getSession id (with_conn c3 m) = (Ok None, with_conn c3 m).
Proof.
  intros Hc.
  set (t := tables c).
  set (logs1 := filter (fun r => negb (String.eqb (l_session_id r) id)) (logs t)).
  set (groups2 :=
         filter (fun r => negb (String.eqb (g_session_id r) id)) (log_groups t)).
  set (sessions3 := filter (fun r => negb (String.eqb (s_id r) id)) (sessions t)).
  set (c1 := with_tables (mkTables (sessions t) logs1 (log_groups t)) c).
  set (c2 := with_tables (mkTables (sessions t) logs1 groups2) c).
  set (c3 := with_tables (mkTables sessions3 logs1 groups2) c).
  assert (H1 : Sqlite.run (DELETE_FROM_logs_WHERE_session_id id) c
               = Ok (mkRunResult
                       (count_where (fun r => String.eqb (l_session_id r) id)
                          (logs t)), c1)) by reflexivity.
  assert (H2 : Sqlite.run (DELETE_FROM_log_groups_WHERE_session_id id) c1
               = Ok (mkRunResult
                       (count_where (fun r => String.eqb (g_session_id r) id)
                          (log_groups t)), c2)) by reflexivity.
  assert (Hchild : no_child c2 id = true).
  { unfold no_child, c2; simpl. unfold logs1, groups2.
    rewrite (existsb_none (fun r => String.eqb (l_session_id r) id)).
    rewrite (existsb_none (fun r => String.eqb (g_session_id r) id)).
    apply orb_true_r. }
  assert (H3 : Sqlite.run (DELETE_FROM_sessions_WHERE_id id) c2
               = Ok (mkRunResult
                       (count_where (fun r => String.eqb (s_id r) id)
                          (sessions t)), c3)).
  { unfold Sqlite.run. rewrite Hchild, andb_false_r. reflexivity. }
  do 3 eexists. exists c1, c2, c3.
  split.
  { intros issued. unfold StorageManager.deleteSession_on.
    erewrite bind_ok by (eapply recorded_run_ok; [exact Hc | exact H1]).
    erewrite bind_ok
      by (eapply recorded_run_ok; [apply conn_with_conn | exact H2]).
    erewrite bind_ok
      by (eapply recorded_run_ok; [apply conn_with_conn | exact H3]).
    unfold ret. rewrite <- !app_assoc. reflexivity. }
  split; [exact H1|]. split; [reflexivity|]. split; [reflexivity|].
  split.
  { unfold Select.logs_WHERE_session_id, c1; simpl. unfold logs1.
    rewrite (filter_none (fun r => String.eqb (l_session_id r) id)).
    reflexivity. }
  split; [exact H2|]. split; [reflexivity|].
  split.
  { unfold Select.log_groups_WHERE_session_id, c2; simpl. unfold groups2.
    rewrite (filter_none (fun r => String.eqb (g_session_id r) id)).
    reflexivity. }
  split; [exact H3|].
  split.
  { unfold StorageManager.deleteSession, StorageManager.deleteSession_on.
    erewrite bind_ok by (eapply this_db_run_ok; [exact Hc | exact H1]).
    erewrite bind_ok
      by (eapply this_db_run_ok; [apply conn_with_conn | exact H2]).
    erewrite bind_ok
      by (eapply this_db_run_ok; [apply conn_with_conn | exact H3]).
    reflexivity. }
  split.
  { rewrite (@getSessionLogs_open id _ c3) by apply conn_with_conn.
    unfold Select.logs_WHERE_session_id, c3; simpl. unfold logs1.
    rewrite (filter_none (fun r => String.eqb (l_session_id r) id)).
    reflexivity. }
  split.
  { rewrite (@getSessionLogGroups_open id _ c3) by apply conn_with_conn.
    unfold Select.log_groups_WHERE_session_id, c3; simpl. unfold groups2.
    rewrite (filter_none (fun r => String.eqb (g_session_id r) id)).
    reflexivity. }
  rewrite (@getSession_open id _ c3) by apply conn_with_conn.
  unfold Select.sessions_WHERE_id, c3; simpl. unfold sessions3.
  rewrite (filter_none (fun r => String.eqb (s_id r) id)).
  reflexivity.
Qed.

Lemma deleteSession_cascade_witness :
  conn Demo.grouped = Some (Demo.the_conn Demo.grouped)
  /\ fst (StorageManager.getSessionLogs "s-1" Demo.grouped)
     = Ok [StorageManager.as_Log (row_of_Log Demo.L2);
           StorageManager.as_Log (set_group_id "g-A" (row_of_Log Demo.L1))]
  /\ exists m',
      StorageManager.deleteSession_on recorded_run "s-1" ([], Demo.grouped)
      = (Ok tt,
         ([DELETE_FROM_logs_WHERE_session_id "s-1";
           DELETE_FROM_log_groups_WHERE_session_id "s-1";
           DELETE_FROM_sessions_WHERE_id "s-1"], m'))
      /\ StorageManager.deleteSession "s-1" Demo.grouped = (Ok tt, m')
      /\ StorageManager.getSessionLogs "s-1" m' = (Ok [], m')
      /\ StorageManager.getSessionLogGroups "s-1" m' = (Ok [], m')
      /\ StorageManager.getSession "s-1" m' = (Ok None, m').
Proof.
  split; [reflexivity|]. split; [reflexivity|].
  destruct (@deleteSession_cascade "s-1" Demo.grouped
              (Demo.the_conn Demo.grouped) eq_refl)
    as (r1 & r2 & r3 & c1 & c2 & c3 & Htrace & H).
  exists (with_conn c3 Demo.grouped).
  split; [apply (Htrace [])|]. repeat split; apply H.
Defined.

(** With foreign keys enforced, the order matters: deleting the session row
    first is refused while a log still refers to it. *)
Example session_first_is_refused :
  let c := Demo.the_conn Demo.grouped in
  Sqlite.run (DELETE_FROM_sessions_WHERE_id "s-1")
    (mkConnection (tables c) None true)
  = Err fk_failed.
Proof. reflexivity. Qed.

(** ** Creating a session *)




(** ** Updating in place *)

Lemma map_unchanged {A} (f : A -> A) (l : list A) :
  (forall x, In x l -> f x = x) -> map f l = l.
Proof.
  induction l as [|x l IH]; simpl; intros H; [reflexivity|].
  rewrite H by (left; reflexivity). f_equal. apply IH. auto.
Qed.

Lemma has_id_false {R} (key : R -> string) (i : string) (rows : list R) (r : R) :
  has_id key i rows = false -> In r rows -> String.eqb (key r) i = false.
Proof.
  unfold has_id. intros H Hin.
  destruct (String.eqb (key r) i) eqn:E; [|reflexivity].
  rewrite <- H. symmetry. apply existsb_exists. exists r. auto.
Qed.

Lemma filter_map_commute {A} (p : A -> bool) (f : A -> A) (l : list A) :
  (forall x, p (f x) = p x) -> filter p (map f l) = map f (filter p l).
Proof.
  intros Hp. induction l as [|x l IH]; simpl; [reflexivity|].
  rewrite Hp. destruct (p x); simpl; rewrite IH; reflexivity.
Qed.

Lemma hd_error_filter {A} (p : A -> bool) (l : list A) (x : A) :
  hd_error (filter p l) = Some x -> p x = true.
Proof.
  intros H. assert (Hin : In x (filter p l)).
  { destruct (filter p l); inversion H; left; reflexivity. }
  apply filter_In in Hin. apply Hin.
Qed.

Lemma update_session_row_id (s : Session.t) (r : sessions_row) :
  s_id (update_session_row s r) = s_id r.
Proof. unfold update_session_row. destruct (String.eqb _ _); reflexivity. Qed.

Lemma updateSession_open (now : Z) (r : Heap.ref) (h : Heap.t)
    (m : StorageManager.t) (c : Connection) (s : Session.t) :
  conn m = Some c -> Heap.get r h = Some s ->
  StorageManager.updateSession now r (h, m)
  = (Ok r,
     (Heap.set r (with_updatedAt now s) h,
      with_conn
        (with_tables
           (mkTables
              (map (update_session_row (with_updatedAt now s))
                 (sessions (tables c)))
              (logs (tables c)) (log_groups (tables c))) c)
        (StorageManager.through_pointer r h (with_updatedAt now s) m))).
Proof.
  intros Hc Hs.
  unfold StorageManager.updateSession, StorageManager.refresh_updatedAt,
    StorageManager.this, on_field, bind; simpl.
  rewrite Hs.
  erewrite this_db_run_ok;
    [reflexivity
    | cbn [snd]; rewrite conn_through_pointer; exact Hc
    | reflexivity].
Qed.

(** C3, as the code has it. For a stored session, [updateSession] returns the
    object it was given, with [updatedAt] overwritten by the clock reading of
    the call whatever the caller had put there; the stored name, provider,
    time range and status are replaced by the object's, [createdAt] and the
    identifier are kept, other sessions are untouched; the retrieved
    [updatedAt] is that clock reading, so it is later than the stored value
    exactly when the clock reading is. *)
Theorem updateSession_refreshes (now : Z) (r : Heap.ref) (h : Heap.t)
    (m : StorageManager.t) (c : Connection) (s : Session.t)
    (stored : sessions_row) :
  conn m = Some c ->
  Heap.get r h = Some s ->
  hd_error (Select.sessions_WHERE_id (Session.id s) (tables c)) = Some stored ->
  exists (h' : Heap.t) (m' : StorageManager.t) (retrieved : Session.t),
    StorageManager.updateSession now r (h, m) = (Ok r, (h', m'))
    /\ Heap.get r h' = Some (with_updatedAt now s)
    /\ StorageManager.getSession (Session.id s) m' = (Ok (Some retrieved), m')
    /\ retrieved
       = Session.mk (Session.id s) (Session.name s) (s_created_at stored) now
           (Session.cloudProvider s) (Session.startTime s) (Session.endTime s)
           (Session.status s)
    /\ (s_updated_at stored < Session.updatedAt retrieved
        <-> s_updated_at stored < now)
    /\ (forall i, i <> Session.id s ->
          StorageManager.getSession i m'
          = (fst (StorageManager.getSession i m), m')).
Proof.
  intros Hc Hs Hstored.
  do 3 eexists. split; [apply updateSession_open; eassumption|].
  split; [apply heap_get_set|].
  assert (Hid : String.eqb (s_id stored) (Session.id s) = true)
    by (apply (hd_error_filter _ _ Hstored)).
  split; [|split; [reflexivity|split; [reflexivity|]]].
  - erewrite getSession_open by apply conn_with_conn.
    unfold Select.sessions_WHERE_id; simpl.
    rewrite filter_map_commute
      by (intros x; rewrite update_session_row_id; reflexivity).
    rewrite hd_error_map. unfold Select.sessions_WHERE_id in Hstored.
    rewrite Hstored; simpl.
    unfold update_session_row, StorageManager.as_Session; simpl.
    rewrite Hid; simpl. apply String.eqb_eq in Hid. rewrite Hid. reflexivity.
  - intros i Hi.
    erewrite getSession_open by apply conn_with_conn.
    erewrite (getSession_open i) by exact Hc.
    unfold Select.sessions_WHERE_id; simpl.
    rewrite filter_map_commute
      by (intros x; rewrite update_session_row_id; reflexivity).
    rewrite map_unchanged; [reflexivity|].
    intros x Hx. apply filter_In in Hx as [_ Hx].
    apply String.eqb_eq in Hx.
    unfold update_session_row; simpl.
    destruct (String.eqb (s_id x) (Session.id s)) eqn:E; [|reflexivity].
    apply String.eqb_eq in E. congruence.
Qed.

Lemma updateSession_refreshes_witness :
  conn Demo.outage = Some (Demo.the_conn Demo.outage)
  /\ Heap.get 0%nat Demo.caller_heap = Some Demo.edited
  /\ exists h' m' retrieved,
      StorageManager.updateSession 1005 0%nat (Demo.caller_heap, Demo.outage)
      = (Ok 0%nat, (h', m'))
      /\ StorageManager.getSession "s-1" m' = (Ok (Some retrieved), m')
      /\ Session.updatedAt retrieved = 1005
      /\ Session.status retrieved = "in_progress".
Proof.
  split; [reflexivity|]. split; [reflexivity|].
  destruct (@updateSession_refreshes 1005 0%nat Demo.caller_heap Demo.outage
              (Demo.the_conn Demo.outage) Demo.edited
              (mk_sessions_row "s-1" "Outage-42" 1000 1000 "aws" 0 1000 "new")
              eq_refl eq_refl eq_refl)
    as (h' & m' & retrieved & Hupd & _ & Hget & Hret & _).
  exists h', m', retrieved. subst retrieved.
  split; [exact Hupd|]. split; [exact Hget|]. split; reflexivity.
Defined.

(** C3 as stated fails: a session created at clock reading 1000 and updated
    while the clock still reads 1000 (the same millisecond) comes back with
    [updatedAt] 1000, which is not greater than the value before the update. *)
Lemma updateSession_same_millisecond :
  StorageManager.getSession "s-1" Demo.outage
  = (Ok (Some (Session.mk "s-1" "Outage-42" 1000 1000 "aws" 0 1000 "new")),
     Demo.outage)
  /\ fst (StorageManager.updateSession 1000 0%nat (Demo.caller_heap, Demo.outage))
     = Ok 0%nat
  /\ Heap.get 0%nat
       (fst (snd (StorageManager.updateSession 1000 0%nat
                    (Demo.caller_heap, Demo.outage))))
     = Some (Session.mk "s-1" "Outage-42" 1000 1000 "aws" 0 1000 "in_progress")
  /\ fst (StorageManager.getSession "s-1"
            (snd (snd (StorageManager.updateSession 1000 0%nat
                         (Demo.caller_heap, Demo.outage)))))
     = Ok (Some (Session.mk "s-1" "Outage-42" 1000 1000 "aws" 0 1000
                   "in_progress"))
  /\ ~ (Session.updatedAt
          (Session.mk "s-1" "Outage-42" 1000 1000 "aws" 0 1000 "new")
        < Session.updatedAt
            (Session.mk "s-1" "Outage-42" 1000 1000 "aws" 0 1000 "in_progress")).
Proof.
  split; [reflexivity|]. split; [reflexivity|]. split; [reflexivity|].
  split; [reflexivity|]. simpl. lia.
Qed.

(** C10. When no stored session has the identifier of the object given to
    [updateSession], the call resolves with that same object, its [updatedAt]
    refreshed and every other object of the caller untouched; the database of
    the manager, with every table, is exactly as before. The manager itself
    is exactly as before unless the object given is the one
    [this.currentSession] points to, in which case [getCurrentSession] shows
    the refreshed object. When no stored log group has the identifier of the
    record given to [updateLogGroup], the call resolves with that record and
    the manager is exactly as before. Both UPDATEs change zero rows. *)
Theorem update_unknown_id_changes_nothing (now : Z) (r : Heap.ref) (h : Heap.t)
    (s : Session.t) (g : LogGroup.t) (m : StorageManager.t) (c : Connection) :
  conn m = Some c ->
  Heap.get r h = Some s ->
  has_id s_id (Session.id s) (sessions (tables c)) = false ->
  has_id g_id (LogGroup.id g) (log_groups (tables c)) = false ->
  (exists h' m',
      StorageManager.updateSession now r (h, m) = (Ok r, (h', m'))
      /\ Heap.get r h' = Some (with_updatedAt now s)
      /\ (forall r', r' <> r -> Heap.get r' h' = Heap.get r' h)
      /\ StorageManager.db m' = StorageManager.db m
      /\ conn m' = Some c
      /\ (Heap.is_held r h = false -> m' = m)
      /\ (Heap.is_held r h = true ->
          StorageManager.getCurrentSession m' = Some (with_updatedAt now s)))
  /\ StorageManager.updateLogGroup g m = (Ok g, m)
  /\ Sqlite.run (UPDATE_sessions (Session.name s) now (Session.cloudProvider s)
                   (Session.startTime s) (Session.endTime s) (Session.status s)
                   (Session.id s)) c
     = Ok (mkRunResult 0, c)
  /\ Sqlite.run (UPDATE_log_groups (LogGroup.name g)
                   (or_null (LogGroup.description g))
                   (or_null (LogGroup.rootCause g))
                   (or_null (LogGroup.suggestedFix g))
                   (LogGroup.status g) (LogGroup.id g)) c
     = Ok (mkRunResult 0, c).
Proof.
  intros Hc Hs Hsid Hgid.
  assert (Hrun_s :
    Sqlite.run (UPDATE_sessions (Session.name s) now (Session.cloudProvider s)
                  (Session.startTime s) (Session.endTime s) (Session.status s)
                  (Session.id s)) c
    = Ok (mkRunResult 0, c)).
  { unfold Sqlite.run, done, count_where.
    rewrite (filter_absent _ _ Hsid).
    rewrite map_unchanged.
    - rewrite Tables_eta, with_tables_same. reflexivity.
    - intros x Hx. rewrite (has_id_false _ _ _ _ Hsid Hx). reflexivity. }
  assert (Hrun_g :
    Sqlite.run (UPDATE_log_groups (LogGroup.name g)
                  (or_null (LogGroup.description g))
                  (or_null (LogGroup.rootCause g))
                  (or_null (LogGroup.suggestedFix g))
                  (LogGroup.status g) (LogGroup.id g)) c
    = Ok (mkRunResult 0, c)).
  { unfold Sqlite.run, done, count_where.
    rewrite (filter_absent _ _ Hgid).
    rewrite map_unchanged.
    - rewrite Tables_eta, with_tables_same. reflexivity.
    - intros x Hx. rewrite (has_id_false _ _ _ _ Hgid Hx). reflexivity. }
  set (m1 := StorageManager.through_pointer r h (with_updatedAt now s) m).
  assert (Hc1 : conn m1 = Some c)
    by (unfold m1; rewrite conn_through_pointer; exact Hc).
  split; [|split; [|split; assumption]].
  - exists (Heap.set r (with_updatedAt now s) h), m1.
    split; [|split; [|split; [|split; [|split; [|split]]]]].
    + unfold StorageManager.updateSession, StorageManager.refresh_updatedAt,
        StorageManager.this, on_field, bind; simpl.
      rewrite Hs. fold (with_updatedAt now s). fold m1.
      erewrite this_db_run_ok; [|exact Hc1|exact Hrun_s].
      rewrite with_conn_same by exact Hc1. reflexivity.
    + apply heap_get_set.
    + intros r' Hr'. apply heap_get_set_other, Hr'.
    + unfold m1, StorageManager.through_pointer.
      destruct (Heap.is_held r h); reflexivity.
    + exact Hc1.
    + intros Hfree. unfold m1, StorageManager.through_pointer.
      rewrite Hfree. reflexivity.
    + intros Hheld. unfold m1, StorageManager.through_pointer.
      rewrite Hheld. reflexivity.
  - unfold StorageManager.updateLogGroup.
    erewrite bind_ok by (eapply this_db_run_ok; [exact Hc | exact Hrun_g]).
    rewrite with_conn_same by exact Hc. reflexivity.
Qed.

Lemma update_unknown_id_changes_nothing_witness :
  conn Demo.stale = Some (Demo.the_conn Demo.stale)
  /\ tables (Demo.the_conn Demo.stale) = tables (Demo.the_conn Demo.grouped)
  /\ StorageManager.getCurrentSession Demo.stale = Some Demo.stranger
  /\ Heap.get 0%nat Demo.holding_stranger = Some Demo.stranger
  /\ has_id s_id "s-9" (sessions (tables (Demo.the_conn Demo.stale))) = false
  /\ has_id g_id "g-9" (log_groups (tables (Demo.the_conn Demo.stale))) = false
  /\ (exists h' m',
        StorageManager.updateSession 2000 0%nat
          (Demo.holding_stranger, Demo.stale)
        = (Ok 0%nat, (h', m'))
        /\ conn m' = conn Demo.stale
        /\ StorageManager.getCurrentSession m'
           = Some (with_updatedAt 2000 Demo.stranger))
  /\ (exists h',
        StorageManager.updateSession 2000 0%nat (Demo.stranger_heap, Demo.stale)
        = (Ok 0%nat, (h', Demo.stale)))
  /\ StorageManager.updateLogGroup Demo.stray_group Demo.stale
     = (Ok Demo.stray_group, Demo.stale).
Proof.
  do 6 (split; [reflexivity|]).
  destruct (@update_unknown_id_changes_nothing 2000 0%nat Demo.holding_stranger
              Demo.stranger Demo.stray_group Demo.stale
              (Demo.the_conn Demo.stale) eq_refl eq_refl eq_refl eq_refl)
    as ((h' & m' & Hupd & _ & _ & _ & Hconn & _ & Hseen) & Hgroup & _).
  destruct (@update_unknown_id_changes_nothing 2000 0%nat Demo.stranger_heap
              Demo.stranger Demo.stray_group Demo.stale
              (Demo.the_conn Demo.stale) eq_refl eq_refl eq_refl eq_refl)
    as ((h2 & m2 & Hupd2 & _ & _ & _ & _ & Hfree & _) & _).
  split; [|split; [|exact Hgroup]].
  - exists h', m'. split; [exact Hupd|]. split; [exact Hconn|].
    apply Hseen. reflexivity.
  - exists h2. rewrite <- (Hfree eq_refl) at 2. exact Hupd2.
Defined.

(** ** Assigning logs to a group *)

Lemma assigned_nil (gid : string) (rows : list logs_row) :
  assigned gid [] rows = rows.
Proof. unfold assigned; simpl. apply map_id. Qed.

Lemma assigned_cons (gid i : string) (ids : list string) (rows : list logs_row) :
  assigned gid ids
    (map (fun r => if String.eqb (l_id r) i then set_group_id gid r else r) rows)
  = assigned gid (i :: ids) rows.
Proof.
  unfold assigned. rewrite map_map. apply map_ext. intros r; simpl.
  destruct (String.eqb (l_id r) i); simpl; [|reflexivity].
  destruct (existsb (String.eqb (l_id r)) ids); reflexivity.
Qed.

Lemma assigned_absent (gid : string) (ids : list string) (rows : list logs_row) :
  (forall i, In i ids -> has_id l_id i rows = false) ->
  assigned gid ids rows = rows.
Proof.
  intros H. unfold assigned. apply map_unchanged. intros r Hr.
  destruct (existsb (String.eqb (l_id r)) ids) eqn:E; [|reflexivity].
  apply existsb_exists in E as (i & Hi & Heq).
  rewrite (has_id_false _ _ _ _ (H i Hi) Hr) in Heq. discriminate.
Qed.

Lemma assign_loop (gid : string) (ids : list string) :
  forall (m : StorageManager.t) (c : Connection),
    conn m = Some c ->
    for_of ids
      (fun logId =>
         await StorageManager.this_db
                 (Database.run (UPDATE_logs_SET_group_id gid logId)) ;;
         ret tt) m
    = (Ok tt,
       with_conn
         (with_tables
            (mkTables (sessions (tables c))
               (assigned gid ids (logs (tables c)))
               (log_groups (tables c))) c) m).
Proof.
  induction ids as [|i ids IH]; intros m c Hc.
  - simpl. rewrite assigned_nil, Tables_eta, with_tables_same.
    rewrite with_conn_same by exact Hc. reflexivity.
  - cbn [for_of].
    erewrite bind_ok.
    2:{ erewrite bind_ok
          by (eapply this_db_run_ok; [exact Hc | reflexivity]).
        reflexivity. }
    erewrite IH by apply conn_with_conn.
    cbn [tables with_tables sessions logs log_groups txn foreign_keys].
    rewrite with_conn_twice.
    change (map _ (logs (tables c)))
      with (map (fun r => if String.eqb (l_id r) i
                          then set_group_id gid r else r) (logs (tables c))).
    rewrite assigned_cons. reflexivity.
Qed.

Lemma assignLogsToGroup_open (gid : string) (ids : list string)
    (m : StorageManager.t) (c : Connection) :
  conn m = Some c -> txn c = None ->
  StorageManager.assignLogsToGroup gid ids m
  = (Ok tt,
     with_conn
       (with_tables
          (mkTables (sessions (tables c))
             (assigned gid ids (logs (tables c)))
             (log_groups (tables c))) c) m).
Proof.
  intros Hc Hidle.
  unfold StorageManager.assignLogsToGroup.
  erewrite bind_ok.
  2:{ eapply this_db_run_ok; [exact Hc|].
      unfold Sqlite.run. rewrite Hidle. reflexivity. }
  unfold try_catch.
  erewrite bind_ok by (apply assign_loop, conn_with_conn).
  erewrite bind_ok by (eapply this_db_run_ok; [apply conn_with_conn | reflexivity]).
  unfold ret, with_tables, with_conn; simpl. rewrite Hidle. reflexivity.
Qed.

(** C9. On an open store with no transaction in progress, [assignLogsToGroup]
    resolves for every group identifier and every list of log identifiers;
    nothing looks the group up. An identifier that no stored log has changes
    zero rows, and if none of the identifiers is stored the store is left
    exactly as it was. Every stored log whose identifier is listed ends with
    [group_id] equal to the given identifier, also when no log group has it. *)
Theorem assignLogsToGroup_validates_nothing (groupId : string)
    (logIds : list string) (m : StorageManager.t) (c : Connection) :
  conn m = Some c -> txn c = None ->
  exists m',
    StorageManager.assignLogsToGroup groupId logIds m = (Ok tt, m')
    /\ conn m'
       = Some (with_tables
                 (mkTables (sessions (tables c))
                    (assigned groupId logIds (logs (tables c)))
                    (log_groups (tables c))) c)
    /\ (forall i,
          has_id l_id i (logs (tables c)) = false ->
          Sqlite.run (UPDATE_logs_SET_group_id groupId i) c
          = Ok (mkRunResult 0, c))
    /\ ((forall i, In i logIds -> has_id l_id i (logs (tables c)) = false) ->
        m' = m)
    /\ (forall r,
          In r (logs (tables c)) -> In (l_id r) logIds ->
          exists c',
            conn m' = Some c'
            /\ In (set_group_id groupId r) (logs (tables c'))
            /\ l_group_id (set_group_id groupId r) = Some groupId
            /\ (has_id g_id groupId (log_groups (tables c)) = false ->
                has_id g_id groupId (log_groups (tables c')) = false)).
Proof.
  intros Hc Hidle.
  eexists. split; [apply assignLogsToGroup_open; eassumption|].
  split; [reflexivity|]. split; [|split].
  - intros i Hi. unfold Sqlite.run, done, count_where.
    rewrite (filter_absent _ _ Hi).
    rewrite map_unchanged.
    + rewrite Tables_eta, with_tables_same. reflexivity.
    + intros x Hx. rewrite (has_id_false _ _ _ _ Hi Hx). reflexivity.
  - intros Habsent.
    rewrite assigned_absent by exact Habsent.
    rewrite Tables_eta, with_tables_same. apply with_conn_same, Hc.
  - intros r Hr Hid. eexists. split; [reflexivity|]. simpl.
    split; [|split; [reflexivity | auto]].
    unfold assigned. apply in_map_iff. exists r. split; [|exact Hr].
    assert (E : existsb (String.eqb (l_id r)) logIds = true).
    { apply existsb_exists. exists (l_id r). split; [exact Hid|].
      apply String.eqb_refl. }
    rewrite E. reflexivity.
Qed.

Lemma assignLogsToGroup_validates_nothing_witness :
  conn Demo.with_logs = Some (Demo.the_conn Demo.with_logs)
  /\ txn (Demo.the_conn Demo.with_logs) = None
  /\ log_groups (tables (Demo.the_conn Demo.with_logs)) = []
  /\ exists m',
      StorageManager.assignLogsToGroup "no-such-group" ["L1"; "no-such-log"]
        Demo.with_logs = (Ok tt, m')
      /\ fst (StorageManager.getGroupLogs "no-such-group" m')
         = Ok [StorageManager.as_Log
                 (set_group_id "no-such-group" (row_of_Log Demo.L1))].
Proof.
  do 3 (split; [reflexivity|]).
  destruct (@assignLogsToGroup_validates_nothing "no-such-group"
              ["L1"; "no-such-log"] Demo.with_logs
              (Demo.the_conn Demo.with_logs) eq_refl eq_refl)
    as (m' & Hrun & _).
  exists m'. split; [exact Hrun|].
  assert (E : m' = snd (StorageManager.assignLogsToGroup "no-such-group"
                          ["L1"; "no-such-log"] Demo.with_logs))
    by (rewrite Hrun; reflexivity).
  rewrite E. reflexivity.
Defined.

(** ** One group per log *)

Lemma count_perm {A} (p : A -> bool) (l l' : list A) :
  Permutation l l' -> length (filter p l) = length (filter p l').
Proof.
  induction 1 as [|x l l' _ IH|x y l|l l' l'' _ IH1 _ IH2]; simpl.
  - reflexivity.
  - destruct (p x); simpl; congruence.
  - destruct (p x), (p y); reflexivity.
  - congruence.
Qed.

Lemma filter_filter {A} (p q : A -> bool) (l : list A) :
  filter p (filter q l) = filter (fun x => p x && q x) l.
Proof.
  induction l as [|x l IH]; simpl; [reflexivity|].
  destruct (q x); simpl; rewrite ?andb_true_r, ?andb_false_r;
    [destruct (p x)|]; rewrite IH; reflexivity.
Qed.

(** Occurrences of a log in the result of [getGroupLogs], counted on the rows. *)
Lemma occurrences_group_logs (i g : string) (t : Tables) :
  occurrences i (map StorageManager.as_Log (Select.logs_WHERE_group_id g t))
  = length (filter (fun r => String.eqb (l_id r) i && opt_eqb (l_group_id r) g)
              (logs t)).
Proof.
  unfold occurrences, Select.logs_WHERE_group_id.
  rewrite filter_map_swap, length_map; simpl.
  rewrite (count_perm _ (order_by_perm _ _)).
  rewrite filter_filter. reflexivity.
Qed.

Lemma unique_key_count {R} (key : R -> string) (rows : list R) (x : R) :
  NoDup (map key rows) -> In x rows ->
  length (filter (fun r => String.eqb (key r) (key x)) rows) = 1%nat.
Proof.
  induction rows as [|y rows IH]; simpl; intros Hnd Hin; [contradiction|].
  inversion Hnd as [|? ? Hnotin Hnd']; subst.
  destruct Hin as [->|Hin].
  - rewrite String.eqb_refl; simpl. f_equal.
    apply length_zero_iff_nil, filter_absent.
    destruct (existsb (fun r => String.eqb (key r) (key x)) rows) eqn:E;
      [|reflexivity].
    apply existsb_exists in E as (r & Hr & Heq). apply String.eqb_eq in Heq.
    exfalso. apply Hnotin. rewrite <- Heq. apply in_map, Hr.
  - destruct (String.eqb (key y) (key x)) eqn:E.
    + apply String.eqb_eq in E. exfalso. apply Hnotin.
      rewrite E. apply in_map, Hin.
    + apply IH; assumption.
Qed.

Lemma count_assigned_target (B i : string) (ids : list string)
    (rows : list logs_row) :
  In i ids ->
  length (filter (fun r => String.eqb (l_id r) i && opt_eqb (l_group_id r) B)
            (assigned B ids rows))
  = length (filter (fun r => String.eqb (l_id r) i) rows).
Proof.
  intros Hi. unfold assigned.
  induction rows as [|r rows IH]; simpl; [reflexivity|].
  destruct (String.eqb (l_id r) i) eqn:E.
  - assert (Hex : existsb (String.eqb (l_id r)) ids = true).
    { apply existsb_exists. exists i. split; assumption. }
    rewrite Hex; simpl. rewrite E; simpl. rewrite String.eqb_refl; simpl.
    f_equal. exact IH.
  - destruct (existsb (String.eqb (l_id r)) ids); simpl; rewrite E; simpl;
      exact IH.
Qed.

Lemma count_assigned_other (B g i : string) (ids : list string)
    (rows : list logs_row) :
  In i ids -> g <> B ->
  length (filter (fun r => String.eqb (l_id r) i && opt_eqb (l_group_id r) g)
            (assigned B ids rows))
  = 0%nat.
Proof.
  intros Hi Hg. unfold assigned.
  assert (HBg : String.eqb B g = false)
    by (apply String.eqb_neq; congruence).
  induction rows as [|r rows IH]; simpl; [reflexivity|].
  destruct (String.eqb (l_id r) i) eqn:E.
  - assert (Hex : existsb (String.eqb (l_id r)) ids = true).
    { apply existsb_exists. exists i. split; assumption. }
    rewrite Hex; simpl. rewrite E, HBg; simpl. exact IH.
  - destruct (existsb (String.eqb (l_id r)) ids); simpl; rewrite E; simpl;
      exact IH.
Qed.

Lemma unique_key_row {R} (key : R -> string) (rows : list R) (r1 r2 : R) :
  NoDup (map key rows) -> In r1 rows -> In r2 rows -> key r1 = key r2 ->
  r1 = r2.
Proof.
  induction rows as [|y rows IH]; simpl; intros Hnd H1 H2 E; [contradiction|].
  inversion Hnd as [|? ? Hnotin Hnd']; subst.
  destruct H1 as [->|H1], H2 as [->|H2]; auto.
  - exfalso. apply Hnotin. rewrite E. apply in_map, H2.
  - exfalso. apply Hnotin. rewrite <- E. apply in_map, H1.
Qed.

(** At any time the results of [getGroupLogs] for two different groups have
    no log in common. *)
Lemma groups_share_no_log (g1 g2 : string) (m : StorageManager.t)
    (c : Connection) (in1 in2 : list Log.t) :
  conn m = Some c ->
  NoDup (map l_id (logs (tables c))) ->
  g1 <> g2 ->
  StorageManager.getGroupLogs g1 m = (Ok in1, m) ->
  StorageManager.getGroupLogs g2 m = (Ok in2, m) ->
  forall a b, In a in1 -> In b in2 -> Log.id a <> Log.id b.
Proof.
  intros Hc Hnd Hg H1 H2 a b Ha Hb E.
  rewrite (getGroupLogs_open g1 _ Hc) in H1. inversion H1; subst in1.
  rewrite (getGroupLogs_open g2 _ Hc) in H2. inversion H2; subst in2.
  apply in_map_iff in Ha as (r1 & <- & Hr1).
  apply in_map_iff in Hb as (r2 & <- & Hr2).
  unfold Select.logs_WHERE_group_id in Hr1, Hr2.
  apply order_by_In, filter_In in Hr1 as [Hr1 Hq1].
  apply order_by_In, filter_In in Hr2 as [Hr2 Hq2].
  simpl in E.
  assert (r1 = r2) by (eapply unique_key_row; eauto). subst r2.
  destruct (l_group_id r1) as [g|]; simpl in *; [|discriminate].
  apply String.eqb_eq in Hq1, Hq2. congruence.
Qed.

(** C5. Take an open store with no transaction in progress, whose log
    identifiers are distinct (the PRIMARY KEY), and a stored log that is in
    group A. After [assignLogsToGroup B ids] with the log's identifier among
    [ids] and B different from A, the log does not occur in [getGroupLogs A],
    occurs exactly once in [getGroupLogs B] (as the stored row with its group
    set to B), and occurs in the result of [getGroupLogs] for no group other
    than B. Before the call it occurred exactly once in [getGroupLogs A]. *)
Theorem reassignment_moves_log (A B : string) (ids : list string)
    (m : StorageManager.t) (c : Connection) (x : logs_row) :
  conn m = Some c -> txn c = None ->
  NoDup (map l_id (logs (tables c))) ->
  In x (logs (tables c)) ->
  l_group_id x = Some A ->
  In (l_id x) ids ->
  A <> B ->
  exists (m' : StorageManager.t) (before inA inB : list Log.t),
    StorageManager.getGroupLogs A m = (Ok before, m)
    /\ occurrences (l_id x) before = 1%nat
    /\ StorageManager.assignLogsToGroup B ids m = (Ok tt, m')
    /\ StorageManager.getGroupLogs A m' = (Ok inA, m')
    /\ StorageManager.getGroupLogs B m' = (Ok inB, m')
    /\ occurrences (l_id x) inA = 0%nat
    /\ occurrences (l_id x) inB = 1%nat
    /\ In (StorageManager.as_Log (set_group_id B x)) inB
    /\ (forall g inG,
          g <> B ->
          StorageManager.getGroupLogs g m' = (Ok inG, m') ->
          occurrences (l_id x) inG = 0%nat).
Proof.
  intros Hc Hidle Hnd Hx HA Hid HAB.
  pose (c' := with_tables
                (mkTables (sessions (tables c))
                   (assigned B ids (logs (tables c)))
                   (log_groups (tables c))) c).
  assert (Hc' : conn (with_conn c' m) = Some c') by reflexivity.
  exists (with_conn c' m). do 3 eexists.
  split; [apply getGroupLogs_open, Hc|].
  split.
  { rewrite occurrences_group_logs.
    rewrite <- (unique_key_count l_id _ _ Hnd Hx).
    f_equal. apply filter_ext_in. intros r Hr.
    destruct (String.eqb (l_id r) (l_id x)) eqn:E; [|reflexivity].
    apply String.eqb_eq in E.
    assert (r = x).
    { clear - Hnd Hx Hr E. induction (logs (tables c)) as [|y l IH];
        [contradiction|].
      inversion Hnd as [|? ? Hnotin Hnd']; subst.
      destruct Hr as [->|Hr], Hx as [->|Hx]; auto.
      - exfalso. apply Hnotin. rewrite E. apply in_map, Hx.
      - exfalso. apply Hnotin. rewrite <- E. apply in_map, Hr. }
    subst r. rewrite HA; simpl. apply String.eqb_refl. }
  split; [apply assignLogsToGroup_open; assumption|].
  split; [apply getGroupLogs_open, Hc'|].
  split; [apply getGroupLogs_open, Hc'|].
  split; [rewrite occurrences_group_logs; apply count_assigned_other; assumption|].
  split.
  { rewrite occurrences_group_logs. simpl.
    rewrite count_assigned_target by exact Hid.
    apply unique_key_count; assumption. }
  split.
  { apply in_map. unfold Select.logs_WHERE_group_id.
    apply order_by_In, filter_In. split.
    - simpl. unfold assigned. apply in_map_iff. exists x. split; [|exact Hx].
      assert (E : existsb (String.eqb (l_id x)) ids = true).
      { apply existsb_exists. exists (l_id x). split; [exact Hid|].
        apply String.eqb_refl. }
      rewrite E. reflexivity.
    - simpl. apply String.eqb_refl. }
  intros g inG Hg Hget.
  rewrite (getGroupLogs_open g _ Hc') in Hget. inversion Hget; subst inG.
  rewrite occurrences_group_logs. apply count_assigned_other; assumption.
Qed.

Lemma reassignment_moves_log_witness :
  conn Demo.grouped = Some (Demo.the_conn Demo.grouped)
  /\ txn (Demo.the_conn Demo.grouped) = None
  /\ In (set_group_id "g-A" (row_of_Log Demo.L1))
       (logs (tables (Demo.the_conn Demo.grouped)))
  /\ exists m' inA inB,
      StorageManager.assignLogsToGroup "g-B" ["L1"] Demo.grouped = (Ok tt, m')
      /\ StorageManager.getGroupLogs "g-A" m' = (Ok inA, m')
      /\ StorageManager.getGroupLogs "g-B" m' = (Ok inB, m')
      /\ occurrences "L1" inA = 0%nat
      /\ occurrences "L1" inB = 1%nat.
Proof.
  split; [reflexivity|]. split; [reflexivity|].
  split; [left; reflexivity|].
  destruct (@reassignment_moves_log "g-A" "g-B" ["L1"] Demo.grouped
              (Demo.the_conn Demo.grouped)
              (set_group_id "g-A" (row_of_Log Demo.L1)))
    as (m' & before & inA & inB & _ & _ & Hrun & HA & HB & H0 & H1 & _).
  - reflexivity.
  - reflexivity.
  - simpl. repeat constructor; simpl; intuition discriminate.
  - left; reflexivity.
  - reflexivity.
  - left; reflexivity.
  - discriminate.
  - exists m', inA, inB. repeat split; assumption.
Defined.

(** ** Saving a batch of logs *)

Lemma insert_step (c : Connection) (done : list Log.t) (l : Log.t)
    (r : RunResult) (c' : Connection) :
  Sqlite.run (insert_of_Log l) (in_batch c done) = Ok (r, c') ->
  r = mkRunResult 1 /\ c' = in_batch c (done ++ [l]).
Proof.
  unfold Sqlite.run, insert_of_Log.
  destruct (has_id l_id (Log.id l) (logs (tables (in_batch c done))));
    [discriminate|].
  destruct (negb (parent_ok (in_batch c done) (Log.sessionId l)));
    [discriminate|].
  unfold Sqlite.done, with_tables, in_batch; simpl.
  intros H; inversion H; subst.
  split; [reflexivity|].
  rewrite map_app, app_assoc. reflexivity.
Qed.

Lemma insert_loop (rest : list Log.t) :
  forall (done : list Log.t) (m : StorageManager.t) (c : Connection),
    conn m = Some (in_batch c done) ->
    (insert_each rest m = (Ok tt, with_conn (in_batch c (done ++ rest)) m)
     /\ forall (pre : list Log.t) l post,
          rest = (pre ++ l :: post)%list ->
          Sqlite.run (insert_of_Log l) (in_batch c (done ++ pre))
          = Ok (mkRunResult 1, in_batch c ((done ++ pre) ++ [l])))
    \/ (exists (pre : list Log.t) l post e,
          rest = (pre ++ l :: post)%list
          /\ Sqlite.run (insert_of_Log l) (in_batch c (done ++ pre)) = Err e
          /\ insert_each rest m
             = (Err e, with_conn (in_batch c (done ++ pre)) m)).
Proof.
  induction rest as [|l rest IH]; intros done m c Hc.
  - left. split.
    + unfold insert_each; simpl. rewrite app_nil_r.
      rewrite with_conn_same by exact Hc. reflexivity.
    + intros [|? ?] ? ? H; discriminate.
  - destruct (Sqlite.run (insert_of_Log l) (in_batch c done))
      as [[r c']|e] eqn:Hrun.
    + pose proof Hrun as Hstep. apply insert_step in Hstep.
      destruct Hstep as [-> ->].
      assert (Hbody :
        insert_each (l :: rest) m
        = insert_each rest (with_conn (in_batch c (done ++ [l])) m)).
      { unfold insert_each. cbn [for_of].
        erewrite bind_ok; [reflexivity|].
        erewrite bind_ok
          by (eapply this_db_run_ok; [exact Hc | exact Hrun]).
        reflexivity. }
      destruct (IH (done ++ [l])%list (with_conn (in_batch c (done ++ [l])) m) c
                  (conn_with_conn _ _))
        as [[Hok Hall]|(pre & l' & post & e & Hrest & Hfail & Herr)].
      * left. split.
        { rewrite Hbody, Hok.
          rewrite with_conn_twice, <- app_assoc. reflexivity. }
        { intros [|a pre] l0 post H; simpl in H; inversion H; subst.
          - rewrite app_nil_r. exact Hrun.
          - specialize (Hall pre l0 post eq_refl).
            rewrite <- app_assoc in Hall. exact Hall. }
      * right. exists (l :: pre), l', post, e.
        split; [simpl; congruence|].
        rewrite <- app_assoc in Hfail, Herr. simpl in Hfail, Herr.
        split; [exact Hfail|].
        rewrite Hbody, Herr.
        rewrite with_conn_twice. reflexivity.
    + right. exists [], l, rest, e. rewrite app_nil_r.
      split; [reflexivity|]. split; [exact Hrun|].
      unfold insert_each. cbn [for_of].
      erewrite bind_err.
      2:{ erewrite bind_err
            by (eapply this_db_run_err; [exact Hc | exact Hrun]).
          reflexivity. }
      rewrite with_conn_same by exact Hc. reflexivity.
Qed.

Lemma occurrences_session_logs (i sid : string) (t : Tables) :
  occurrences i (map StorageManager.as_Log (Select.logs_WHERE_session_id sid t))
  = length (filter (fun r => String.eqb (l_id r) i
                             && String.eqb (l_session_id r) sid) (logs t)).
Proof.
  unfold occurrences, Select.logs_WHERE_session_id.
  rewrite filter_map_swap, length_map; simpl.
  rewrite (count_perm _ (order_by_perm _ _)).
  rewrite filter_filter. reflexivity.
Qed.

(** C1. On an open store with no transaction in progress, [saveLogs] ends in
    one of two ways. Either some insert fails, after the inserts of the logs
    before it in the batch succeeded: then the promise rejects with the error
    of that insert and the manager is exactly as before the call, so every
    read returns what it returned before and a batch log whose identifier was
    not stored occurs in no [getSessionLogs] result. Or every insert
    succeeds: then the promise resolves, the rows of the batch are appended
    to the logs table in order, and each is returned by [getSessionLogs] for
    its session. *)
Theorem saveLogs_all_or_nothing (logs : list Log.t) (m : StorageManager.t)
    (c : Connection) :
  conn m = Some c -> txn c = None ->
  (exists (pre : list Log.t) l post e,
      logs = (pre ++ l :: post)%list
      /\ Sqlite.run (insert_of_Log l) (in_batch c pre) = Err e
      /\ StorageManager.saveLogs logs m = (Err e, m)
      /\ (forall l' sid seen,
            In l' logs ->
            has_id l_id (Log.id l') (Sqlite.logs (tables c)) = false ->
            StorageManager.getSessionLogs sid m = (Ok seen, m) ->
            occurrences (Log.id l') seen = 0%nat))
  \/ ((forall (pre : list Log.t) l post,
          logs = (pre ++ l :: post)%list ->
          Sqlite.run (insert_of_Log l) (in_batch c pre)
          = Ok (mkRunResult 1, in_batch c (pre ++ [l])))
      /\ exists m',
          StorageManager.saveLogs logs m = (Ok tt, m')
          /\ conn m'
             = Some (with_tables
                       (mkTables (sessions (tables c))
                          (Sqlite.logs (tables c) ++ map row_of_Log logs)
                          (log_groups (tables c))) c)
          /\ forall l,
               In l logs ->
               exists seen,
                 StorageManager.getSessionLogs (Log.sessionId l) m'
                 = (Ok seen, m')
                 /\ In (StorageManager.as_Log (row_of_Log l)) seen).
Proof.
  intros Hc Hidle.
  assert (Hbegin :
    StorageManager.this_db (Database.run BEGIN_TRANSACTION) m
    = (Ok (mkRunResult 0), with_conn (in_batch c []) m)).
  { eapply this_db_run_ok; [exact Hc|].
    unfold Sqlite.run. rewrite Hidle. unfold in_batch; simpl.
    rewrite app_nil_r, Tables_eta. reflexivity. }
  destruct (@insert_loop logs [] (with_conn (in_batch c []) m) c
              (conn_with_conn _ _))
    as [[Hok Hall]|(pre & l & post & e & Hlogs & Hfail & Herr)];
    simpl in *.
  - right. split; [exact Hall|].
    eexists. split; [|split].
    + unfold StorageManager.saveLogs.
      erewrite bind_ok by exact Hbegin.
      unfold try_catch.
      erewrite bind_ok by exact Hok.
      erewrite bind_ok
        by (eapply this_db_run_ok; [apply conn_with_conn | reflexivity]).
      reflexivity.
    + unfold with_tables; simpl. rewrite Hidle. reflexivity.
    + intros l Hl. eexists. split.
      * apply getSessionLogs_open. reflexivity.
      * apply in_map. unfold Select.logs_WHERE_session_id; simpl.
        apply order_by_In, filter_In. split.
        { apply in_or_app. right. apply in_map, Hl. }
        { simpl. apply String.eqb_refl. }
  - left. exists pre, l, post, e.
    split; [exact Hlogs|]. split; [exact Hfail|]. split.
    + unfold StorageManager.saveLogs.
      erewrite bind_ok by exact Hbegin.
      unfold try_catch.
      erewrite bind_err by exact Herr.
      erewrite bind_ok
        by (eapply this_db_run_ok; [apply conn_with_conn | reflexivity]).
      unfold throw; simpl. f_equal.
      rewrite <- (with_conn_same m Hc) at 2.
      unfold with_conn. do 3 f_equal.
      destruct c; simpl in *; subst; reflexivity.
    + intros l' sid seen _ Hnew Hget.
      rewrite (getSessionLogs_open sid _ Hc) in Hget.
      inversion Hget; subst seen.
      rewrite occurrences_session_logs.
      apply length_zero_iff_nil, filter_absent.
      destruct (existsb _ _) eqn:E; [|reflexivity].
      apply existsb_exists in E as (r & Hr & Heq).
      apply andb_true_iff in Heq as [Heq _].
      rewrite (has_id_false _ _ _ _ Hnew Hr) in Heq. discriminate.
Qed.

Lemma saveLogs_all_or_nothing_witness :
  conn Demo.with_logs = Some (Demo.the_conn Demo.with_logs)
  /\ txn (Demo.the_conn Demo.with_logs) = None
  /\ StorageManager.saveLogs [Demo.L3; Demo.L1] Demo.with_logs
     = (Err (unique_failed "logs.id"), Demo.with_logs)
  /\ fst (StorageManager.getSessionLogs "s-1" Demo.with_logs)
     = Ok [StorageManager.as_Log (row_of_Log Demo.L2);
           StorageManager.as_Log (row_of_Log Demo.L1)]
  /\ ((exists e,
         StorageManager.saveLogs [Demo.L3; Demo.L1] Demo.with_logs
         = (Err e, Demo.with_logs))
      \/ (exists m',
            StorageManager.saveLogs [Demo.L3; Demo.L1] Demo.with_logs
            = (Ok tt, m'))).
Proof.
  do 4 (split; [reflexivity|]).
  destruct (@saveLogs_all_or_nothing [Demo.L3; Demo.L1] Demo.with_logs
              (Demo.the_conn Demo.with_logs) eq_refl eq_refl)
    as [(pre & l & post & e & _ & _ & Hrun & _)|(_ & m' & Hrun & _)].
  - left. exists e. exact Hrun.
  - right. exists m'. exact Hrun.
Defined.

(** The batch of the spec's scenario, and a batch with a duplicate. *)
Example saveLogs_batch_visible :
  fst (StorageManager.getSessionLogs "s-1"
         (snd (StorageManager.saveLogs [Demo.L1; Demo.L2] Demo.outage)))
  = Ok [StorageManager.as_Log (row_of_Log Demo.L2);
        StorageManager.as_Log (row_of_Log Demo.L1)].
Proof. reflexivity. Qed.

Example saveLogs_duplicate_rolls_back :
  StorageManager.saveLogs [Demo.L1; Demo.L2; Demo.L1] Demo.outage
  = (Err (unique_failed "logs.id"), Demo.outage)
  /\ fst (StorageManager.getSessionLogs "s-1" Demo.outage) = Ok [].
Proof. split; reflexivity. Qed.

(** ** What every reachable manager satisfies *)

Lemma NoDup_key_snoc {R} (key : R -> string) (rows : list R) (x : R) :
  NoDup (map key rows) -> has_id key (key x) rows = false ->
  NoDup (map key (rows ++ [x])).
Proof.
  intros Hnd Hnew. rewrite map_app; simpl.
  apply NoDup_app; [exact Hnd | repeat constructor; simpl; tauto |].
  intros k Hk [<-|[]].
  apply in_map_iff in Hk as (r & Hkey & Hr).
  pose proof (has_id_false key (key x) rows r Hnew Hr) as E.
  rewrite Hkey, String.eqb_refl in E. discriminate.
Qed.

Lemma NoDup_key_filter {R} (key : R -> string) (p : R -> bool) (rows : list R) :
  NoDup (map key rows) -> NoDup (map key (filter p rows)).
Proof.
  induction rows as [|x rows IH]; simpl; intros Hnd; [constructor|].
  inversion Hnd as [|? ? Hnotin Hnd']; subst.
  destruct (p x); simpl; [constructor|]; auto.
  intros Hin. apply Hnotin.
  apply in_map_iff in Hin as (r & Hkey & Hr).
  apply filter_In in Hr as [Hr _]. rewrite <- Hkey. apply in_map, Hr.
Qed.

Lemma map_key_update {R} (key : R -> string) (f : R -> R) (rows : list R) :
  (forall r, key (f r) = key r) -> map key (map f rows) = map key rows.
Proof. intros H. rewrite map_map. apply map_ext, H. Qed.

Lemma run_wf (q : stmt) (c c' : Connection) (r : RunResult) :
  wf_conn c -> Sqlite.run q c = Ok (r, c') -> wf_conn c'.
Proof.
  unfold wf_conn, keys_unique. intros [(Hs & Hl & Hg) Ht].
  destruct q as
    [ | | | i n ca ua cp st et stat | n ua cp st et stat i | i | i | i
    | i sid content ts svc lvl gid | i sid n d rc sf stat
    | n d rc sf stat i | gid i ];
    simpl;
    repeat match goal with
      | |- context [match txn c with _ => _ end] => destruct (txn c) eqn:?
      | |- context [if ?b then _ else _] => destruct b eqn:?
      end;
    intros H; inversion H; subst; clear H; simpl;
    repeat match goal with |- _ /\ _ => split end;
    try assumption; try apply Ht; try exact I;
    try (apply NoDup_key_filter; assumption).
  - apply (@NoDup_key_snoc _ s_id _ (mk_sessions_row i n ca ua cp st et stat));
      assumption.
  - rewrite map_key_update; [assumption|].
    intros x. destruct (String.eqb (s_id x) i); reflexivity.
  - apply (@NoDup_key_snoc _ l_id _ (mk_logs_row i sid content ts svc lvl gid));
      assumption.
  - apply (@NoDup_key_snoc _ g_id _ (mk_log_groups_row i sid n d rc sf stat));
      assumption.
  - rewrite map_key_update; [assumption|].
    intros x. destruct (String.eqb (g_id x) i); reflexivity.
  - rewrite map_key_update; [assumption|].
    intros x. destruct (String.eqb (l_id x) i); reflexivity.
Qed.

Lemma run_dml_txn (q : stmt) (c c' : Connection) (r : RunResult) :
  is_dml q = true -> Sqlite.run q c = Ok (r, c') -> txn c' = txn c.
Proof.
  destruct q; simpl; try discriminate; intros _;
    repeat match goal with
      | |- context [if ?b then _ else _] => destruct b
      end;
    intros H; inversion H; reflexivity.
Qed.

Section Preservation.
Variable P : StorageManager.t -> Prop.

Lemma preserves_ret {A} (a : A) : preserves P (ret a).
Proof. intros m Hm; exact Hm. Qed.

Lemma preserves_throw {A} (e : Error) : preserves P (@throw _ A e).
Proof. intros m Hm; exact Hm. Qed.

Lemma preserves_bind {A B} (c : M StorageManager.t A)
    (k : A -> M StorageManager.t B) :
  preserves P c -> (forall a, preserves P (k a)) -> preserves P (bind c k).
Proof.
  intros Hc Hk m Hm. unfold bind. specialize (Hc m Hm).
  destruct (c m) as [[a|e] m']; simpl in *; [apply Hk|]; assumption.
Qed.

Lemma preserves_try_catch {A} (c : M StorageManager.t A)
    (h : Error -> M StorageManager.t A) :
  preserves P c -> (forall e, preserves P (h e)) -> preserves P (try_catch c h).
Proof.
  intros Hc Hh m Hm. unfold try_catch. specialize (Hc m Hm).
  destruct (c m) as [[a|e] m']; simpl in *; [|apply Hh]; assumption.
Qed.

Lemma preserves_for_of {A} (xs : list A) (body : A -> M StorageManager.t unit) :
  (forall x, preserves P (body x)) -> preserves P (for_of xs body).
Proof.
  intros Hbody. induction xs as [|x xs IH]; simpl.
  - apply preserves_ret.
  - apply preserves_bind; [apply Hbody | intros _; exact IH].
Qed.

Lemma preserves_get {R} (sql : Tables -> list R) :
  preserves P (StorageManager.this_db (Database.get sql)).
Proof.
  intros m Hm. destruct (conn m) as [c|] eqn:Hc.
  - rewrite (this_db_get_open sql m Hc). exact Hm.
  - rewrite (this_db_get_closed sql m Hc). exact Hm.
Qed.

End Preservation.

Lemma preserves_run (P : Connection -> Prop) (q : stmt) :
  (forall c r c', P c -> Sqlite.run q c = Ok (r, c') -> P c') ->
  preserves (on_conn P) (StorageManager.this_db (Database.run q)).
Proof.
  intros Hq m Hm. destruct (conn m) as [c|] eqn:Hc.
  - destruct (Sqlite.run q c) as [[r c']|e] eqn:Hrun.
    + rewrite (this_db_run_ok q m Hc Hrun); simpl.
      intros c0 Hc0. rewrite conn_with_conn in Hc0. inversion Hc0; subst.
      eapply Hq; [apply Hm, Hc | exact Hrun].
    + rewrite (this_db_run_err q m Hc Hrun). exact Hm.
  - rewrite (this_db_run_closed q m Hc). exact Hm.
Qed.

Ltac keeps tac :=
  repeat first
    [ apply preserves_ret
    | apply preserves_throw
    | apply preserves_get
    | apply preserves_bind; [|intros ?]
    | apply preserves_try_catch; [|intros ?]
    | apply preserves_for_of; intros ?
    | apply preserves_run; intros ? ? ? ? ?; tac ].


Lemma run_dml_idle (q : stmt) (c c' : Connection) (r : RunResult) :
  is_dml q = true -> txn c = None -> Sqlite.run q c = Ok (r, c') ->
  txn c' = None.
Proof. intros Hq Hc Hrun. rewrite (run_dml_txn q c Hq Hrun). exact Hc. Qed.

Lemma run_dml_open_txn (q : stmt) (c c' : Connection) (r : RunResult) :
  is_dml q = true -> txn c <> None -> Sqlite.run q c = Ok (r, c') ->
  txn c' <> None.
Proof. intros Hq Hc Hrun. rewrite (run_dml_txn q c Hq Hrun). exact Hc. Qed.

Ltac by_run_wf := eapply run_wf; eassumption.

Ltac by_run_dml_idle :=
  eapply run_dml_idle; [|eassumption|eassumption]; reflexivity.

(** BEGIN; try { body; COMMIT } catch { ROLLBACK; throw }: when the body only
    runs statements inside the transaction, none is left open. *)
Lemma bracket_idle (body : M StorageManager.t unit) :
  preserves (fun m => exists c, conn m = Some c /\ txn c <> None) body ->
  preserves (on_conn (fun c => txn c = None))
    (await StorageManager.this_db (Database.run BEGIN_TRANSACTION) ;;
     try_catch
       (await body ;;
        await StorageManager.this_db (Database.run COMMIT) ;;
        ret tt)
       (fun error =>
          await StorageManager.this_db (Database.run ROLLBACK) ;;
          throw error)).
Proof.
  intros Hbody m Hm.
  destruct (conn m) as [c|] eqn:Hc.
  2:{ erewrite bind_err by (apply this_db_run_closed, Hc). exact Hm. }
  assert (Hidle : txn c = None) by (apply Hm, Hc).
  erewrite bind_ok.
  2:{ eapply this_db_run_ok; [exact Hc|].
      unfold Sqlite.run. rewrite Hidle. reflexivity. }
  set (m1 := with_conn _ m).
  assert (H1 : exists c1, conn m1 = Some c1 /\ txn c1 <> None).
  { eexists. split; [reflexivity|]. simpl. discriminate. }
  specialize (Hbody m1 H1).
  unfold try_catch, bind at 1.
  destruct (body m1) as [[[]|e] m2]; simpl in Hbody;
    destruct Hbody as (c2 & Hc2 & Hopen);
    destruct (txn c2) as [saved|] eqn:Htxn; try congruence.
  - erewrite bind_ok.
    2:{ eapply this_db_run_ok; [exact Hc2|].
        unfold Sqlite.run. rewrite Htxn. reflexivity. }
    simpl. intros c0 Hc0. rewrite conn_with_conn in Hc0.
    inversion Hc0; reflexivity.
  - erewrite bind_ok.
    2:{ eapply this_db_run_ok; [exact Hc2|].
        unfold Sqlite.run. rewrite Htxn. reflexivity. }
    simpl. intros c0 Hc0. rewrite conn_with_conn in Hc0.
    inversion Hc0; reflexivity.
Qed.

Lemma preserves_run_in_txn (q : stmt) :
  is_dml q = true ->
  preserves (fun m => exists c, conn m = Some c /\ txn c <> None)
    (StorageManager.this_db (Database.run q)).
Proof.
  intros Hq m (c & Hc & Hopen).
  destruct (Sqlite.run q c) as [[r c']|e] eqn:Hrun.
  - rewrite (this_db_run_ok q m Hc Hrun); simpl.
    exists c'. split; [reflexivity|]. eapply run_dml_open_txn; eassumption.
  - rewrite (this_db_run_err q m Hc Hrun). exists c. split; assumption.
Qed.

Lemma consistent_split (m : StorageManager.t) :
  consistent m <-> on_conn wf_conn m /\ on_conn (fun c => txn c = None) m.
Proof.
  unfold consistent, on_conn. split.
  - intros H. split; intros c Hc; apply (H c Hc).
  - intros [H1 H2] c Hc. split; [apply H1 | apply H2]; exact Hc.
Qed.

Lemma updateSession_manager (now : Z) (r : Heap.ref) (h : Heap.t)
    (m : StorageManager.t) :
  exists m0,
    conn m0 = conn m
    /\ (snd (snd (StorageManager.updateSession now r (h, m))) = m0
        \/ exists q,
            is_dml q = true
            /\ snd (snd (StorageManager.updateSession now r (h, m)))
               = snd (StorageManager.this_db (Database.run q) m0)).
Proof.
  unfold StorageManager.updateSession, StorageManager.refresh_updatedAt,
    StorageManager.this, on_field, bind; simpl.
  destruct (Heap.get r h) as [s|];
    [|exists m; split; [reflexivity | left; reflexivity]].
  exists (StorageManager.through_pointer r h (with_updatedAt now s) m).
  split; [apply conn_through_pointer|].
  right. unfold with_updatedAt.
  exists (UPDATE_sessions (Session.name s) now (Session.cloudProvider s)
            (Session.startTime s) (Session.endTime s) (Session.status s)
            (Session.id s)).
  split; [reflexivity|]. simpl.
  destruct (StorageManager.this_db _ _) as [[?|?] ?]; reflexivity.
Qed.

(** Every manager that the public methods can produce has unique keys in each
    table and no transaction left open. *)
Theorem reachable_consistent (m : StorageManager.t) :
  reachable m -> consistent m.
Proof.
  induction 1 as
    [ | file fk m Hm IH Hfile | err m Hm IH | i m Hm IH
    | now uuid n p st et m Hm IH | now r h m Hm IH | i m Hm IH
    | logs m Hm IH | uuid i n d m Hm IH | g m Hm IH | g ids m Hm IH ];
    try (apply consistent_split in IH; destruct IH as [Hwf Hidle];
         apply consistent_split).
  - intros c Hc; discriminate.
  - split; intros c Hc; inversion Hc; subst;
      [split; [exact Hfile | exact I] | reflexivity].
  - unfold StorageManager.close, StorageManager.this_db, on_field,
      Database.close.
    destruct m as [[[c|]] cur]; simpl; [destruct err; simpl|];
      split; intros c0 Hc0; try discriminate;
      first [apply Hwf | apply Hidle]; exact Hc0.
  - assert (E : conn (snd (StorageManager.setCurrentSession i m)) = conn m).
    { destruct (setCurrentSession_found_or_not i m) as [H|[(s & H)|H]];
        rewrite H; reflexivity. }
    unfold on_conn. rewrite E. split; assumption.
  - split; [revert m Hm Hwf Hidle | revert m Hm Hidle Hwf]; intros m _ H _;
      revert m H; unfold StorageManager.createSession;
      [keeps by_run_wf | keeps by_run_dml_idle].
  - destruct (updateSession_manager now r h m)
      as (m0 & Hconn & [->|(q & Hq & ->)]).
    + unfold on_conn. rewrite Hconn. split; assumption.
    + split.
      * apply (preserves_run (P := wf_conn));
          [|unfold on_conn; rewrite Hconn; exact Hwf].
        intros; eapply run_wf; eauto.
      * apply (preserves_run (P := fun c => txn c = None));
          [|unfold on_conn; rewrite Hconn; exact Hidle].
        intros; eapply run_dml_idle; eauto.
  - split; [revert m Hm Hwf Hidle | revert m Hm Hidle Hwf]; intros m _ H _;
      revert m H;
      unfold StorageManager.deleteSession, StorageManager.deleteSession_on;
      [keeps by_run_wf | keeps by_run_dml_idle].
  - split.
    + revert m Hm Hwf Hidle; intros m _ H _; revert m H.
      unfold StorageManager.saveLogs. keeps by_run_wf.
    + revert m Hm Hwf Hidle; intros m _ _ H; revert m H.
      apply bracket_idle.
      apply preserves_for_of; intros l.
      apply preserves_bind; [|intros ?; apply preserves_ret].
      apply preserves_run_in_txn. reflexivity.
  - split; [revert m Hm Hwf Hidle | revert m Hm Hidle Hwf]; intros m _ H _;
      revert m H; unfold StorageManager.createLogGroup;
      [keeps by_run_wf | keeps by_run_dml_idle].
  - split; [revert m Hm Hwf Hidle | revert m Hm Hidle Hwf]; intros m _ H _;
      revert m H; unfold StorageManager.updateLogGroup;
      [keeps by_run_wf | keeps by_run_dml_idle].
  - split.
    + revert m Hm Hwf Hidle; intros m _ H _; revert m H.
      unfold StorageManager.assignLogsToGroup. keeps by_run_wf.
    + revert m Hm Hwf Hidle; intros m _ _ H; revert m H.
      apply bracket_idle.
      apply preserves_for_of; intros l.
      apply preserves_bind; [|intros ?; apply preserves_ret].
      apply preserves_run_in_txn. reflexivity.
Qed.

(** The states used to instantiate the statements are reachable ones. *)
Example demo_reachable : reachable Demo.grouped.
Proof.
  unfold Demo.grouped, Demo.with_groups, Demo.with_logs, Demo.outage,
    Demo.opened.
  repeat first [ apply reach_assignLogsToGroup | apply reach_createLogGroup
               | apply reach_saveLogs | apply reach_createSession ].
  apply reach_initialize; [apply reach_new|].
  repeat split; constructor.
Qed.

(** The scenario of the spec: a session, two logs, a group, one assignment. *)
Example end_to_end_scenario :
  fst (StorageManager.getGroupLogs "g-A" Demo.grouped)
  = Ok [Log.mk "L1" "s-1" "Error in service A" 20 (text "ServiceA")
          (text "error") (text "g-A")]
  /\ option_map (map Log.id)
       (match fst (StorageManager.getSessionLogs "s-1" Demo.grouped) with
        | Ok ls => Some ls
        | Err _ => None
        end)
     = Some ["L2"; "L1"].
Proof. split; reflexivity. Qed.

(** ** Log groups: create, read, update *)

(** On an open store, with [uuidv4()] returning an identifier no stored group
    has (and, when foreign keys are enforced, a session that exists),
    [createLogGroup] returns the object it built: the identifier, session,
    name and description given, status "new", root cause and fix left out.
    [getLogGroup] on the identifier then returns the stored row: the same
    identifier, session, name and status, root cause and fix null, and the
    description through [|| null]: a non-empty text comes back as given; the
    empty string, null and a description left out come back as null. So the
    object read back is never the object returned. Sessions, logs and the
    current-session pointer are untouched. *)
Theorem createLogGroup_roundtrip (uuid sessionId name : string)
    (description : Optional) (m : StorageManager.t) (c : Connection) :
  conn m = Some c ->
  has_id g_id uuid (log_groups (tables c)) = false ->
  parent_ok c sessionId = true ->
  exists m' created back,
    StorageManager.createLogGroup uuid sessionId name description m
    = (Ok created, m')
    /\ created
       = LogGroup.mk uuid sessionId name description undefined undefined "new"
    /\ StorageManager.getLogGroup uuid m' = (Ok (Some back), m')
    /\ back
       = LogGroup.mk uuid sessionId name (of_column (or_null description))
           null null "new"
    /\ (forall ch rest,
          description = text (String ch rest) ->
          LogGroup.description back = text (String ch rest))
    /\ (description = text EmptyString \/ description = null
        \/ description = undefined ->
        LogGroup.description back = null)
    /\ back <> created
    /\ StorageManager.currentSession m' = StorageManager.currentSession m
    /\ exists c',
         conn m' = Some c'
         /\ sessions (tables c') = sessions (tables c)
         /\ logs (tables c') = logs (tables c).
Proof.
  intros Hc Hfresh Hparent.
  assert (Hrun :
    Sqlite.run (INSERT_INTO_log_groups uuid sessionId name (or_null description)
                  None None "new") c
    = done 1 (mkTables (sessions (tables c)) (logs (tables c))
                (log_groups (tables c)
                 ++ [mk_log_groups_row uuid sessionId name
                       (or_null description) None None "new"])) c).
  { unfold Sqlite.run. rewrite Hfresh, Hparent. reflexivity. }
  do 3 eexists. split.
  { unfold StorageManager.createLogGroup; simpl.
    erewrite bind_ok by (eapply this_db_run_ok; [exact Hc | exact Hrun]).
    reflexivity. }
  split; [reflexivity|].
  split.
  { erewrite getLogGroup_open by apply conn_with_conn.
    unfold Select.log_groups_WHERE_id; simpl.
    rewrite filter_app, (filter_absent _ _ Hfresh); simpl.
    rewrite String.eqb_refl. reflexivity. }
  split; [reflexivity|].
  split; [intros ch rest ->; reflexivity|].
  split; [intros [->|[->| ->]]; reflexivity|].
  split; [discriminate|].
  split; [reflexivity|].
  eexists. split; [reflexivity|]. split; reflexivity.
Qed.

Lemma createLogGroup_roundtrip_witness :
  conn Demo.with_logs = Some (Demo.the_conn Demo.with_logs)
  /\ has_id g_id "g-A" (log_groups (tables (Demo.the_conn Demo.with_logs)))
     = false
  /\ parent_ok (Demo.the_conn Demo.with_logs) "s-1" = true
  /\ exists m',
      StorageManager.createLogGroup "g-A" "s-1" "Service A errors" (text "")
        Demo.with_logs
      = (Ok (LogGroup.mk "g-A" "s-1" "Service A errors" (text "") undefined
               undefined "new"), m')
      /\ StorageManager.getLogGroup "g-A" m'
         = (Ok (Some (LogGroup.mk "g-A" "s-1" "Service A errors" null null null
                        "new")), m').
Proof.
  do 3 (split; [reflexivity|]).
  destruct (@createLogGroup_roundtrip "g-A" "s-1" "Service A errors" (text "")
              Demo.with_logs (Demo.the_conn Demo.with_logs)
              eq_refl eq_refl eq_refl)
    as (m' & created & back & Hcreate & -> & Hget & -> & _).
  exists m'. split; [exact Hcreate | exact Hget].
Defined.

(** For a stored log group, [updateLogGroup] resolves with the record given
    and replaces the stored name, description, root cause, fix and status
    (each optional text through [|| null]); the identifier and the session of
    the stored row are kept, whatever [sessionId] the record carries; other
    groups, the sessions and the logs are untouched. *)
Theorem updateLogGroup_overwrites (g : LogGroup.t) (m : StorageManager.t)
    (c : Connection) (stored : log_groups_row) :
  conn m = Some c ->
  hd_error (Select.log_groups_WHERE_id (LogGroup.id g) (tables c)) = Some stored ->
  exists m' c',
    StorageManager.updateLogGroup g m = (Ok g, m')
    /\ conn m' = Some c'
    /\ StorageManager.getLogGroup (LogGroup.id g) m'
       = (Ok (Some (LogGroup.mk (LogGroup.id g) (g_session_id stored)
                      (LogGroup.name g)
                      (of_column (or_null (LogGroup.description g)))
                      (of_column (or_null (LogGroup.rootCause g)))
                      (of_column (or_null (LogGroup.suggestedFix g)))
                      (LogGroup.status g))), m')
    /\ (forall i, i <> LogGroup.id g ->
          StorageManager.getLogGroup i m'
          = (fst (StorageManager.getLogGroup i m), m'))
    /\ sessions (tables c') = sessions (tables c)
    /\ logs (tables c') = logs (tables c)
    /\ map g_id (log_groups (tables c')) = map g_id (log_groups (tables c))
    /\ map g_session_id (log_groups (tables c'))
       = map g_session_id (log_groups (tables c)).
Proof.
  intros Hc Hstored.
  pose (upd := fun r : log_groups_row =>
                 if String.eqb (g_id r) (LogGroup.id g)
                 then mk_log_groups_row (g_id r) (g_session_id r)
                        (LogGroup.name g) (or_null (LogGroup.description g))
                        (or_null (LogGroup.rootCause g))
                        (or_null (LogGroup.suggestedFix g)) (LogGroup.status g)
                 else r).
  assert (Hupd_id : forall r, g_id (upd r) = g_id r).
  { intros r. unfold upd. destruct (String.eqb _ _); reflexivity. }
  assert (Hupd_sid : forall r, g_session_id (upd r) = g_session_id r).
  { intros r. unfold upd. destruct (String.eqb _ _); reflexivity. }
  assert (Hid : String.eqb (g_id stored) (LogGroup.id g) = true)
    by (apply (hd_error_filter _ _ Hstored)).
  do 2 eexists. split.
  { unfold StorageManager.updateLogGroup.
    erewrite bind_ok by (eapply this_db_run_ok; [exact Hc | reflexivity]).
    reflexivity. }
  split; [reflexivity|].
  split; [|split; [|split; [reflexivity|split; [reflexivity|split]]]].
  - erewrite getLogGroup_open by apply conn_with_conn.
    unfold Select.log_groups_WHERE_id; simpl. fold upd.
    rewrite filter_map_commute by (intros x; rewrite Hupd_id; reflexivity).
    rewrite hd_error_map. unfold Select.log_groups_WHERE_id in Hstored.
    rewrite Hstored; simpl.
    unfold upd, StorageManager.as_LogGroup. rewrite Hid; simpl.
    apply String.eqb_eq in Hid. rewrite Hid. reflexivity.
  - intros i Hi.
    erewrite getLogGroup_open by apply conn_with_conn.
    erewrite (getLogGroup_open i) by exact Hc.
    unfold Select.log_groups_WHERE_id; simpl. fold upd.
    rewrite filter_map_commute by (intros x; rewrite Hupd_id; reflexivity).
    rewrite map_unchanged; [reflexivity|].
    intros x Hx. apply filter_In in Hx as [_ Hx].
    apply String.eqb_eq in Hx. unfold upd.
    destruct (String.eqb (g_id x) (LogGroup.id g)) eqn:E; [|reflexivity].
    apply String.eqb_eq in E. congruence.
  - simpl. fold upd. apply map_key_update, Hupd_id.
  - simpl. fold upd. rewrite map_map. apply map_ext, Hupd_sid.
Qed.

Lemma updateLogGroup_overwrites_witness :
  conn Demo.grouped = Some (Demo.the_conn Demo.grouped)
  /\ exists m',
      StorageManager.updateLogGroup
        (LogGroup.mk "g-A" "s-other" "Timeouts" (text "") (text "pool exhausted")
           undefined "analyzed") Demo.grouped
      = (Ok (LogGroup.mk "g-A" "s-other" "Timeouts" (text "")
               (text "pool exhausted") undefined "analyzed"), m')
      /\ StorageManager.getLogGroup "g-A" m'
         = (Ok (Some (LogGroup.mk "g-A" "s-1" "Timeouts" null
                        (text "pool exhausted") null "analyzed")), m').
Proof.
  split; [reflexivity|].
  destruct (@updateLogGroup_overwrites
              (LogGroup.mk "g-A" "s-other" "Timeouts" (text "")
                 (text "pool exhausted") undefined "analyzed")
              Demo.grouped (Demo.the_conn Demo.grouped)
              (mk_log_groups_row "g-A" "s-1" "Service A errors" None None None
                 "new")
              eq_refl eq_refl)
    as (m' & c' & Hupd & _ & Hget & _).
  exists m'. split; [exact Hupd | exact Hget].
Defined.

(** ** Reads that find nothing *)

(** On an open store a lookup by an identifier that nothing stored carries is
    not an error: [getSession] and [getLogGroup] resolve with undefined,
    [getSessionLogs], [getSessionLogGroups] and [getGroupLogs] with the empty
    list, and the manager is unchanged. *)
Theorem reads_of_unknown_ids (i : string) (m : StorageManager.t)
    (c : Connection) :
  conn m = Some c ->
  (has_id s_id i (sessions (tables c)) = false ->
   StorageManager.getSession i m = (Ok None, m))
  /\ (has_id g_id i (log_groups (tables c)) = false ->
      StorageManager.getLogGroup i m = (Ok None, m))
  /\ (has_id l_session_id i (logs (tables c)) = false ->
      StorageManager.getSessionLogs i m = (Ok [], m))
  /\ (has_id g_session_id i (log_groups (tables c)) = false ->
      StorageManager.getSessionLogGroups i m = (Ok [], m))
  /\ (existsb (fun r => opt_eqb (l_group_id r) i) (logs (tables c)) = false ->
      StorageManager.getGroupLogs i m = (Ok [], m)).
Proof.
  intros Hc. repeat match goal with |- _ /\ _ => split end; intros H.
  - rewrite (getSession_open i _ Hc). unfold Select.sessions_WHERE_id.
    rewrite (filter_absent _ _ H). reflexivity.
  - rewrite (getLogGroup_open i _ Hc). unfold Select.log_groups_WHERE_id.
    rewrite (filter_absent _ _ H). reflexivity.
  - rewrite (getSessionLogs_open i _ Hc). unfold Select.logs_WHERE_session_id.
    rewrite (filter_absent _ _ H). reflexivity.
  - rewrite (getSessionLogGroups_open i _ Hc).
    unfold Select.log_groups_WHERE_session_id.
    rewrite (filter_absent _ _ H). reflexivity.
  - rewrite (getGroupLogs_open i _ Hc). unfold Select.logs_WHERE_group_id.
    rewrite (filter_absent _ _ H). reflexivity.
Qed.

Lemma reads_of_unknown_ids_witness :
  conn Demo.grouped = Some (Demo.the_conn Demo.grouped)
  /\ StorageManager.getSession "nobody" Demo.grouped = (Ok None, Demo.grouped)
  /\ StorageManager.getGroupLogs "g-B" Demo.grouped = (Ok [], Demo.grouped).
Proof.
  split; [reflexivity|].
  pose proof (@reads_of_unknown_ids "nobody" Demo.grouped
                (Demo.the_conn Demo.grouped) eq_refl) as (H1 & _).
  pose proof (@reads_of_unknown_ids "g-B" Demo.grouped
                (Demo.the_conn Demo.grouped) eq_refl) as (_ & _ & _ & _ & H5).
  split; [apply H1 | apply H5]; reflexivity.
Defined.

(** ** Bulk writes at the edges *)



(** BEGIN is outside the try block. When the connection already has a
    transaction open, [saveLogs] and [assignLogsToGroup] reject with the
    engine's refusal of BEGIN, run no ROLLBACK, and leave the connection as it
    was: the transaction that was open stays open with the rows written in it. *)
Theorem bulk_write_inside_transaction (logs : list Log.t) (groupId : string)
    (logIds : list string) (m : StorageManager.t) (c : Connection)
    (saved : Tables) :
  conn m = Some c -> txn c = Some saved ->
  StorageManager.saveLogs logs m
  = (Err (SQLITE_ERROR "cannot start a transaction within a transaction"), m)
  /\ StorageManager.assignLogsToGroup groupId logIds m
     = (Err (SQLITE_ERROR "cannot start a transaction within a transaction"), m).
Proof.
  intros Hc Hopen.
  assert (Hbegin :
    StorageManager.this_db (Database.run BEGIN_TRANSACTION) m
    = (Err (SQLITE_ERROR "cannot start a transaction within a transaction"), m)).
  { eapply this_db_run_err; [exact Hc|].
    unfold Sqlite.run. rewrite Hopen. reflexivity. }
  split.
  - unfold StorageManager.saveLogs.
    erewrite bind_err by exact Hbegin. reflexivity.
  - unfold StorageManager.assignLogsToGroup.
    erewrite bind_err by exact Hbegin. reflexivity.
Qed.

Lemma bulk_write_inside_transaction_witness :
  conn (with_conn (in_batch (Demo.the_conn Demo.outage) [Demo.L1]) Demo.outage)
  = Some (in_batch (Demo.the_conn Demo.outage) [Demo.L1])
  /\ txn (in_batch (Demo.the_conn Demo.outage) [Demo.L1])
     = Some (tables (Demo.the_conn Demo.outage))
  /\ StorageManager.saveLogs [Demo.L2]
       (with_conn (in_batch (Demo.the_conn Demo.outage) [Demo.L1]) Demo.outage)
     = (Err (SQLITE_ERROR "cannot start a transaction within a transaction"),
        with_conn (in_batch (Demo.the_conn Demo.outage) [Demo.L1]) Demo.outage).
Proof.
  split; [reflexivity|]. split; [reflexivity|].
  apply (@bulk_write_inside_transaction [Demo.L2] "g-A" ["L1"]
           (with_conn (in_batch (Demo.the_conn Demo.outage) [Demo.L1])
              Demo.outage)
           (in_batch (Demo.the_conn Demo.outage) [Demo.L1])
           (tables (Demo.the_conn Demo.outage)) eq_refl eq_refl).
Defined.

(** ** Closing *)

(** [close()] never touches the current-session pointer. On a store that is
    not open it resolves and changes nothing, so closing twice is safe. On an
    open store, when the engine reports an error the promise rejects with it
    and the connection is kept (reads go on working); otherwise the promise
    resolves and the connection is gone, while [getCurrentSession] still
    returns the session selected before. *)
Theorem close_outcomes (err err' : option Error) (m : StorageManager.t) :
  StorageManager.getCurrentSession (snd (StorageManager.close err m))
  = StorageManager.getCurrentSession m
  /\ (conn m = None -> StorageManager.close err m = (Ok tt, m))
  /\ (forall c e,
        conn m = Some c -> err = Some e ->
        StorageManager.close err m = (Err e, m))
  /\ (forall c,
        conn m = Some c -> err = None ->
        fst (StorageManager.close err m) = Ok tt
        /\ conn (snd (StorageManager.close err m)) = None
        /\ StorageManager.close err' (snd (StorageManager.close err m))
           = (Ok tt, snd (StorageManager.close err m))).
Proof.
  unfold StorageManager.close, StorageManager.this_db, on_field, Database.close,
    conn, StorageManager.getCurrentSession.
  destruct m as [[[c0|]] cur]; simpl.
  - split; [destruct err; reflexivity|].
    split; [discriminate|]. split.
    + intros c e _ ->. reflexivity.
    + intros c _ ->. simpl. repeat split.
  - split; [reflexivity|]. split; [reflexivity|].
    split; intros; discriminate.
Qed.

(** ** The invariant, instantiated *)

Lemma reachable_consistent_witness :
  reachable Demo.grouped
  /\ wf_conn (Demo.the_conn Demo.grouped)
  /\ txn (Demo.the_conn Demo.grouped) = None.
Proof.
  assert (Hreach : reachable Demo.grouped).
  { unfold Demo.grouped, Demo.with_groups, Demo.with_logs, Demo.outage,
      Demo.opened.
    repeat first [ apply reach_assignLogsToGroup | apply reach_createLogGroup
                 | apply reach_saveLogs | apply reach_createSession ].
    apply reach_initialize; [apply reach_new|].
    repeat split; constructor. }
  split; [exact Hreach|].
  apply (@reachable_consistent Demo.grouped Hreach
           (Demo.the_conn Demo.grouped) eq_refl).
Defined.

(** ** Logs of a group *)

(** On an open store [getGroupLogs g] returns exactly the stored logs whose
    group is [g], each once per row, by ascending timestamp; every log
    returned carries [groupId] = [g], and a log that was never assigned
    ([group_id] NULL) is returned for no group. *)
Theorem getGroupLogs_ordered (g : string) (m : StorageManager.t)
    (c : Connection) :
  conn m = Some c ->
  exists ls,
    StorageManager.getGroupLogs g m = (Ok ls, m)
    /\ StronglySorted (fun a b => Log.timestamp a <= Log.timestamp b) ls
    /\ Permutation ls
         (map StorageManager.as_Log
            (filter (fun r => opt_eqb (l_group_id r) g) (logs (tables c))))
    /\ (forall l, In l ls -> Log.groupId l = text g)
    /\ (forall r,
          In r (logs (tables c)) -> l_group_id r = None ->
          ~ In (StorageManager.as_Log r) ls).
Proof.
  intros Hc. eexists. split; [apply getGroupLogs_open, Hc|].
  split; [|split; [|split]].
  - apply StronglySorted_map. simpl.
    eapply StronglySorted_weaken;
      [|apply order_by_sorted
          with (le := fun a b => l_timestamp a <=? l_timestamp b)].
    + intros a b H. apply Z.leb_le, H.
    + intros a b. rewrite !Z.leb_le. lia.
    + intros a b d. rewrite !Z.leb_le. lia.
  - apply Permutation_map, order_by_perm.
  - intros l Hl. apply in_map_iff in Hl as (r & <- & Hr).
    unfold Select.logs_WHERE_group_id in Hr.
    apply order_by_In, filter_In in Hr as [_ Hr]. simpl.
    destruct (l_group_id r) as [x|]; simpl in Hr; [|discriminate].
    apply String.eqb_eq in Hr. simpl. congruence.
  - intros r _ Hnull Hin. apply in_map_iff in Hin as (r' & E & Hr').
    unfold Select.logs_WHERE_group_id in Hr'.
    apply order_by_In, filter_In in Hr' as [_ Hr'].
    assert (Hg : of_column (l_group_id r') = of_column (l_group_id r)).
    { change (Log.groupId (StorageManager.as_Log r')
              = Log.groupId (StorageManager.as_Log r)). rewrite E. reflexivity. }
    rewrite Hnull in Hg.
    destruct (l_group_id r'); [discriminate Hg | discriminate Hr'].
Qed.

Lemma getGroupLogs_ordered_witness :
  conn Demo.grouped = Some (Demo.the_conn Demo.grouped)
  /\ exists ls,
      StorageManager.getGroupLogs "g-A" Demo.grouped = (Ok ls, Demo.grouped)
      /\ (forall l, In l ls -> Log.groupId l = text "g-A")
      /\ ~ In (StorageManager.as_Log (row_of_Log Demo.L2)) ls.
Proof.
  split; [reflexivity|].
  destruct (@getGroupLogs_ordered "g-A" Demo.grouped
              (Demo.the_conn Demo.grouped) eq_refl)
    as (ls & Hget & _ & _ & Hgroup & Hnull).
  exists ls. split; [exact Hget|]. split; [exact Hgroup|].
  apply Hnull; [right; left; reflexivity | reflexivity].
Defined.

Lemma close_outcomes_witness :
  conn Demo.grouped = Some (Demo.the_conn Demo.grouped)
  /\ StorageManager.close (Some (SQLITE_ERROR "busy")) Demo.grouped
     = (Err (SQLITE_ERROR "busy"), Demo.grouped)
  /\ conn (snd (StorageManager.close None Demo.grouped)) = None
  /\ StorageManager.close None (snd (StorageManager.close None Demo.grouped))
     = (Ok tt, snd (StorageManager.close None Demo.grouped)).
Proof.
  split; [reflexivity|].
  pose proof (@close_outcomes (Some (SQLITE_ERROR "busy")) None Demo.grouped)
    as (_ & _ & Hfail & _).
  pose proof (@close_outcomes None None Demo.grouped) as (_ & _ & _ & Hok).
  split; [apply (Hfail (Demo.the_conn Demo.grouped)); reflexivity|].
  destruct (Hok (Demo.the_conn Demo.grouped) eq_refl eq_refl) as (_ & H1 & H2).
  split; assumption.
Defined.

(** ** Deleting a session: what is left alone *)

Lemma filter_other {A} (key : A -> string) (i j : string) (l : list A) :
  i <> j ->
  filter (fun r => String.eqb (key r) i)
    (filter (fun r => negb (String.eqb (key r) j)) l)
  = filter (fun r => String.eqb (key r) i) l.
Proof.
  intros Hij. rewrite filter_filter. apply filter_ext. intros r.
  destruct (String.eqb (key r) i) eqn:Ei; [|reflexivity].
  apply String.eqb_eq in Ei.
  destruct (String.eqb (key r) j) eqn:Ej; [|reflexivity].
  apply String.eqb_eq in Ej. congruence.
Qed.

Lemma deleteSession_open (id : string) (m : StorageManager.t) (c : Connection) :
  conn m = Some c ->
  StorageManager.deleteSession id m
  = (Ok tt,
     with_conn
       (with_tables
          (mkTables
             (filter (fun r => negb (String.eqb (s_id r) id)) (sessions (tables c)))
             (filter (fun r => negb (String.eqb (l_session_id r) id))
                (logs (tables c)))
             (filter (fun r => negb (String.eqb (g_session_id r) id))
                (log_groups (tables c)))) c) m).
Proof.
  intros Hc.
  unfold StorageManager.deleteSession, StorageManager.deleteSession_on.
  erewrite bind_ok by (eapply this_db_run_ok; [exact Hc | reflexivity]).
  erewrite bind_ok
    by (eapply this_db_run_ok; [apply conn_with_conn | reflexivity]).
  erewrite bind_ok.
  2:{ eapply this_db_run_ok; [apply conn_with_conn|].
      unfold Sqlite.run, no_child; simpl.
      rewrite (existsb_none (fun r => String.eqb (l_session_id r) id)).
      rewrite (existsb_none (fun r => String.eqb (g_session_id r) id)).
      simpl. rewrite orb_true_r, andb_false_r. reflexivity. }
  reflexivity.
Qed.

(** On an open store [deleteSession id] leaves every other session as it
    was: for any other identifier, [getSession], [getSessionLogs] and
    [getSessionLogGroups] return what they returned before. It does not
    touch the current-session pointer either: when the deleted session is the
    selected one, [getCurrentSession] goes on returning it although
    [getSession] no longer finds it. *)
Theorem deleteSession_leaves_the_rest (id : string) (m : StorageManager.t)
    (c : Connection) :
  conn m = Some c ->
  exists m',
    StorageManager.deleteSession id m = (Ok tt, m')
    /\ StorageManager.getCurrentSession m' = StorageManager.getCurrentSession m
    /\ (forall s,
          StorageManager.getCurrentSession m = Some s -> Session.id s = id ->
          StorageManager.getCurrentSession m' = Some s
          /\ StorageManager.getSession (Session.id s) m' = (Ok None, m'))
    /\ (forall i, i <> id ->
          StorageManager.getSession i m'
          = (fst (StorageManager.getSession i m), m')
          /\ StorageManager.getSessionLogs i m'
             = (fst (StorageManager.getSessionLogs i m), m')
          /\ StorageManager.getSessionLogGroups i m'
             = (fst (StorageManager.getSessionLogGroups i m), m')).
Proof.
  intros Hc. eexists. split; [apply deleteSession_open, Hc|].
  split; [reflexivity|]. split.
  - intros s Hs Hid. split; [exact Hs|].
    erewrite getSession_open by apply conn_with_conn.
    unfold Select.sessions_WHERE_id; simpl. rewrite Hid.
    rewrite (filter_none (fun r => String.eqb (s_id r) id)). reflexivity.
  - intros i Hi. split; [|split].
    + erewrite getSession_open by apply conn_with_conn.
      rewrite (getSession_open i _ Hc).
      unfold Select.sessions_WHERE_id; simpl.
      rewrite (filter_other s_id _ Hi). reflexivity.
    + erewrite getSessionLogs_open by apply conn_with_conn.
      rewrite (getSessionLogs_open i _ Hc).
      unfold Select.logs_WHERE_session_id; simpl.
      rewrite (filter_other l_session_id _ Hi). reflexivity.
    + erewrite getSessionLogGroups_open by apply conn_with_conn.
      rewrite (getSessionLogGroups_open i _ Hc).
      unfold Select.log_groups_WHERE_session_id; simpl.
      rewrite (filter_other g_session_id _ Hi). reflexivity.
Qed.

Lemma deleteSession_leaves_the_rest_witness :
  conn (snd (StorageManager.setCurrentSession "s-1" Demo.grouped))
  = Some (Demo.the_conn Demo.grouped)
  /\ option_map Session.id
       (StorageManager.getCurrentSession
          (snd (StorageManager.setCurrentSession "s-1" Demo.grouped)))
     = Some "s-1"
  /\ exists m',
      StorageManager.deleteSession "s-1"
        (snd (StorageManager.setCurrentSession "s-1" Demo.grouped))
      = (Ok tt, m')
      /\ option_map Session.id (StorageManager.getCurrentSession m')
         = Some "s-1"
      /\ StorageManager.getSession "s-1" m' = (Ok None, m').
Proof.
  split; [reflexivity|]. split; [reflexivity|].
  destruct (@deleteSession_leaves_the_rest "s-1"
              (snd (StorageManager.setCurrentSession "s-1" Demo.grouped))
              (Demo.the_conn Demo.grouped) eq_refl)
    as (m' & Hdel & Hcur & Hstale & _).
  exists m'. split; [exact Hdel|].
  split; [rewrite Hcur; reflexivity|].
  apply (Hstale (Session.mk "s-1" "Outage-42" 1000 1000 "aws" 0 1000 "new"));
    reflexivity.
Defined.

(** ** Assignment changes the group and nothing else *)

Lemma insert_by_map {A B} (f : A -> B) (leA : A -> A -> bool)
    (leB : B -> B -> bool) (x : A) (l : list A) :
  (forall a b, leB (f a) (f b) = leA a b) ->
  insert_by leB (f x) (map f l) = map f (insert_by leA x l).
Proof.
  intros H. induction l as [|y l IH]; simpl; [reflexivity|].
  rewrite H. destruct (leA x y); simpl; [reflexivity|]. rewrite IH. reflexivity.
Qed.

Lemma order_by_map {A B} (f : A -> B) (leA : A -> A -> bool)
    (leB : B -> B -> bool) (l : list A) :
  (forall a b, leB (f a) (f b) = leA a b) ->
  order_by leB (map f l) = map f (order_by leA l).
Proof.
  intros H. unfold order_by.
  induction l as [|x l IH]; simpl; [reflexivity|].
  rewrite IH. apply insert_by_map, H.
Qed.

Lemma assigned_twice (gid : string) (ids : list string) (rows : list logs_row) :
  assigned gid ids (assigned gid ids rows) = assigned gid ids rows.
Proof.
  unfold assigned. rewrite map_map. apply map_ext. intros r.
  destruct (existsb (String.eqb (l_id r)) ids) eqn:E; simpl; rewrite E;
    reflexivity.
Qed.

(** On an open store with no transaction in progress, [assignLogsToGroup]
    adds, removes and reorders no log and changes no field but the group:
    for every session, [getSessionLogs] returns the same logs in the same
    order as before, up to [groupId]. Sessions and log groups are untouched,
    and running the same assignment again changes nothing more. *)
Theorem assignLogsToGroup_only_sets_group (groupId : string)
    (logIds : list string) (m : StorageManager.t) (c : Connection) :
  conn m = Some c -> txn c = None ->
  exists m' c',
    StorageManager.assignLogsToGroup groupId logIds m = (Ok tt, m')
    /\ conn m' = Some c'
    /\ sessions (tables c') = sessions (tables c)
    /\ log_groups (tables c') = log_groups (tables c)
    /\ (forall sessionId before,
          StorageManager.getSessionLogs sessionId m = (Ok before, m) ->
          exists after,
            StorageManager.getSessionLogs sessionId m' = (Ok after, m')
            /\ map ungrouped after = map ungrouped before)
    /\ StorageManager.assignLogsToGroup groupId logIds m' = (Ok tt, m').
Proof.
  intros Hc Hidle.
  pose (f := fun r : logs_row =>
               if existsb (String.eqb (l_id r)) logIds
               then set_group_id groupId r else r).
  assert (Hsid : forall r, l_session_id (f r) = l_session_id r).
  { intros r. unfold f. destruct (existsb _ _); reflexivity. }
  assert (Hts : forall r, l_timestamp (f r) = l_timestamp r).
  { intros r. unfold f. destruct (existsb _ _); reflexivity. }
  assert (Hun : forall r,
             ungrouped (StorageManager.as_Log (f r))
             = ungrouped (StorageManager.as_Log r)).
  { intros r. unfold f. destruct (existsb _ _); reflexivity. }
  do 2 eexists.
  split; [apply assignLogsToGroup_open; eassumption|].
  split; [reflexivity|]. split; [reflexivity|]. split; [reflexivity|].
  split.
  - intros sid before Hbefore.
    rewrite (getSessionLogs_open sid _ Hc) in Hbefore.
    inversion Hbefore; subst before.
    eexists. split; [apply getSessionLogs_open; reflexivity|].
    unfold Select.logs_WHERE_session_id; simpl.
    change (assigned groupId logIds (logs (tables c)))
      with (map f (logs (tables c))).
    rewrite filter_map_commute by (intros x; rewrite Hsid; reflexivity).
    rewrite (order_by_map f (fun a b => l_timestamp a <=? l_timestamp b))
      by (intros a b; rewrite !Hts; reflexivity).
    rewrite !map_map. apply map_ext. intros r. apply Hun.
  - erewrite assignLogsToGroup_open; [|reflexivity|exact Hidle].
    simpl. rewrite assigned_twice. reflexivity.
Qed.

Lemma assignLogsToGroup_only_sets_group_witness :
  conn Demo.with_groups = Some (Demo.the_conn Demo.with_groups)
  /\ txn (Demo.the_conn Demo.with_groups) = None
  /\ exists m' after,
      StorageManager.assignLogsToGroup "g-A" ["L1"] Demo.with_groups
      = (Ok tt, m')
      /\ StorageManager.getSessionLogs "s-1" m' = (Ok after, m')
      /\ map ungrouped after = [Demo.L2; Demo.L1].
Proof.
  split; [reflexivity|]. split; [reflexivity|].
  destruct (@assignLogsToGroup_only_sets_group "g-A" ["L1"] Demo.with_groups
              (Demo.the_conn Demo.with_groups) eq_refl eq_refl)
    as (m' & c' & Hrun & _ & _ & _ & Hlogs & _).
  destruct (Hlogs "s-1"
              [StorageManager.as_Log (row_of_Log Demo.L2);
               StorageManager.as_Log (row_of_Log Demo.L1)] eq_refl)
    as (after & Hget & Hsame).
  exists m', after. split; [exact Hrun|]. split; [exact Hget | exact Hsame].
Defined.

(** ** When a batch is accepted *)

Lemma has_id_rows_of_batch (i : string) (batch : list Log.t) :
  has_id l_id i (map row_of_Log batch) = true <-> In i (map Log.id batch).
Proof.
  unfold has_id. rewrite existsb_exists. split.
  - intros (r & Hr & E). apply in_map_iff in Hr as (l & <- & Hl).
    apply String.eqb_eq in E. simpl in E. rewrite <- E. apply in_map, Hl.
  - intros Hi. apply in_map_iff in Hi as (l & <- & Hl).
    exists (row_of_Log l). split; [apply in_map, Hl | apply String.eqb_refl].
Qed.

(** One INSERT inside the batch succeeds exactly when the identifier is new
    to the table and to the rows inserted so far, and the session passes the
    foreign-key check. *)
Lemma insert_ok_iff (c : Connection) (sofar : list Log.t) (l : Log.t) :
  (exists r c', Sqlite.run (insert_of_Log l) (in_batch c sofar) = Ok (r, c'))
  <-> has_id l_id (Log.id l) (logs (tables c)) = false
      /\ ~ In (Log.id l) (map Log.id sofar)
      /\ parent_ok c (Log.sessionId l) = true.
Proof.
  unfold Sqlite.run, insert_of_Log.
  change (logs (tables (in_batch c sofar)))
    with (logs (tables c) ++ map row_of_Log sofar)%list.
  change (parent_ok (in_batch c sofar) (Log.sessionId l))
    with (parent_ok c (Log.sessionId l)).
  unfold has_id at 1. rewrite existsb_app.
  fold (has_id l_id (Log.id l) (logs (tables c))).
  fold (has_id l_id (Log.id l) (map row_of_Log sofar)).
  pose proof (has_id_rows_of_batch (Log.id l) sofar) as Hbatch.
  destruct (has_id l_id (Log.id l) (logs (tables c))); simpl.
  - split; [intros (r & c' & H); discriminate | intros (H & _); discriminate].
  - destruct (has_id l_id (Log.id l) (map row_of_Log sofar)); simpl.
    + split; [intros (r & c' & H); discriminate|].
      intros (_ & Hnot & _). exfalso. apply Hnot, Hbatch. reflexivity.
    + destruct (parent_ok c (Log.sessionId l)); simpl.
      * split; [|intros _; do 2 eexists; reflexivity].
        intros _. split; [reflexivity|]. split; [|reflexivity].
        intros Hin. apply Hbatch in Hin. discriminate.
      * split; [intros (r & c' & H); discriminate|].
        intros (_ & _ & H); discriminate.
Qed.

Lemma insert_each_resolves_iff (rest : list Log.t) :
  forall (sofar : list Log.t) (m : StorageManager.t) (c : Connection),
    conn m = Some (in_batch c sofar) ->
    (exists m', insert_each rest m = (Ok tt, m'))
    <-> NoDup (map Log.id rest)
        /\ forall l, In l rest ->
             has_id l_id (Log.id l) (logs (tables c)) = false
             /\ ~ In (Log.id l) (map Log.id sofar)
             /\ parent_ok c (Log.sessionId l) = true.
Proof.
  induction rest as [|l rest IH]; intros sofar m c Hc.
  - split.
    + intros _. split; [constructor | intros l []].
    + intros _. exists m. reflexivity.
  - destruct (Sqlite.run (insert_of_Log l) (in_batch c sofar))
      as [[r c']|e] eqn:Hrun.
    + assert (Hfresh : has_id l_id (Log.id l) (logs (tables c)) = false
                       /\ ~ In (Log.id l) (map Log.id sofar)
                       /\ parent_ok c (Log.sessionId l) = true).
      { apply insert_ok_iff. do 2 eexists. exact Hrun. }
      pose proof Hrun as Hstep. apply insert_step in Hstep.
      destruct Hstep as [-> ->].
      assert (Hbody :
        insert_each (l :: rest) m
        = insert_each rest (with_conn (in_batch c (sofar ++ [l])) m)).
      { unfold insert_each. cbn [for_of].
        erewrite bind_ok; [reflexivity|].
        erewrite bind_ok
          by (eapply this_db_run_ok; [exact Hc | exact Hrun]).
        reflexivity. }
      rewrite Hbody.
      rewrite (IH (sofar ++ [l])%list _ c (conn_with_conn _ _)).
      simpl. split.
      * intros [Hnd Hall]. split.
        { constructor; [|exact Hnd].
          intros Hin. apply in_map_iff in Hin as (l' & E & Hl').
          destruct (Hall l' Hl') as (_ & Hnot & _). apply Hnot.
          rewrite map_app, in_app_iff. right. left. symmetry. exact E. }
        { intros l' [<-|Hl']; [exact Hfresh|].
          destruct (Hall l' Hl') as (H1 & Hnot & H3).
          split; [exact H1|]. split; [|exact H3].
          intros Hin. apply Hnot. rewrite map_app, in_app_iff. left. exact Hin. }
      * intros [Hnd Hall]. inversion Hnd as [|? ? Hnotin Hnd']; subst. split.
        { exact Hnd'. }
        { intros l' Hl'. destruct (Hall l' (or_intror Hl')) as (H1 & Hnot & H3).
          split; [exact H1|]. split; [|exact H3].
          rewrite map_app, in_app_iff. intros [Hin|[E|[]]].
          - apply Hnot, Hin.
          - apply Hnotin. rewrite E. apply in_map, Hl'. }
    + split.
      * intros (m' & H). exfalso.
        unfold insert_each in H. cbn [for_of] in H.
        erewrite bind_err in H; [discriminate|].
        erewrite bind_err
          by (eapply this_db_run_err; [exact Hc | exact Hrun]).
        reflexivity.
      * intros [_ Hall]. exfalso.
        assert (Hok : exists r c',
                   Sqlite.run (insert_of_Log l) (in_batch c sofar) = Ok (r, c')).
        { apply insert_ok_iff. apply Hall. left. reflexivity. }
        destruct Hok as (r & c' & Hok). congruence.
Qed.

(** The two ways [saveLogs] ends, in terms of its loop. *)
Lemma saveLogs_outcome (logs : list Log.t) (m : StorageManager.t)
    (c : Connection) :
  conn m = Some c -> txn c = None ->
  (insert_each logs (with_conn (in_batch c []) m)
   = (Ok tt, with_conn (in_batch c logs) (with_conn (in_batch c []) m))
   /\ StorageManager.saveLogs logs m
      = (Ok tt,
         with_conn
           (with_tables
              (mkTables (sessions (tables c))
                 (Sqlite.logs (tables c) ++ map row_of_Log logs)
                 (log_groups (tables c))) c) m))
  \/ (exists e m1,
        insert_each logs (with_conn (in_batch c []) m) = (Err e, m1)
        /\ StorageManager.saveLogs logs m = (Err e, m)).
Proof.
  intros Hc Hidle.
  assert (Hbegin :
    StorageManager.this_db (Database.run BEGIN_TRANSACTION) m
    = (Ok (mkRunResult 0), with_conn (in_batch c []) m)).
  { eapply this_db_run_ok; [exact Hc|].
    unfold Sqlite.run. rewrite Hidle. unfold in_batch; simpl.
    rewrite app_nil_r, Tables_eta. reflexivity. }
  destruct (@insert_loop logs [] (with_conn (in_batch c []) m) c
              (conn_with_conn _ _))
    as [[Hok _]|(pre & l & post & e & _ & _ & Herr)]; simpl in *.
  - left. split; [exact Hok|].
    unfold StorageManager.saveLogs.
    erewrite bind_ok by exact Hbegin.
    unfold try_catch.
    erewrite bind_ok by exact Hok.
    erewrite bind_ok
      by (eapply this_db_run_ok; [apply conn_with_conn | reflexivity]).
    unfold ret, with_tables, with_conn; simpl. rewrite Hidle. reflexivity.
  - right. exists e. eexists. split; [exact Herr|].
    unfold StorageManager.saveLogs.
    erewrite bind_ok by exact Hbegin.
    unfold try_catch.
    erewrite bind_err by exact Herr.
    erewrite bind_ok
      by (eapply this_db_run_ok; [apply conn_with_conn | reflexivity]).
    unfold throw; simpl. f_equal.
    rewrite <- (with_conn_same m Hc) at 2.
    unfold with_conn. do 3 f_equal.
    destruct c; simpl in *; subst; reflexivity.
Qed.

Lemma accepted_iff_fresh (c : Connection) (batch : list Log.t) :
  accepted c batch
  <-> NoDup (map Log.id batch)
      /\ forall l, In l batch ->
           has_id l_id (Log.id l) (logs (tables c)) = false
           /\ ~ In (Log.id l) (map Log.id (@nil Log.t))
           /\ parent_ok c (Log.sessionId l) = true.
Proof.
  unfold accepted. split; intros [Hnd Hall]; (split; [exact Hnd|]);
    intros l Hl; destruct (Hall l Hl); intuition.
Qed.

Lemma saveLogs_ok_or_unchanged (logs : list Log.t) (m : StorageManager.t)
    (c : Connection) :
  conn m = Some c -> txn c = None ->
  (accepted c logs /\ exists m', StorageManager.saveLogs logs m = (Ok tt, m'))
  \/ (~ accepted c logs
      /\ exists e, StorageManager.saveLogs logs m = (Err e, m)).
Proof.
  intros Hc Hidle.
  pose proof (@insert_each_resolves_iff logs [] (with_conn (in_batch c []) m) c
                (conn_with_conn _ _)) as Hiff.
  rewrite <- accepted_iff_fresh in Hiff.
  destruct (@saveLogs_outcome logs m c Hc Hidle)
    as [[Hloop Hsave]|(e & m1 & Hloop & Hsave)].
  - left. split; [apply Hiff; eexists; exact Hloop | eexists; exact Hsave].
  - right. split; [|exists e; exact Hsave].
    intros Hacc. apply Hiff in Hacc as (m' & H).
    rewrite Hloop in H. discriminate.
Qed.

(** On an open store with no transaction in progress, [saveLogs] resolves
    exactly when the identifiers of the batch are pairwise distinct, none of
    them is stored already and, if foreign keys are enforced, every log names
    a stored session. In every other case it rejects and stores nothing. *)
Theorem saveLogs_resolves_iff (logs : list Log.t) (m : StorageManager.t)
    (c : Connection) :
  conn m = Some c -> txn c = None ->
  ((exists m', StorageManager.saveLogs logs m = (Ok tt, m'))
   <-> accepted c logs)
  /\ (~ accepted c logs ->
      exists e, StorageManager.saveLogs logs m = (Err e, m)).
Proof.
  intros Hc Hidle.
  destruct (@saveLogs_ok_or_unchanged logs m c Hc Hidle)
    as [[Hacc Hok]|[Hnot (e & Herr)]].
  - split; [split; auto|]. intros Hnot. contradiction.
  - split; [|intros _; exists e; exact Herr].
    split; [|intros Hacc; contradiction].
    intros (m' & H). rewrite Herr in H. discriminate.
Qed.

Lemma saveLogs_resolves_iff_witness :
  conn Demo.with_logs = Some (Demo.the_conn Demo.with_logs)
  /\ txn (Demo.the_conn Demo.with_logs) = None
  /\ ~ accepted (Demo.the_conn Demo.with_logs) [Demo.L3; Demo.L3]
  /\ exists e,
      StorageManager.saveLogs [Demo.L3; Demo.L3] Demo.with_logs
      = (Err e, Demo.with_logs).
Proof.
  split; [reflexivity|]. split; [reflexivity|].
  assert (Hnot : ~ accepted (Demo.the_conn Demo.with_logs) [Demo.L3; Demo.L3]).
  { intros [Hnd _]. inversion Hnd as [|? ? Hnotin _]; subst.
    apply Hnotin. left. reflexivity. }
  split; [exact Hnot|].
  apply (@saveLogs_resolves_iff [Demo.L3; Demo.L3] Demo.with_logs
           (Demo.the_conn Demo.with_logs) eq_refl eq_refl), Hnot.
Defined.

Lemma reads_back_same_spec (x : Optional) :
  reads_back_same x = true <-> of_column (or_null x) = x.
Proof.
  destruct x as [| |[|ch rest]]; simpl; split; intros H;
    try reflexivity; discriminate.
Qed.

(** After [saveLogs] has resolved, [getSessionLogs] for the session of a log
    of the batch returns exactly one log with that identifier: the row that
    was bound for it. Its identifier, session, content and timestamp are the
    ones given; each of service, level and group went through [|| null]: a
    non-empty text comes back as that text, while the empty string, null and
    a field left out come back as null. So the log comes back exactly as
    given if and only if each of its optional fields is null or a non-empty
    text; a log given without a group, as the TypeScript type invites, comes
    back with [groupId] null. *)
Theorem saved_log_read_back (logs : list Log.t) (m m' : StorageManager.t)
    (c : Connection) (l : Log.t) :
  conn m = Some c -> txn c = None ->
  StorageManager.saveLogs logs m = (Ok tt, m') ->
  In l logs ->
  exists seen back,
    StorageManager.getSessionLogs (Log.sessionId l) m' = (Ok seen, m')
    /\ In back seen
    /\ (forall l', In l' seen -> Log.id l' = Log.id l -> l' = back)
    /\ back
       = Log.mk (Log.id l) (Log.sessionId l) (Log.logContent l)
           (Log.timestamp l) (of_column (or_null (Log.service l)))
           (of_column (or_null (Log.logLevel l)))
           (of_column (or_null (Log.groupId l)))
    /\ (In l seen
        <-> reads_back_same (Log.service l)
            && reads_back_same (Log.logLevel l)
            && reads_back_same (Log.groupId l) = true)
    /\ (Log.groupId l = undefined -> Log.groupId back = null /\ ~ In l seen).
Proof.
  intros Hc Hidle Hsave Hl.
  assert (Hacc : accepted c logs).
  { destruct (@saveLogs_ok_or_unchanged logs m c Hc Hidle)
      as [[Hacc _]|[_ (e & Herr)]]; [exact Hacc|].
    rewrite Herr in Hsave. discriminate. }
  destruct (@saveLogs_outcome logs m c Hc Hidle)
    as [[_ Hsave']|(e & m1 & _ & Hsave')]; rewrite Hsave' in Hsave;
    [|discriminate].
  inversion Hsave; subst m'. clear Hsave.
  eexists. exists (StorageManager.as_Log (row_of_Log l)).
  split; [apply getSessionLogs_open; reflexivity|].
  assert (Hin : In (StorageManager.as_Log (row_of_Log l))
                  (map StorageManager.as_Log
                     (Select.logs_WHERE_session_id (Log.sessionId l)
                        (mkTables (sessions (tables c))
                           (Sqlite.logs (tables c) ++ map row_of_Log logs)
                           (log_groups (tables c)))))).
  { apply in_map. unfold Select.logs_WHERE_session_id; simpl.
    apply order_by_In, filter_In. split.
    - apply in_or_app. right. apply in_map, Hl.
    - simpl. apply String.eqb_refl. }
  assert (Honly : forall l',
            In l' (map StorageManager.as_Log
                     (Select.logs_WHERE_session_id (Log.sessionId l)
                        (mkTables (sessions (tables c))
                           (Sqlite.logs (tables c) ++ map row_of_Log logs)
                           (log_groups (tables c))))) ->
            Log.id l' = Log.id l -> l' = StorageManager.as_Log (row_of_Log l)).
  { intros l' Hseen Hid.
    apply in_map_iff in Hseen as (r & E & Hr).
    unfold Select.logs_WHERE_session_id in Hr; simpl in Hr.
    apply order_by_In, filter_In in Hr as [Hr _].
    assert (Hrid : l_id r = Log.id l)
      by (rewrite <- Hid, <- E; reflexivity).
    apply in_app_or in Hr as [Hold|Hnew].
    - exfalso. destruct Hacc as [_ Hall].
      destruct (Hall l Hl) as [Hfresh _].
      pose proof (has_id_false l_id _ _ _ Hfresh Hold) as Hne.
      rewrite Hrid, String.eqb_refl in Hne. discriminate.
    - apply in_map_iff in Hnew as (l0 & <- & Hl0).
      assert (l0 = l).
      { destruct Hacc as [Hnd _].
        apply (unique_key_row Log.id logs l0 l Hnd Hl0 Hl). exact Hrid. }
      subst l0. symmetry. exact E. }
  assert (Hsame : In l (map StorageManager.as_Log
                     (Select.logs_WHERE_session_id (Log.sessionId l)
                        (mkTables (sessions (tables c))
                           (Sqlite.logs (tables c) ++ map row_of_Log logs)
                           (log_groups (tables c)))))
                  <-> reads_back_same (Log.service l)
                      && reads_back_same (Log.logLevel l)
                      && reads_back_same (Log.groupId l) = true).
  { rewrite !andb_true_iff, !reads_back_same_spec. split.
    - intros Hseen. pose proof (Honly l Hseen eq_refl) as E.
      repeat split.
      + change (Log.service (StorageManager.as_Log (row_of_Log l))
                = Log.service l). rewrite <- E. reflexivity.
      + change (Log.logLevel (StorageManager.as_Log (row_of_Log l))
                = Log.logLevel l). rewrite <- E. reflexivity.
      + change (Log.groupId (StorageManager.as_Log (row_of_Log l))
                = Log.groupId l). rewrite <- E. reflexivity.
    - intros [[Hsv Hlv] Hgr].
      assert (E : StorageManager.as_Log (row_of_Log l) = l).
      { destruct l as [i sid lc ts sv lv gr].
        unfold StorageManager.as_Log, row_of_Log; simpl in *.
        rewrite Hsv, Hlv, Hgr. reflexivity. }
      rewrite <- E at 1. exact Hin. }
  split; [exact Hin|].
  split; [exact Honly|].
  split; [reflexivity|].
  split; [exact Hsame|].
  intros Hgr. split.
  - unfold StorageManager.as_Log, row_of_Log; simpl. rewrite Hgr. reflexivity.
  - intros Hseen. apply Hsame in Hseen. rewrite Hgr in Hseen.
    rewrite andb_false_r in Hseen. discriminate.
Qed.

Lemma saved_log_read_back_witness :
  conn Demo.outage = Some (Demo.the_conn Demo.outage)
  /\ txn (Demo.the_conn Demo.outage) = None
  /\ StorageManager.getSessionLogs "s-1"
       (snd (StorageManager.saveLogs
               [Log.mk "L4" "s-1" "x" 5 (text "") (text "warn") undefined]
               Demo.outage))
     = (Ok [Log.mk "L4" "s-1" "x" 5 null (text "warn") null],
        snd (StorageManager.saveLogs
               [Log.mk "L4" "s-1" "x" 5 (text "") (text "warn") undefined]
               Demo.outage))
  /\ exists seen back,
      StorageManager.getSessionLogs "s-1"
        (snd (StorageManager.saveLogs
                [Log.mk "L4" "s-1" "x" 5 (text "") (text "warn") undefined]
                Demo.outage))
      = (Ok seen,
         snd (StorageManager.saveLogs
                [Log.mk "L4" "s-1" "x" 5 (text "") (text "warn") undefined]
                Demo.outage))
      /\ In back seen
      /\ back = Log.mk "L4" "s-1" "x" 5 null (text "warn") null
      /\ ~ In (Log.mk "L4" "s-1" "x" 5 (text "") (text "warn") undefined) seen.
Proof.
  split; [reflexivity|]. split; [reflexivity|]. split; [reflexivity|].
  destruct (@saved_log_read_back
              [Log.mk "L4" "s-1" "x" 5 (text "") (text "warn") undefined]
              Demo.outage
              (snd (StorageManager.saveLogs
                      [Log.mk "L4" "s-1" "x" 5 (text "") (text "warn")
                         undefined]
                      Demo.outage))
              (Demo.the_conn Demo.outage)
              (Log.mk "L4" "s-1" "x" 5 (text "") (text "warn") undefined)
              eq_refl eq_refl eq_refl (or_introl eq_refl))
    as (seen & back & Hget & Hin & _ & Hback & _ & Habsent).
  exists seen, back. split; [exact Hget|]. split; [exact Hin|].
  split; [exact Hback|].
  apply Habsent. reflexivity.
Defined.

(** ** The session written last is listed first *)

Lemma sessions_order_head (rows : list sessions_row) (x : sessions_row) :
  In x rows ->
  exists h t,
    order_by (fun a b => s_updated_at b <=? s_updated_at a) rows = h :: t
    /\ In h rows
    /\ s_updated_at x <= s_updated_at h.
Proof.
  intros Hx.
  pose proof (order_by_sorted (fun a b => s_updated_at b <=? s_updated_at a))
    as Hsorted.
  specialize (Hsorted
    (fun a b => ltac:(rewrite !Z.leb_le; lia))
    (fun a b d => ltac:(rewrite !Z.leb_le; lia)) rows).
  pose proof (order_by_In (fun a b => s_updated_at b <=? s_updated_at a) x rows)
    as Hin.
  apply Hin in Hx.
  destruct (order_by _ rows) as [|h t] eqn:E; [contradiction|].
  exists h, t. split; [reflexivity|]. split.
  - apply (order_by_In (fun a b => s_updated_at b <=? s_updated_at a) h rows).
    rewrite E. left. reflexivity.
  - destruct Hx as [->|Hx]; [lia|].
    apply StronglySorted_inv in Hsorted as [_ Hh].
    rewrite Forall_forall in Hh. apply Z.leb_le, Hh, Hx.
Qed.

(** On an open store, when [uuidv4()] returns an unused identifier and the
    clock reads later than the [updatedAt] of every stored session, the
    session returned by [createSession] is the first element of what
    [getAllSessions] returns next. *)
Theorem created_session_listed_first (now : Z) (uuid name provider : string)
    (startTime endTime : Z) (m : StorageManager.t) (c : Connection) :
  conn m = Some c ->
  has_id s_id uuid (sessions (tables c)) = false ->
  (forall r, In r (sessions (tables c)) -> s_updated_at r < now) ->
  exists session m' rest,
    StorageManager.createSession now uuid name provider startTime endTime m
    = (Ok session, m')
    /\ StorageManager.getAllSessions m' = (Ok (session :: rest), m').
Proof.
  intros Hc Hfresh Hlater.
  set (row := mk_sessions_row uuid name now now provider startTime endTime "new").
  assert (Hrun :
    Sqlite.run (INSERT_INTO_sessions uuid name now now provider startTime
                  endTime "new") c
    = done 1 (mkTables (sessions (tables c) ++ [row])
                (logs (tables c)) (log_groups (tables c))) c).
  { unfold Sqlite.run. rewrite Hfresh. reflexivity. }
  destruct (@sessions_order_head (sessions (tables c) ++ [row]) row)
    as (h & t & Horder & Hh & Hle).
  { apply in_or_app. right. left. reflexivity. }
  assert (h = row).
  { apply in_app_or in Hh as [Hold|[<-|[]]]; [|reflexivity].
    specialize (Hlater h Hold). simpl in Hle. lia. }
  subst h.
  do 3 eexists. split.
  { unfold StorageManager.createSession; simpl.
    erewrite bind_ok by (eapply this_db_run_ok; [exact Hc | exact Hrun]).
    reflexivity. }
  erewrite getAllSessions_open by apply conn_with_conn.
  unfold Select.sessions_ORDER_BY_updated_at_DESC; simpl.
  fold row. rewrite Horder. reflexivity.
Qed.

Lemma created_session_listed_first_witness :
  conn Demo.outage = Some (Demo.the_conn Demo.outage)
  /\ has_id s_id "s-2" (sessions (tables (Demo.the_conn Demo.outage))) = false
  /\ exists session m' rest,
      StorageManager.createSession 1500 "s-2" "Later" "gcp" 0 1 Demo.outage
      = (Ok session, m')
      /\ StorageManager.getAllSessions m' = (Ok (session :: rest), m').
Proof.
  split; [reflexivity|]. split; [reflexivity|].
  apply (@created_session_listed_first 1500 "s-2" "Later" "gcp" 0 1 Demo.outage
           (Demo.the_conn Demo.outage) eq_refl eq_refl).
  intros r [<-|[]]. reflexivity.
Defined.

(** On an open store, when the clock reads later than the [updatedAt] of
    every other stored session, a stored session given to [updateSession] is
    the first element of what [getAllSessions] returns next, with the fields
    just written. *)
Theorem updated_session_listed_first (now : Z) (r : Heap.ref) (h : Heap.t)
    (m : StorageManager.t) (c : Connection) (s : Session.t)
    (stored : sessions_row) :
  conn m = Some c ->
  Heap.get r h = Some s ->
  In stored (sessions (tables c)) -> s_id stored = Session.id s ->
  (forall x, In x (sessions (tables c)) ->
             s_id x <> Session.id s -> s_updated_at x < now) ->
  exists h' m' first rest,
    StorageManager.updateSession now r (h, m) = (Ok r, (h', m'))
    /\ StorageManager.getAllSessions m' = (Ok (first :: rest), m')
    /\ Session.id first = Session.id s
    /\ Session.updatedAt first = now
    /\ Session.name first = Session.name s
    /\ Session.status first = Session.status s.
Proof.
  intros Hc Hs Hstored Hid Hlater.
  set (upd := update_session_row (with_updatedAt now s)).
  destruct (@sessions_order_head (map upd (sessions (tables c))) (upd stored))
    as (x & t & Horder & Hx & Hle).
  { apply in_map, Hstored. }
  assert (Hupd_stored : s_updated_at (upd stored) = now).
  { unfold upd, update_session_row; simpl.
    rewrite Hid, String.eqb_refl. reflexivity. }
  rewrite Hupd_stored in Hle.
  apply in_map_iff in Hx as (x0 & <- & Hx0).
  assert (Hsame : String.eqb (s_id x0) (Session.id s) = true).
  { destruct (String.eqb (s_id x0) (Session.id s)) eqn:E; [reflexivity|].
    exfalso. apply String.eqb_neq in E.
    specialize (Hlater x0 Hx0 E).
    unfold upd, update_session_row in Hle; simpl in Hle.
    apply String.eqb_neq in E. rewrite E in Hle. lia. }
  do 4 eexists. split; [apply updateSession_open; eassumption|].
  split.
  { erewrite getAllSessions_open by apply conn_with_conn.
    unfold Select.sessions_ORDER_BY_updated_at_DESC; simpl.
    fold upd. rewrite Horder. reflexivity. }
  unfold upd, update_session_row, StorageManager.as_Session; simpl.
  rewrite Hsame; simpl. apply String.eqb_eq in Hsame.
  repeat split; assumption.
Qed.

Lemma updated_session_listed_first_witness :
  exists m1,
    StorageManager.createSession 1500 "s-2" "Later" "gcp" 0 1 Demo.outage
    = (Ok (Session.mk "s-2" "Later" 1500 1500 "gcp" 0 1 "new"), m1)
    /\ option_map (map Session.id)
         (match fst (StorageManager.getAllSessions m1) with
          | Ok l => Some l
          | Err _ => None
          end) = Some ["s-2"; "s-1"]
    /\ exists h' m' first rest,
        StorageManager.updateSession 2000 0%nat (Demo.caller_heap, m1)
        = (Ok 0%nat, (h', m'))
        /\ StorageManager.getAllSessions m' = (Ok (first :: rest), m')
        /\ Session.id first = "s-1".
Proof.
  eexists. split; [reflexivity|]. split; [reflexivity|].
  destruct (@updated_session_listed_first 2000 0%nat Demo.caller_heap
              (snd (StorageManager.createSession 1500 "s-2" "Later" "gcp" 0 1
                      Demo.outage))
              (Demo.the_conn
                 (snd (StorageManager.createSession 1500 "s-2" "Later" "gcp" 0 1
                         Demo.outage)))
              Demo.edited
              (mk_sessions_row "s-1" "Outage-42" 1000 1000 "aws" 0 1000 "new"))
    as (h' & m' & first & rest & Hupd & Hall & Hid & _).
  - reflexivity.
  - reflexivity.
  - left. reflexivity.
  - reflexivity.
  - intros x [<-|[<-|[]]] Hne; simpl in *; [congruence | lia].
  - exists h', m', first, rest. repeat split; assumption.
Defined.

(** ** The nonce *)

Lemma string_length_append (a b : string) :
  String.length (a ++ b) = (String.length a + String.length b)%nat.
Proof. induction a as [|ch a IH]; simpl; [reflexivity | rewrite IH; reflexivity]. Qed.

Lemma all_chars_append (p : ascii -> bool) (a b : string) :
  Helpers.all_chars p (a ++ b) = Helpers.all_chars p a && Helpers.all_chars p b.
Proof.
  induction a as [|ch a IH]; simpl; [reflexivity|].
  rewrite IH. apply andb_assoc.
Qed.

Lemma charAt_possible (k : nat) :
  (k < 62)%nat ->
  exists ch,
    Helpers.charAt Helpers.possible k = String ch EmptyString
    /\ Helpers.alphanumeric ch = true.
Proof.
  intros Hk.
  assert (Hall :
    forallb (fun k => match String.get k Helpers.possible with
                      | Some ch => Helpers.alphanumeric ch
                      | None => false
                      end) (seq 0 62) = true) by (vm_compute; reflexivity).
  rewrite forallb_forall in Hall.
  specialize (Hall k). rewrite in_seq in Hall.
  specialize (Hall (conj (Nat.le_0_l k) Hk)).
  unfold Helpers.charAt.
  destruct (String.get k Helpers.possible) as [ch|]; [|discriminate].
  exists ch. split; [reflexivity | exact Hall].
Qed.

Lemma nonce_loop (random_index : nat -> nat) (steps : list nat) :
  (forall i, In i steps -> (random_index i < 62)%nat) ->
  forall text,
    let text' :=
      fold_left
        (fun text i => text ++ Helpers.charAt Helpers.possible (random_index i))
        steps text in
    String.length text' = (String.length text + length steps)%nat
    /\ Helpers.all_chars Helpers.alphanumeric text'
       = Helpers.all_chars Helpers.alphanumeric text.
Proof.
  induction steps as [|i steps IH]; intros Hsteps text; simpl.
  - split; [lia | reflexivity].
  - destruct (@charAt_possible (random_index i)) as (ch & Hch & Halnum).
    { apply Hsteps. left. reflexivity. }
    destruct (IH (fun j Hj => Hsteps j (or_intror Hj))
                (text ++ Helpers.charAt Helpers.possible (random_index i)))
      as [Hlen Hchars].
    simpl in Hlen, Hchars. rewrite Hlen, Hchars.
    rewrite string_length_append, all_chars_append, Hch; simpl.
    rewrite Halnum. split; [lia|]. rewrite andb_true_r. reflexivity.
Qed.

(** When every random index is below the length of the alphabet (what
    [Math.floor(Math.random() * 62)] returns), [getNonce] is a string of
    exactly 32 characters, each a letter or a digit. *)
Theorem getNonce_shape (random_index : nat -> nat) :
  (forall i, (i < 32)%nat -> (random_index i < 62)%nat) ->
  String.length (Helpers.getNonce random_index) = 32%nat
  /\ Helpers.all_chars Helpers.alphanumeric (Helpers.getNonce random_index)
     = true.
Proof.
  intros Hr.
  destruct (@nonce_loop random_index (seq 0 32)) with (text := EmptyString)
    as [Hlen Hchars].
  { intros i Hi. apply in_seq in Hi. apply Hr. lia. }
  unfold Helpers.getNonce. rewrite Hlen, Hchars, length_seq. split; reflexivity.
Qed.

Lemma getNonce_shape_witness :
  Helpers.getNonce (fun i => (i * 7) mod 62)%nat
  = "AHOVcjqx4BIPWdkry5CJQXelsz6DKRYf"
  /\ String.length (Helpers.getNonce (fun i => (i * 7) mod 62)%nat) = 32%nat.
Proof.
  split; [reflexivity|].
  apply (@getNonce_shape (fun i => (i * 7) mod 62)%nat).
  intros i _. apply Nat.mod_upper_bound. discriminate.
Defined.

(** ** Mock logs *)

(** The logs pushed by the loop, before the sort. *)
Lemma mock_loop (rnd : Extension.Random) (now : Z) (sessionId : string)
    (errorLogsOnly : bool) (steps : list nat) :
  forall acc : list Log.t,
    fold_left
      (fun (logs : list Log.t) i =>
         match Extension.mockLog rnd now sessionId errorLogsOnly i with
         | Some log => (logs ++ [log])%list
         | None => logs
         end) steps acc
    = (acc
       ++ flat_map
            (fun i =>
               match Extension.mockLog rnd now sessionId errorLogsOnly i with
               | Some log => [log]
               | None => []
               end) steps)%list.
Proof.
  induction steps as [|i steps IH]; intros acc; simpl.
  - rewrite app_nil_r. reflexivity.
  - rewrite IH.
    destruct (Extension.mockLog rnd now sessionId errorLogsOnly i); simpl;
      [rewrite <- app_assoc|]; reflexivity.
Qed.

Lemma generateMockLogs_perm (rnd : Extension.Random) (now : Z)
    (sessionId : string) (errorLogsOnly : bool) :
  Permutation (Extension.generateMockLogs rnd now sessionId errorLogsOnly)
    (flat_map
       (fun i =>
          match Extension.mockLog rnd now sessionId errorLogsOnly i with
          | Some log => [log]
          | None => []
          end) (seq 0 20)).
Proof.
  unfold Extension.generateMockLogs. rewrite mock_loop. simpl app.
  apply order_by_perm.
Qed.

Lemma generateMockLogs_In (rnd : Extension.Random) (now : Z)
    (sessionId : string) (errorLogsOnly : bool) (l : Log.t) :
  In l (Extension.generateMockLogs rnd now sessionId errorLogsOnly)
  <-> exists i, (i < 20)%nat
                /\ Extension.mockLog rnd now sessionId errorLogsOnly i = Some l.
Proof.
  split.
  - intros Hl.
    apply (Permutation_in _ (generateMockLogs_perm _ _ _ _)) in Hl.
    apply in_flat_map in Hl as (i & Hi & Hl). apply in_seq in Hi.
    exists i. split; [lia|].
    destruct (Extension.mockLog rnd now sessionId errorLogsOnly i);
      [destruct Hl as [->|[]]; reflexivity | contradiction].
  - intros (i & Hi & Hl).
    apply (Permutation_in _ (Permutation_sym (generateMockLogs_perm _ _ _ _))).
    apply in_flat_map. exists i. split; [apply in_seq; lia|].
    rewrite Hl. left. reflexivity.
Qed.

Lemma flat_map_at_most_one {A B} (f : A -> option B) (l : list A) :
  (length (flat_map (fun a => match f a with Some b => [b] | None => [] end) l)
   <= length l)%nat
  /\ ((forall a, In a l -> f a <> None) ->
      length (flat_map (fun a => match f a with Some b => [b] | None => [] end) l)
      = length l).
Proof.
  induction l as [|a l [IHle IHeq]]; simpl; [split; [lia | reflexivity]|].
  rewrite length_app. split.
  - destruct (f a); simpl; lia.
  - intros H. rewrite IHeq by (intros x Hx; apply H; right; exact Hx).
    destruct (f a) eqn:E; [reflexivity|].
    exfalso. apply (H a); [left; reflexivity | exact E].
Qed.

(** [generateMockLogs] returns at most 20 logs, exactly 20 when
    [errorLogsOnly] is false, by ascending timestamp. Every log carries the
    session given, no group, the identifier and the time offset drawn in its
    iteration; with [errorLogsOnly] every log has level ERROR and the error
    text. When the offsets drawn lie in the last 24 hours, so do the
    timestamps. *)
Theorem generateMockLogs_shape (rnd : Extension.Random) (now : Z)
    (sessionId : string) (errorLogsOnly : bool) :
  let logs := Extension.generateMockLogs rnd now sessionId errorLogsOnly in
  (length logs <= 20)%nat
  /\ (errorLogsOnly = false -> length logs = 20%nat)
  /\ StronglySorted (fun a b => Log.timestamp a <= Log.timestamp b) logs
  /\ (forall l, In l logs ->
        Log.sessionId l = sessionId
        /\ Log.groupId l = undefined
        /\ exists i, (i < 20)%nat
                     /\ Log.id l = Extension.uuid rnd i
                     /\ Log.timestamp l = now - Extension.offset rnd i)
  /\ (errorLogsOnly = true ->
      forall l, In l logs ->
        Log.logLevel l = text "ERROR"
        /\ Log.logContent l
           = "[ERROR] Error processing request: Connection timeout or resource not found")
  /\ ((forall i, (i < 20)%nat -> 0 <= Extension.offset rnd i < 86400000) ->
      forall l, In l logs -> now - 86400000 < Log.timestamp l <= now).
Proof.
  intros logs.
  pose proof (generateMockLogs_perm rnd now sessionId errorLogsOnly) as Hperm.
  fold logs in Hperm.
  assert (Hshape : forall l, In l logs ->
            Log.sessionId l = sessionId
            /\ Log.groupId l = undefined
            /\ exists i, (i < 20)%nat
                         /\ Log.id l = Extension.uuid rnd i
                         /\ Log.timestamp l = now - Extension.offset rnd i).
  { intros l Hl. apply generateMockLogs_In in Hl as (i & Hi & Hl).
    unfold Extension.mockLog in Hl.
    destruct (errorLogsOnly && _); [discriminate|].
    inversion Hl; subst l; simpl.
    split; [reflexivity|]. split; [reflexivity|].
    exists i. repeat split; assumption. }
  split; [|split; [|split; [|split; [exact Hshape|split]]]].
  - rewrite (Permutation_length Hperm).
    etransitivity; [apply (flat_map_at_most_one _ (seq 0 20))|].
    rewrite length_seq. lia.
  - intros ->. rewrite (Permutation_length Hperm).
    rewrite (proj2 (flat_map_at_most_one _ (seq 0 20))), length_seq;
      [reflexivity|].
    intros i _. unfold Extension.mockLog; simpl. discriminate.
  - subst logs. unfold Extension.generateMockLogs.
    eapply StronglySorted_weaken;
      [|apply order_by_sorted
          with (le := fun a b => Log.timestamp a <=? Log.timestamp b)].
    + intros a b H. apply Z.leb_le, H.
    + intros a b. rewrite !Z.leb_le. lia.
    + intros a b d. rewrite !Z.leb_le. lia.
  - intros -> l Hl. apply generateMockLogs_In in Hl as (i & Hi & Hl).
    unfold Extension.mockLog in Hl. simpl in Hl.
    destruct (Extension.isError rnd i).
    + simpl in Hl. inversion Hl; subst l; simpl. split; reflexivity.
    + destruct (nth_error Extension.logLevels (Extension.levelIndex rnd i))
        as [lvl|] eqn:Hlvl; simpl in Hl; [|discriminate].
      destruct (String.eqb lvl "ERROR") eqn:E; simpl in Hl; [|discriminate].
      apply String.eqb_eq in E. subst lvl.
      inversion Hl; subst l; simpl. split; reflexivity.
  - intros Hoff l Hl. destruct (Hshape l Hl) as (_ & _ & i & Hi & _ & Hts).
    specialize (Hoff i Hi). lia.
Qed.

Lemma generateMockLogs_shape_witness :
  (forall i, (i < 20)%nat ->
     0 <= Extension.offset
            (Extension.mkRandom (fun i => Nat.even i) (fun i => i mod 4)%nat
               (fun i => i mod 4)%nat (fun i => 1000 * Z.of_nat i)
               (fun i => String (ascii_of_nat (65 + i)) EmptyString)) i
       < 86400000)
  /\ map Log.id
       (Extension.generateMockLogs
          (Extension.mkRandom (fun i => Nat.even i) (fun i => i mod 4)%nat
             (fun i => i mod 4)%nat (fun i => 1000 * Z.of_nat i)
             (fun i => String (ascii_of_nat (65 + i)) EmptyString))
          100000 "s-1" true)
     = ["S"; "Q"; "O"; "M"; "K"; "I"; "G"; "E"; "C"; "A"]
  /\ forall l,
       In l (Extension.generateMockLogs
               (Extension.mkRandom (fun i => Nat.even i) (fun i => i mod 4)%nat
                  (fun i => i mod 4)%nat (fun i => 1000 * Z.of_nat i)
                  (fun i => String (ascii_of_nat (65 + i)) EmptyString))
               100000 "s-1" true) ->
       100000 - 86400000 < Log.timestamp l <= 100000.
Proof.
  assert (Hoff : forall i, (i < 20)%nat ->
            0 <= Extension.offset
                   (Extension.mkRandom (fun i => Nat.even i)
                      (fun i => i mod 4)%nat (fun i => i mod 4)%nat
                      (fun i => 1000 * Z.of_nat i)
                      (fun i => String (ascii_of_nat (65 + i)) EmptyString)) i
              < 86400000)
    by (intros i Hi; cbn [Extension.offset]; lia).
  split; [exact Hoff|]. split; [reflexivity|].
  apply (@generateMockLogs_shape
           (Extension.mkRandom (fun i => Nat.even i) (fun i => i mod 4)%nat
              (fun i => i mod 4)%nat (fun i => 1000 * Z.of_nat i)
              (fun i => String (ascii_of_nat (65 + i)) EmptyString))
           100000 "s-1" true), Hoff.
Defined.

Lemma mock_ids_distinct (rnd : Extension.Random) (now : Z) (sessionId : string)
    (errorLogsOnly : bool) (steps : list nat) :
  NoDup (map (Extension.uuid rnd) steps) ->
  NoDup (map Log.id
           (flat_map
              (fun i =>
                 match Extension.mockLog rnd now sessionId errorLogsOnly i with
                 | Some log => [log]
                 | None => []
                 end) steps)).
Proof.
  induction steps as [|i steps IH]; simpl; intros Hnd; [constructor|].
  inversion Hnd as [|? ? Hnotin Hnd']; subst.
  destruct (Extension.mockLog rnd now sessionId errorLogsOnly i) as [l|] eqn:E;
    simpl; [|apply IH, Hnd'].
  constructor; [|apply IH, Hnd'].
  intros Hin. apply Hnotin.
  apply in_map_iff in Hin as (l' & Hid & Hl').
  apply in_flat_map in Hl' as (j & Hj & Hl').
  assert (Hli : Log.id l = Extension.uuid rnd i).
  { unfold Extension.mockLog in E. destruct (errorLogsOnly && _);
      [discriminate|]. inversion E; reflexivity. }
  assert (Hlj : Log.id l' = Extension.uuid rnd j).
  { destruct (Extension.mockLog rnd now sessionId errorLogsOnly j) as [x|] eqn:Ej;
      [|contradiction].
    destruct Hl' as [->|[]].
    unfold Extension.mockLog in Ej. destruct (errorLogsOnly && _);
      [discriminate|]. inversion Ej; reflexivity. }
  rewrite <- Hli, <- Hid, Hlj. apply in_map, Hj.
Qed.

(** The mock logs can be stored: on an open store with no transaction in
    progress, when the 20 identifiers drawn are pairwise distinct and none is
    stored, and the session exists if foreign keys are enforced, [saveLogs] of
    [generateMockLogs] resolves, and [getSessionLogs] for the session then
    returns, for every generated log, a log with its identifier, session,
    content and timestamp, and with the service and the level the generator
    chose. The generated log has no group; the log read back has [groupId]
    null, so it is not the generated object itself. *)
Theorem mock_logs_can_be_saved (rnd : Extension.Random) (now : Z)
    (sessionId : string) (errorLogsOnly : bool) (m : StorageManager.t)
    (c : Connection) :
  conn m = Some c -> txn c = None ->
  NoDup (map (Extension.uuid rnd) (seq 0 20)) ->
  (forall i, (i < 20)%nat ->
     has_id l_id (Extension.uuid rnd i) (logs (tables c)) = false) ->
  parent_ok c sessionId = true ->
  exists m' seen,
    StorageManager.saveLogs
      (Extension.generateMockLogs rnd now sessionId errorLogsOnly) m
    = (Ok tt, m')
    /\ StorageManager.getSessionLogs sessionId m' = (Ok seen, m')
    /\ forall l,
         In l (Extension.generateMockLogs rnd now sessionId errorLogsOnly) ->
         (exists back,
            In back seen
            /\ Log.id back = Log.id l
            /\ Log.sessionId back = Log.sessionId l
            /\ Log.logContent back = Log.logContent l
            /\ Log.timestamp back = Log.timestamp l
            /\ (forall t, Log.service l = text t -> Log.service back = text t)
            /\ (forall t, Log.logLevel l = text t -> Log.logLevel back = text t)
            /\ Log.groupId back = null)
         /\ Log.groupId l = undefined
         /\ ~ In l seen.
Proof.
  intros Hc Hidle Huuid Hnew Hparent.
  set (batch := Extension.generateMockLogs rnd now sessionId errorLogsOnly).
  assert (Hfields : forall l, In l batch ->
            Log.sessionId l = sessionId
            /\ (exists i, (i < 20)%nat /\ Log.id l = Extension.uuid rnd i)
            /\ (forall t, Log.service l = text t ->
                  or_null (Log.service l) = Some t)
            /\ (forall t, Log.logLevel l = text t ->
                  or_null (Log.logLevel l) = Some t)
            /\ Log.groupId l = undefined).
  { intros l Hl. apply generateMockLogs_In in Hl as (i & Hi & Hl).
    unfold Extension.mockLog in Hl.
    destruct (errorLogsOnly && _); [discriminate|].
    inversion Hl as [E]. split; [reflexivity|]. split.
    - exists i. split; [exact Hi | reflexivity].
    - simpl. split; [|split; [|reflexivity]].
      + destruct (nth_error Extension.services (Extension.serviceIndex rnd i))
          as [svc|] eqn:Hsvc; [|discriminate].
        assert (Hin : In svc Extension.services)
          by (eapply nth_error_In; exact Hsvc).
        simpl in Hin. intros t Ht. inversion Ht; subst t.
        destruct Hin as [<-|[<-|[<-|[<-|[]]]]]; reflexivity.
      + destruct (Extension.isError rnd i);
          [intros t Ht; inversion Ht; reflexivity|].
        destruct (nth_error Extension.logLevels (Extension.levelIndex rnd i))
          as [lvl|] eqn:Hlvl; [|discriminate].
        assert (Hin : In lvl Extension.logLevels)
          by (eapply nth_error_In; exact Hlvl).
        simpl in Hin. intros t Ht. inversion Ht; subst t.
        destruct Hin as [<-|[<-|[<-|[<-|[]]]]]; reflexivity. }
  assert (Hacc : accepted c batch).
  { split.
    - eapply Permutation_NoDup;
        [apply Permutation_map, Permutation_sym, generateMockLogs_perm|].
      apply mock_ids_distinct, Huuid.
    - intros l Hl. destruct (Hfields l Hl) as (Hsid & (i & Hi & Hid) & _).
      rewrite Hid, Hsid. split; [apply Hnew, Hi | exact Hparent]. }
  destruct (@saveLogs_ok_or_unchanged batch m c Hc Hidle)
    as [[_ (m' & Hsave)]|[Hnot _]]; [|contradiction].
  destruct (@saveLogs_outcome batch m c Hc Hidle)
    as [[_ Hsave']|(e & m1 & _ & Hsave')]; rewrite Hsave' in Hsave;
    [|discriminate].
  inversion Hsave; subst m'. clear Hsave.
  do 2 eexists. split; [exact Hsave'|].
  split; [apply getSessionLogs_open; reflexivity|].
  intros l Hl.
  destruct (Hfields l Hl) as (Hsid & _ & Hsvc & Hlvl & Hgrp).
  split; [|split; [exact Hgrp|]].
  - exists (StorageManager.as_Log (row_of_Log l)). split.
    { apply in_map.
      unfold Select.logs_WHERE_session_id; simpl.
      apply order_by_In, filter_In. split.
      - apply in_or_app. right. apply in_map, Hl.
      - simpl. rewrite Hsid. apply String.eqb_refl. }
    unfold StorageManager.as_Log, row_of_Log; simpl.
    do 4 (split; [reflexivity|]).
    split; [intros t Ht; rewrite (Hsvc t Ht); reflexivity|].
    split; [intros t Ht; rewrite (Hlvl t Ht); reflexivity|].
    rewrite Hgrp. reflexivity.
  - intros Hseen. apply in_map_iff in Hseen as (r & E & _).
    assert (Hg : Log.groupId (StorageManager.as_Log r) = undefined)
      by (rewrite E; exact Hgrp).
    simpl in Hg. destruct (l_group_id r); discriminate.
Qed.

Lemma mock_logs_can_be_saved_witness :
  conn Demo.outage = Some (Demo.the_conn Demo.outage)
  /\ txn (Demo.the_conn Demo.outage) = None
  /\ exists m' seen,
      StorageManager.saveLogs
        (Extension.generateMockLogs
           (Extension.mkRandom (fun i => Nat.even i) (fun i => i mod 4)%nat
              (fun i => i mod 4)%nat (fun i => 1000 * Z.of_nat i)
              (fun i => String (ascii_of_nat (65 + i)) EmptyString))
           100000 "s-1" false) Demo.outage
      = (Ok tt, m')
      /\ StorageManager.getSessionLogs "s-1" m' = (Ok seen, m')
      /\ length seen = 20%nat.
Proof.
  split; [reflexivity|]. split; [reflexivity|].
  destruct (@mock_logs_can_be_saved
              (Extension.mkRandom (fun i => Nat.even i) (fun i => i mod 4)%nat
                 (fun i => i mod 4)%nat (fun i => 1000 * Z.of_nat i)
                 (fun i => String (ascii_of_nat (65 + i)) EmptyString))
              100000 "s-1" false Demo.outage (Demo.the_conn Demo.outage)
              eq_refl eq_refl)
    as (m' & seen & Hsave & Hget & _).
  - cbn [Extension.uuid]. simpl.
    repeat (constructor; [simpl; intuition discriminate|]). constructor.
  - intros i _. reflexivity.
  - reflexivity.
  - exists m', seen. split; [exact Hsave|]. split; [exact Hget|].
    vm_compute in Hsave. inversion Hsave; subst m'. clear Hsave.
    vm_compute in Hget. inversion Hget. reflexivity.
Defined.

(** ** Shutdown *)

(** [deactivate] never throws. With no manager it does nothing. With a
    manager whose close the engine refuses, the error is written to the
    console and the manager keeps its connection; otherwise the connection is
    released and the success line is written. *)
Theorem deactivate_never_throws (err : option Error) (g : Extension.Globals) :
  fst (Extension.deactivate err g) = Ok tt
  /\ (Extension.storageManager g = None -> snd (Extension.deactivate err g) = g)
  /\ (forall m c e,
        Extension.storageManager g = Some m -> conn m = Some c ->
        err = Some e ->
        snd (Extension.deactivate err g)
        = Extension.mkGlobals (Some m)
            (Extension.console g
             ++ [Extension.console_error "Error closing storage manager:" e]))
  /\ (forall m,
        Extension.storageManager g = Some m ->
        conn m = None \/ err = None ->
        exists m',
          snd (Extension.deactivate err g)
          = Extension.mkGlobals (Some m')
              (Extension.console g
               ++ [Extension.console_log "Storage manager closed successfully"])
          /\ conn m' = None
          /\ StorageManager.currentSession m' = StorageManager.currentSession m).
Proof.
  unfold Extension.deactivate.
  destruct g as [[m|] out]; simpl.
  2:{ split; [reflexivity|]. split; [reflexivity|].
      split; intros; discriminate. }
  unfold try_catch, bind, Extension.on_storageManager, Extension.write,
    StorageManager.close, StorageManager.this_db, on_field, Database.close, conn.
  destruct m as [[[c0|]] cur]; simpl.
  - destruct err as [e0|]; simpl.
    + split; [reflexivity|]. split; [discriminate|]. split.
      * intros m c e Hm _ He. inversion Hm; inversion He; subst. reflexivity.
      * intros m Hm [H|H]; [|discriminate].
        inversion Hm; subst. discriminate.
    + split; [reflexivity|]. split; [discriminate|]. split.
      * intros m c e _ _ He. discriminate.
      * intros m Hm _. inversion Hm; subst.
        eexists. split; [reflexivity|]. split; reflexivity.
  - split; [reflexivity|]. split; [discriminate|]. split.
    + intros m c e Hm Hc _. inversion Hm; subst. discriminate.
    + intros m Hm _. inversion Hm; subst.
      eexists. split; [reflexivity|]. split; reflexivity.
Qed.

Lemma deactivate_never_throws_witness :
  Extension.deactivate (Some (SQLITE_ERROR "busy"))
    (Extension.mkGlobals (Some Demo.grouped) [])
  = (Ok tt,
     Extension.mkGlobals (Some Demo.grouped)
       [Extension.console_error "Error closing storage manager:"
          (SQLITE_ERROR "busy")])
  /\ fst (Extension.deactivate None (Extension.mkGlobals (Some Demo.grouped) []))
     = Ok tt.
Proof.
  split; [reflexivity|].
  apply (@deactivate_never_throws None
           (Extension.mkGlobals (Some Demo.grouped) [])).
Defined.

(** ** What the view shows *)

Lemma sorted_firstn_skipn {A} (R : A -> A -> Prop) (l : list A) :
  StronglySorted R l ->
  forall n a b, In a (firstn n l) -> In b (skipn n l) -> R a b.
Proof.
  induction 1 as [|x l Hl IH Hx]; intros n a b Ha Hb.
  - destruct n; contradiction.
  - destruct n as [|n]; simpl in *; [contradiction|].
    destruct Ha as [<-|Ha].
    + rewrite Forall_forall in Hx. apply Hx.
      rewrite <- (firstn_skipn n l). apply in_or_app. right. exact Hb.
    + eapply IH; eassumption.
Qed.

(** With a session selected and the store open, the view is built from that
    session's groups and logs. The list under "Recent Logs" holds the first
    ten of the logs by ascending timestamp: no log left out is older than a
    log shown. The "more" line appears exactly when there are more than ten
    logs, with the number left out. With no session selected, no group and no
    log is read. *)
Theorem view_shows_oldest_logs (m : StorageManager.t) (c : Connection) :
  conn m = Some c ->
  exists v,
    Webview.loadViewData m = (Ok v, m)
    /\ Webview.currentSession v = StorageManager.getCurrentSession m
    /\ (StorageManager.getCurrentSession m = None ->
        Webview.logGroups v = [] /\ Webview.logs v = [])
    /\ (forall s,
          StorageManager.getCurrentSession m = Some s ->
          StorageManager.getSessionLogs (Session.id s) m
          = (Ok (Webview.logs v), m)
          /\ StorageManager.getSessionLogGroups (Session.id s) m
             = (Ok (Webview.logGroups v), m))
    /\ length (Webview.shownLogs (Webview.logs v))
       = Nat.min 10 (length (Webview.logs v))
    /\ (forall a b,
          In a (Webview.shownLogs (Webview.logs v)) ->
          In b (skipn 10 (Webview.logs v)) ->
          Log.timestamp a <= Log.timestamp b)
    /\ match Webview.moreLogs (Webview.logs v) with
       | Some k =>
           (0 < k)%nat /\ length (Webview.logs v) = (10 + k)%nat
       | None => Webview.shownLogs (Webview.logs v) = Webview.logs v
       end.
Proof.
  intros Hc.
  assert (Hsorted : forall i,
            StronglySorted (fun a b => Log.timestamp a <= Log.timestamp b)
              (map StorageManager.as_Log
                 (Select.logs_WHERE_session_id i (tables c)))).
  { intros i. apply StronglySorted_map. simpl.
    eapply StronglySorted_weaken;
      [|apply order_by_sorted
          with (le := fun a b => l_timestamp a <=? l_timestamp b)].
    - intros a b H. apply Z.leb_le, H.
    - intros a b. rewrite !Z.leb_le. lia.
    - intros a b d. rewrite !Z.leb_le. lia. }
  assert (Hmore : forall logs : list Log.t,
            match Webview.moreLogs logs with
            | Some k => (0 < k)%nat /\ length logs = (10 + k)%nat
            | None => Webview.shownLogs logs = logs
            end).
  { intros logs. unfold Webview.moreLogs, Webview.shownLogs.
    destruct (10 <? length logs)%nat eqn:E.
    - apply Nat.ltb_lt in E. lia.
    - apply Nat.ltb_ge in E. apply firstn_all2, E. }
  unfold Webview.loadViewData.
  erewrite bind_ok by (apply getAllSessions_open, Hc).
  destruct (StorageManager.getCurrentSession m) as [s|] eqn:Hcur.
  - erewrite bind_ok by (apply getSessionLogGroups_open, Hc).
    erewrite bind_ok by (apply getSessionLogs_open, Hc).
    eexists. split; [reflexivity|]. simpl.
    split; [reflexivity|]. split; [discriminate|]. split.
    { intros s' Hs'. inversion Hs'; subst s'.
      split; [apply getSessionLogs_open, Hc
             | apply getSessionLogGroups_open, Hc]. }
    split; [apply length_firstn|]. split; [|apply Hmore].
    intros a b Ha Hb.
    eapply (sorted_firstn_skipn (Hsorted (Session.id s))); eassumption.
  - eexists. split; [reflexivity|]. simpl.
    split; [reflexivity|]. split; [split; reflexivity|].
    split; [discriminate|]. split; [reflexivity|].
    split; [intros a b []|reflexivity].
Qed.

Lemma view_shows_oldest_logs_witness :
  conn (snd (StorageManager.setCurrentSession "s-1" Demo.grouped))
  = Some (Demo.the_conn Demo.grouped)
  /\ exists v,
      Webview.loadViewData
        (snd (StorageManager.setCurrentSession "s-1" Demo.grouped))
      = (Ok v, snd (StorageManager.setCurrentSession "s-1" Demo.grouped))
      /\ option_map Session.id (Webview.currentSession v) = Some "s-1"
      /\ length (Webview.shownLogs (Webview.logs v))
         = Nat.min 10 (length (Webview.logs v)).
Proof.
  split; [reflexivity|].
  destruct (@view_shows_oldest_logs
              (snd (StorageManager.setCurrentSession "s-1" Demo.grouped))
              (Demo.the_conn Demo.grouped) eq_refl)
    as (v & Hload & Hcur & _ & _ & Hlen & _).
  exists v. split; [exact Hload|]. split; [rewrite Hcur; reflexivity|].
  exact Hlen.
Defined.
